(** * Benchmark comparison script: [scripts/compare_results.py]

    A shallow embedding of the parsing, normalisation, comparison and
    summary code of [compare_results.py], and the properties of it that
    the specification states.

    Conventions of the embedding.
    - A Python [str] is a [string]; each [ascii] stands for the code point
      of the same number, so the strings of the model are the Python
      strings over U+0000..U+00FF.  The non-ASCII micro sign of the unit
      table is the single character 181, written [micro] below (a literal
      typed in this file would be its two UTF-8 bytes instead).
    - A Python [float] is a [spec_float] of the binary64 format
      ([prec = 53], [emax = 1024]), with the operations of [SpecFloat].
    - A [dict] from names to records is a [gmap string BenchResult]; the
      code never looks at the insertion order of its dicts.
    - A file is the list of the lines that iterating over it yields; the
      parsers are functions of that list, and opening the file is outside
      the model.
    - An exception is a value [Raise e] of the [result] type.
      [print_table] returns the numbers of its summary, and
      [print_table_lines] the lines it writes to the standard output. *)

From Stdlib Require Import ZArith NArith Ascii String List Lia.
From Stdlib Require Import Floats.SpecFloat.
From Stdlib Require Import DecimalString.
From stdpp Require Import gmap strings sorting.

Set Default Proof Using "Type".

(** ** Exceptions *)

Inductive exn := ValueError.

Inductive result (A : Type) :=
| Ok (a : A)
| Raise (e : exn).
Arguments Ok {A} a.
Arguments Raise {A} e.

Global Instance result_ret : MRet result := λ A a, Ok a.
Global Instance result_bind : MBind result := λ A B f m,
  match m with
  | Ok a => f a
  | Raise e => Raise e
  end.

(** A loop whose body may raise: [for x in xs: acc = body(acc, x)]. *)
Fixpoint for_each {A S} (body : S → A → result S) (acc : S) (xs : list A)
  : result S :=
  match xs with
  | [] => Ok acc
  | x :: xs' => acc' ← body acc x; for_each body acc' xs'
  end.

(** ** Characters and the character classes of [re] *)

Module Char.
Definition code (c : ascii) : N := N_of_ascii c.

Definition between (lo hi : N) (c : ascii) : bool :=
  ((lo <=? code c) && (code c <=? hi))%N.

(** [\d]: the decimal digits; below U+0100 these are [0-9]. *)
Definition digit (c : ascii) : bool := between 48 57 c.

(** [\s], and the characters [str.strip()] removes: the white space of
    Unicode below U+0100. *)
Definition space (c : ascii) : bool :=
  between 9 13 c || between 28 32 c
  || (code c =? 133)%N || (code c =? 160)%N.

(** [\S] *)
Definition nonspace (c : ascii) : bool := negb (space c).

(** Upper-case letters below U+0100: [A-Z] and U+00C0..U+00DE without the
    multiplication sign U+00D7. *)
Definition upper (c : ascii) : bool :=
  between 65 90 c || (between 192 222 c && negb (code c =? 215)%N).

(** [\w]: alphanumeric (letters, decimal digits, other digits and numeric
    characters) or the underscore. *)
Definition word (c : ascii) : bool :=
  between 48 57 c || between 65 90 c || between 97 122 c
  || (code c =? 95)%N
  || (code c =? 170)%N || (code c =? 178)%N || (code c =? 179)%N
  || (code c =? 181)%N || (code c =? 185)%N || (code c =? 186)%N
  || between 188 190 c
  || between 192 214 c || between 216 246 c || between 248 255 c.

(** [[\d.]] *)
Definition digit_or_dot (c : ascii) : bool :=
  digit c || (code c =? 46)%N.

(** One character of [str.lower()]. *)
Definition lower (c : ascii) : ascii :=
  if upper c then ascii_of_N (code c + 32) else c.
End Char.

(** The micro sign U+00B5 and the line feed. *)
Definition micro : ascii := ascii_of_nat 181.
Definition LF : ascii := ascii_of_nat 10.

(** ** String methods *)

Module Str.
Fixpoint all (p : ascii → bool) (s : string) : bool :=
  match s with
  | EmptyString => true
  | String c s' => p c && all p s'
  end.

(** [s.lower()] *)
Fixpoint lower (s : string) : string :=
  match s with
  | EmptyString => EmptyString
  | String c s' => String (Char.lower c) (lower s')
  end.

(** [s.replace(old, new)] for a one-character [old]. *)
Fixpoint replace (old : ascii) (new : string) (s : string) : string :=
  match s with
  | EmptyString => EmptyString
  | String c s' =>
      if Ascii.eqb c old then new +:+ replace old new s'
      else String c (replace old new s')
  end.

Fixpoint lstrip (s : string) : string :=
  match s with
  | EmptyString => EmptyString
  | String c s' => if Char.space c then lstrip s' else s
  end.

(** Drops trailing white space; the result is built back to front. *)
Fixpoint rstrip (s : string) : string :=
  match s with
  | EmptyString => EmptyString
  | String c s' =>
      match rstrip s' with
      | EmptyString => if Char.space c then EmptyString else String c EmptyString
      | t => String c t
      end
  end.

(** [s.strip()] *)
Definition strip (s : string) : string := rstrip (lstrip s).

(** [s[:n]] *)
Fixpoint take (n : nat) (s : string) : string :=
  match n, s with
  | S n', String c s' => String c (take n' s')
  | _, _ => EmptyString
  end.

(** [s] without the prefix [p], when it starts with [p]. *)
Fixpoint drop_prefix (p s : string) : option string :=
  match p, s with
  | EmptyString, _ => Some s
  | String a p', String b s' =>
      if Ascii.eqb a b then drop_prefix p' s' else None
  | String _ _, EmptyString => None
  end.

(** No character of [s] is an upper-case letter. *)
Definition no_upper (s : string) : bool :=
  all (λ c, negb (Char.upper c)) s.

(** Truth value of a string: empty strings are false. *)
Definition truthy (s : string) : bool :=
  match s with EmptyString => false | _ => true end.
End Str.

(** ** Regular expressions

    The fragment of [re] syntax the script's patterns are written in, and a
    backtracking matcher for it with the priorities of [re]: alternatives
    from left to right, greedy repetition longest first, lazy repetition
    shortest first.  Every repetition in the script's patterns is over a
    single character class, so [Rep] repeats a class. *)

Inductive regex :=
| Lit (l : string)                              (* literal text *)
| Rep (greedy : bool) (least : nat) (p : ascii → bool) (* p*, p+, p+? *)
| Seq (r1 r2 : regex)
| Alt (r1 r2 : regex)                           (* r1|r2 *)
| Opt (r : regex)                               (* (?:r)? *)
| Grp (n : nat) (r : regex)                     (* n-th capturing group *)
| Bol                                           (* ^ *)
| Eol.                                          (* $ *)

Declare Scope regex_scope.
Delimit Scope regex_scope with re.
Bind Scope regex_scope with regex.
Infix "⋅" := Seq (at level 41, right associativity) : regex_scope.

Definition plus (p : ascii → bool) : regex := Rep true 1 p.
Definition star (p : ascii → bool) : regex := Rep true 0 p.
Definition plus_lazy (p : ascii → bool) : regex := Rep false 1 p.

(** The groups that took part in a match, with their text, are a
    [gmap nat string].  [m.group(n)] is [None] when group [n] did not take
    part. *)
Definition group (m : gmap nat string) (n : nat) : option string := m !! n.

Section matcher.
Context {A : Type}.

(** The rest of the pattern, as a function of the position reached, the
    text left and the groups so far. *)
Definition cont := nat → string → gmap nat string → option A.

Definition when_zero (least : nat) (o : option A) : option A :=
  match least with O => o | S _ => None end.

Fixpoint rep_greedy (p : ascii → bool) (least pos : nat) (s : string)
    (caps : gmap nat string) (k : cont) : option A :=
  match s with
  | String c s' =>
      if p c then
        match rep_greedy p (pred least) (S pos) s' caps k with
        | Some a => Some a
        | None => when_zero least (k pos s caps)
        end
      else when_zero least (k pos s caps)
  | EmptyString => when_zero least (k pos s caps)
  end.

Fixpoint rep_lazy (p : ascii → bool) (least pos : nat) (s : string)
    (caps : gmap nat string) (k : cont) : option A :=
  match when_zero least (k pos s caps) with
  | Some a => Some a
  | None =>
      match s with
      | String c s' =>
          if p c then rep_lazy p (pred least) (S pos) s' caps k else None
      | EmptyString => None
      end
  end.

Fixpoint rmatch (r : regex) (pos : nat) (s : string) (caps : gmap nat string)
    (k : cont) : option A :=
  match r with
  | Lit l =>
      match Str.drop_prefix l s with
      | Some s' => k (pos + String.length l) s' caps
      | None => None
      end
  | Rep true least p => rep_greedy p least pos s caps k
  | Rep false least p => rep_lazy p least pos s caps k
  | Seq r1 r2 =>
      rmatch r1 pos s caps (fun pos' s' caps' => rmatch r2 pos' s' caps' k)
  | Alt r1 r2 =>
      match rmatch r1 pos s caps k with
      | Some a => Some a
      | None => rmatch r2 pos s caps k
      end
  | Opt r' =>
      match rmatch r' pos s caps k with
      | Some a => Some a
      | None => k pos s caps
      end
  | Grp n r' =>
      rmatch r' pos s caps
        (fun pos' s' caps' => k pos' s' (<[n := Str.take (pos' - pos) s]> caps'))
  | Bol => match pos with O => k pos s caps | S _ => None end
  | Eol =>
      match s with
      | EmptyString => k pos s caps
      | String c EmptyString => if Ascii.eqb c LF then k pos s caps else None
      | _ => None
      end
  end.
End matcher.

(** The outcome of a successful match: its groups and the position it
    ends at. *)
Record found := { groups : gmap nat string; stop : nat }.

Definition accept : @cont found :=
  fun pos _ caps => Some {| groups := caps; stop := pos |}.

(** [pattern.match(s)]: a match that starts at the first character. *)
Definition re_match (r : regex) (s : string) : option (gmap nat string) :=
  groups <$> rmatch r 0 s ∅ accept.

(** [pattern.search(s)]: the match at the first position that has one. *)
Fixpoint search_from (r : regex) (pos : nat) (s : string)
  : option (gmap nat string) :=
  match rmatch r pos s ∅ accept with
  | Some f => Some (groups f)
  | None =>
      match s with
      | String _ s' => search_from r (S pos) s'
      | EmptyString => None
      end
  end.

Definition re_search (r : regex) (s : string) : option (gmap nat string) :=
  search_from r 0 s.

(** [re.sub(r, repl, s)]: every match, found from left to right and not
    overlapping an earlier one, is replaced by [repl].  [skip] counts the
    characters still covered by the match just replaced. *)
Fixpoint sub_from (r : regex) (repl : string) (skip pos : nat) (s : string)
  : string :=
  match skip with
  | S skip' =>
      match s with
      | String _ s' => sub_from r repl skip' (S pos) s'
      | EmptyString => EmptyString
      end
  | O =>
      match rmatch r pos s ∅ accept, s with
      | Some f, String c s' =>
          match stop f - pos with
          | O => repl +:+ String c (sub_from r repl 0 (S pos) s')
          | S n => repl +:+ sub_from r repl n (S pos) s'
          end
      | Some f, EmptyString => repl
      | None, String c s' => String c (sub_from r repl 0 (S pos) s')
      | None, EmptyString => EmptyString
      end
  end.

Definition re_sub (r : regex) (repl s : string) : string :=
  sub_from r repl 0 0 s.

(** ** Numbers

    [float] values are binary64. *)

Definition prec : Z := 53.
Definition emax : Z := 1024.

Definition fmul : spec_float → spec_float → spec_float := SFmul prec emax.
Definition fdiv : spec_float → spec_float → spec_float := SFdiv prec emax.
Definition fltb : spec_float → spec_float → bool := SFltb.
Definition fleb : spec_float → spec_float → bool := SFleb.

(** The float nearest to the integer [z] (ties to even): what an [int]
    operand becomes next to a [float] one. *)
Definition float_of_Z (z : Z) : spec_float :=
  binary_normalize prec emax z 0 false.

(** The float nearest to [m / d] (ties to even), for [0 <= m] and [0 < d]. *)
Definition float_of_ratio (m d : Z) : spec_float :=
  match m with
  | Z0 => S754_zero false
  | _ =>
      let '(q, e, l) := SFdiv_core_binary prec emax m 0 d 0 in
      binary_round_aux prec emax false q e l
  end.

Definition digit_value (c : ascii) : Z := Z.of_N (Char.code c) - 48.

(** Reads [digits [. digits]] or [. digits]: the digits seen so far are the
    integer [acc], [count] of them in all and [frac] of them after the
    point. *)
Fixpoint decimal (s : string) (dot : bool) (acc : Z) (count frac : nat)
  : result (Z * nat) :=
  match s with
  | EmptyString =>
      match count with
      | O => Raise ValueError
      | S _ => Ok (acc, frac)
      end
  | String c s' =>
      if Char.digit c then
        decimal s' dot (10 * acc + digit_value c) (S count)
          (if dot then S frac else frac)
      else if Ascii.eqb c "." then
        if dot then Raise ValueError else decimal s' true acc count frac
      else Raise ValueError
  end.

(** [float(s)] on the strings the patterns capture for it, which are made
    of decimal digits and points: the correctly rounded value of the
    numeral, or [ValueError] when [s] is not a numeral (no digit, or more
    than one point).  Signs, exponents, underscores and the names of the
    special values contain other characters and are outside this model. *)
Definition float_of_str (s : string) : result spec_float :=
  '(m, frac) ← decimal s false 0 0 0;
  Ok (float_of_ratio m (10 ^ Z.of_nat frac)).

Fixpoint digits_value (s : string) (acc : Z) : Z :=
  match s with
  | EmptyString => acc
  | String c s' => digits_value s' (10 * acc + digit_value c)
  end.

(** The longest numeral [int] converts: the interpreter's limit on the
    number of digits, [sys.get_int_max_str_digits()], at its default. *)
Definition int_max_str_digits : Z := 4300.

(** [int(s)] on the strings the patterns capture for it, which are made of
    decimal digits: [int] raises [ValueError] on a numeral of more than
    [int_max_str_digits] digits, leading zeros included. *)
Definition int_of_str (s : string) : result Z :=
  if Str.truthy s && Str.all Char.digit s
     && (Z.of_nat (String.length s) <=? int_max_str_digits)%Z
  then Ok (digits_value s 0)
  else Raise ValueError.

(** ** [BenchResult] *)

Record BenchResult := {
  name : string;
  ns_per_op : spec_float;
  bytes_per_op : option Z;
  allocs_per_op : option Z;
  source : string
}.

(** ** [normalize_name] *)

(** r'-\d+$' *)
Definition suffix_pattern : regex := (Lit "-" ⋅ plus Char.digit ⋅ Eol)%re.

Definition normalize_name (name : string) : string :=
  (* Remove common prefixes: r'^Benchmark', r'^bench_' *)
  let name := re_sub (Bol ⋅ Lit "Benchmark") "" name in
  let name := re_sub (Bol ⋅ Lit "bench_") "" name in
  (* Normalize separators *)
  let name := Str.lower (Str.replace "/" "" (Str.replace "_" "" name)) in
  (* Remove trailing numbers (like -8 for GOMAXPROCS) *)
  let name := re_sub suffix_pattern "" name in
  name.

(** ** [convert_to_ns] *)

Definition micro_s : string := String micro "s".

Definition in_tuple (x : string) (xs : list string) : bool :=
  existsb (String.eqb x) xs.

Definition convert_to_ns (value : spec_float) (unit : string) : spec_float :=
  let unit := Str.lower unit in
  if in_tuple unit ["ns"; "nanoseconds"] then value
  else if in_tuple unit [micro_s; "us"; "microseconds"] then
    fmul value (float_of_Z 1000)
  else if in_tuple unit ["ms"; "milliseconds"] then
    fmul value (float_of_Z 1000000)
  else if in_tuple unit ["s"; "seconds"] then
    fmul value (float_of_Z 1000000000)
  else value.

(** ** [parse_go_bench] *)

(** r'^Benchmark(\S+?)(?:-\d+)?\s+' r'(\d+)\s+' r'([\d.]+)\s+ns/op'
    r'(?:\s+(\d+)\s+B/op)?' r'(?:\s+(\d+)\s+allocs/op)?' *)
Definition go_pattern : regex :=
  (Bol ⋅ Lit "Benchmark" ⋅ Grp 1 (plus_lazy Char.nonspace)
     ⋅ Opt (Lit "-" ⋅ plus Char.digit) ⋅ plus Char.space
   ⋅ Grp 2 (plus Char.digit) ⋅ plus Char.space
   ⋅ Grp 3 (plus Char.digit_or_dot) ⋅ plus Char.space ⋅ Lit "ns/op"
   ⋅ Opt (plus Char.space ⋅ Grp 4 (plus Char.digit) ⋅ plus Char.space
          ⋅ Lit "B/op")
   ⋅ Opt (plus Char.space ⋅ Grp 5 (plus Char.digit) ⋅ plus Char.space
          ⋅ Lit "allocs/op"))%re.

(** The text of a group that takes part in every match of its pattern. *)
Definition text (g : option string) : string := default "" g.

(** [int(g) if g else None] *)
Definition int_if (g : option string) : result (option Z) :=
  match g with
  | Some t => if Str.truthy t then x ← int_of_str t; Ok (Some x) else Ok None
  | None => Ok None
  end.

(** The body of the loop over the lines of the file. *)
Definition parse_go_line (results : gmap string BenchResult) (line : string)
  : result (gmap string BenchResult) :=
  match re_match go_pattern (Str.strip line) with
  | Some m =>
      let name := text (group m 1) in
      ns ← float_of_str (text (group m 3));
      bytes_op ← int_if (group m 4);
      allocs_op ← int_if (group m 5);
      Ok (<[normalize_name name :=
              {| name := "Benchmark" +:+ name;
                 ns_per_op := ns;
                 bytes_per_op := bytes_op;
                 allocs_per_op := allocs_op;
                 source := "go" |}]> results)
  | None => Ok results
  end.

(** [parse_go_bench], as a function of the lines the opened file yields. *)
Definition parse_go_bench (lines : list string)
  : result (gmap string BenchResult) :=
  for_each parse_go_line ∅ lines.

(** ** [parse_rust_bench] *)

(** r'^(\S+/\S+)\s*$|^(\S+)\s+time:' *)
Definition name_pattern : regex :=
  Alt (Bol ⋅ Grp 1 (plus Char.nonspace ⋅ Lit "/" ⋅ plus Char.nonspace)
         ⋅ star Char.space ⋅ Eol)%re
      (Bol ⋅ Grp 2 (plus Char.nonspace) ⋅ plus Char.space ⋅ Lit "time:")%re.

(** r'time:\s+\[([\d.]+)\s+(\w+)\s+([\d.]+)\s+(\w+)\s+([\d.]+)\s+(\w+)\]' *)
Definition time_pattern : regex :=
  (Lit "time:" ⋅ plus Char.space ⋅ Lit "["
   ⋅ Grp 1 (plus Char.digit_or_dot) ⋅ plus Char.space
   ⋅ Grp 2 (plus Char.word) ⋅ plus Char.space
   ⋅ Grp 3 (plus Char.digit_or_dot) ⋅ plus Char.space
   ⋅ Grp 4 (plus Char.word) ⋅ plus Char.space
   ⋅ Grp 5 (plus Char.digit_or_dot) ⋅ plus Char.space
   ⋅ Grp 6 (plus Char.word) ⋅ Lit "]")%re.

(** r'^(\S+)\s+time:\s+\[([\d.]+)\s+(\w+)' *)
Definition simple_pattern : regex :=
  (Bol ⋅ Grp 1 (plus Char.nonspace) ⋅ plus Char.space ⋅ Lit "time:"
   ⋅ plus Char.space ⋅ Lit "["
   ⋅ Grp 2 (plus Char.digit_or_dot) ⋅ plus Char.space
   ⋅ Grp 3 (plus Char.word))%re.

(** [a or b] on values that are [None] or a string. *)
Definition py_or (a b : option string) : option string :=
  match a with
  | Some t => if Str.truthy t then a else b
  | None => b
  end.

Definition is_true (a : option string) : bool :=
  match a with
  | Some t => Str.truthy t
  | None => false
  end.

Definition rust_result (name : string) (ns : spec_float) : BenchResult :=
  {| name := name; ns_per_op := ns; bytes_per_op := None;
     allocs_per_op := None; source := "rust" |}.

(** The three parts of the loop body.  The state of the loop is the dict
    [results] and the variable [current_name]. *)

(** "Try to match benchmark name" *)
Definition match_name (line : string) (current_name : option string)
  : option string :=
  match re_match name_pattern line with
  | Some m =>
      let current_name := py_or (group m 1) (group m 2) in
      match current_name with
      | Some t =>
          if Str.truthy t then Some (Str.replace "/" "_" t) else current_name
      | None => current_name
      end
  | None => current_name
  end.

(** "Try to match time line" *)
Definition match_time (line : string)
    (st : gmap string BenchResult * option string)
  : result (gmap string BenchResult * option string) :=
  let '(results, current_name) := st in
  match re_search time_pattern line, current_name with
  | Some m, Some cn =>
      if Str.truthy cn then
        (* Use the middle (median) value *)
        median_val ← float_of_str (text (group m 3));
        let unit := text (group m 4) in
        let ns := convert_to_ns median_val unit in
        Ok (<[normalize_name cn := rust_result cn ns]> results, None)
      else Ok st
  | _, _ => Ok st
  end.

(** "Try simpler format" *)
Definition match_simple (line : string)
    (st : gmap string BenchResult * option string)
  : result (gmap string BenchResult * option string) :=
  let '(results, current_name) := st in
  match re_match simple_pattern line with
  | Some m =>
      let name := text (group m 1) in
      val ← float_of_str (text (group m 2));
      let unit := text (group m 3) in
      let ns := convert_to_ns val unit in
      Ok (<[normalize_name name := rust_result name ns]> results, current_name)
  | None => Ok st
  end.

Definition parse_rust_line (st : gmap string BenchResult * option string)
    (line : string) : result (gmap string BenchResult * option string) :=
  let line := Str.strip line in
  let st := (st.1, match_name line st.2) in
  st ← match_time line st;
  match_simple line st.

(** [parse_rust_bench], as a function of the lines the opened file yields. *)
Definition parse_rust_bench (lines : list string)
  : result (gmap string BenchResult) :=
  st ← for_each parse_rust_line (∅, None) lines;
  Ok st.1.

(** ** [compare_results] *)

(** One entry of the list [compare_results] returns: the dict built in
    the loop body, with its seven keys. *)
Record comparison := {
  normalized_name : string;
  go_name : option string;
  rust_name : option string;
  go_ns : option spec_float;
  rust_ns : option spec_float;
  ratio : option spec_float;
  status : string
}.

Definition set_status (c : comparison) (s : string) : comparison :=
  {| normalized_name := normalized_name c; go_name := go_name c;
     rust_name := rust_name c; go_ns := go_ns c; rust_ns := rust_ns c;
     ratio := ratio c; status := s |}.

Definition set_ratio (c : comparison) (q : spec_float) : comparison :=
  {| normalized_name := normalized_name c; go_name := go_name c;
     rust_name := rust_name c; go_ns := go_ns c; rust_ns := rust_ns c;
     ratio := Some q; status := status c |}.

Definition zero : spec_float := float_of_Z 0.
Definition one : spec_float := float_of_ratio 10 10.      (* 1.0 *)
Definition two : spec_float := float_of_ratio 20 10.      (* 2.0 *)
Definition five : spec_float := float_of_ratio 50 10.     (* 5.0 *)

(** The status for a ratio: the [if]/[elif] chain on the thresholds. *)
Definition classify (ratio : spec_float) : string :=
  if fleb ratio one then "excellent"
  else if fleb ratio two then "good"
  else if fleb ratio five then "acceptable"
  else "needs_work".

(** The body of the loop over the sorted names. *)
Definition compare_row (go_results rust_results : gmap string BenchResult)
    (norm_name : string) : comparison :=
  let go_res := go_results !! norm_name in
  let rust_res := rust_results !! norm_name in
  let comparison :=
    {| normalized_name := norm_name;
       go_name := name <$> go_res;
       rust_name := name <$> rust_res;
       go_ns := ns_per_op <$> go_res;
       rust_ns := ns_per_op <$> rust_res;
       ratio := None;
       status := "missing_both" |} in
  match go_res, rust_res with
  | Some go_res, Some rust_res =>
      if fltb zero (ns_per_op go_res) then
        let ratio := fdiv (ns_per_op rust_res) (ns_per_op go_res) in
        set_status (set_ratio comparison ratio) (classify ratio)
      else comparison
  | Some _, None => set_status comparison "missing_rust"
  | None, Some _ => set_status comparison "missing_go"
  | None, None => comparison
  end.

(** [sorted(names)]: strings are ordered by their code points. *)
Definition sorted (names : gset string) : list string :=
  merge_sort String.le (elements names).

Definition compare_results (go_results rust_results : gmap string BenchResult)
  : list comparison :=
  let all_names := dom go_results ∪ dom rust_results in
  compare_row go_results rust_results <$> sorted all_names.

(** ** The summaries of [print_table] and of the JSON output

    The model of [print_table] keeps the counters of the loop and the numbers
    of the summary block; the text of the table is not modelled. *)

Record table_summary := {
  total_benchmarks : nat;
  matched_count : nat;
  excellent_count : nat;
  good_count : nat
}.

(** The counting part of the body of the loop over the rows. *)
Definition count_row (acc : nat * nat * nat) (comp : comparison)
  : nat * nat * nat :=
  let '(matched_count, excellent_count, good_count) := acc in
  match ratio comp with
  | Some _ =>
      if String.eqb (status comp) "excellent" then
        (S matched_count, S excellent_count, good_count)
      else if in_tuple (status comp) ["excellent"; "good"] then
        (S matched_count, excellent_count, S good_count)
      else (S matched_count, excellent_count, good_count)
  | None => acc
  end.

(** [max] over the names raises [ValueError] when there is no row. *)
Definition print_table (comparisons : list comparison) : result table_summary :=
  match comparisons with
  | [] => Raise ValueError
  | _ :: _ =>
      let '(matched_count, excellent_count, good_count) :=
        foldl count_row (0, 0, 0) comparisons in
      Ok {| total_benchmarks := length comparisons;
            matched_count := matched_count;
            excellent_count := excellent_count;
            good_count := good_count |}
  end.

(** [sum(1 for c in comparisons if p(c))] *)
Definition count_if (p : comparison → bool) (comparisons : list comparison)
  : nat :=
  length (filter (λ c, p c = true) comparisons).

Definition has_ratio (c : comparison) : bool :=
  match ratio c with Some _ => true | None => false end.

Definition status_in (tags : list string) (c : comparison) : bool :=
  in_tuple (status c) tags.

(** The ['summary'] object of the JSON output in [main]. *)
Record json_summary := {
  total : nat;
  matched : nat;
  excellent : nat;
  good : nat;
  acceptable : nat;
  needs_work : nat
}.

Definition main_json_summary (comparisons : list comparison) : json_summary :=
  {| total := length comparisons;
     matched := count_if has_ratio comparisons;
     excellent := count_if (status_in ["excellent"]) comparisons;
     good := count_if (status_in ["excellent"; "good"]) comparisons;
     acceptable :=
       count_if (status_in ["excellent"; "good"; "acceptable"]) comparisons;
     needs_work := count_if (status_in ["needs_work"]) comparisons |}.

(** [main] up to the choice of the output: both files parsed, then
    compared. *)
Definition pipeline (go_lines rust_lines : list string)
  : result (list comparison) :=
  go_results ← parse_go_bench go_lines;
  rust_results ← parse_rust_bench rust_lines;
  Ok (compare_results go_results rust_results).

(** ** Notions the properties are stated with *)

(** What a match is, without the order in which the matcher tries the
    alternatives: [matches r pos t s' caps caps'] when [r], at position
    [pos] and in front of the text [s'], can match the text [t] and turn the
    groups [caps] into [caps']. *)
Inductive matches : regex → nat → string → string →
                    gmap nat string → gmap nat string → Prop :=
| matches_lit l pos s' caps :
    matches (Lit l) pos l s' caps caps
| matches_rep g least p pos t s' caps :
    Str.all p t = true → least ≤ String.length t →
    matches (Rep g least p) pos t s' caps caps
| matches_seq r1 r2 pos t1 t2 s' caps caps1 caps2 :
    matches r1 pos t1 (t2 +:+ s') caps caps1 →
    matches r2 (pos + String.length t1) t2 s' caps1 caps2 →
    matches (Seq r1 r2) pos (t1 +:+ t2) s' caps caps2
| matches_alt_l r1 r2 pos t s' caps caps' :
    matches r1 pos t s' caps caps' → matches (Alt r1 r2) pos t s' caps caps'
| matches_alt_r r1 r2 pos t s' caps caps' :
    matches r2 pos t s' caps caps' → matches (Alt r1 r2) pos t s' caps caps'
| matches_opt_some r pos t s' caps caps' :
    matches r pos t s' caps caps' → matches (Opt r) pos t s' caps caps'
| matches_opt_none r pos s' caps :
    matches (Opt r) pos "" s' caps caps
| matches_grp n r pos t s' caps caps' :
    matches r pos t s' caps caps' →
    matches (Grp n r) pos t s' caps (<[n := t]> caps')
| matches_bol s' caps :
    matches Bol 0 "" s' caps caps
| matches_eol pos s' caps :
    s' = "" ∨ s' = String LF "" →
    matches Eol pos "" s' caps caps.

(** [s] ends in a dash and digits, at its end or in front of a last line
    feed: the texts in which [suffix_pattern] finds a match. *)
Definition ends_with_dash_digits (s : string) : Prop :=
  ∃ p d nl, s = p +:+ "-" +:+ d +:+ nl
            ∧ d ≠ "" ∧ Str.all Char.digit d = true
            ∧ (nl = "" ∨ nl = String LF "").

Definition is_not (x : ascii) (c : ascii) : bool := negb (Ascii.eqb c x).

(** What the separator and lower-case steps leave. *)
Definition normal (s : string) : Prop :=
  Str.all (is_not "_") s = true ∧ Str.all (is_not "/") s = true
  ∧ Str.no_upper s = true.

(** The longest prefix of [s] made of characters of the class [p], and the
    rest of [s]. *)
Fixpoint span (p : ascii → bool) (s : string) : string * string :=
  match s with
  | EmptyString => (EmptyString, EmptyString)
  | String c s' =>
      if p c then let '(t, r) := span p s' in (String c t, r)
      else (EmptyString, s)
  end.

(** The text of a line up to its first white space: its name, for a line
    that starts with one. *)
Definition first_token (line : string) : string :=
  (span Char.nonspace line).1.

(** The text is empty or starts with white space. *)
Definition at_space (s : string) : Prop :=
  match s with
  | EmptyString => True
  | String c _ => Char.space c = true
  end.

(** [x in s]: the text [x] occurs in [s]. *)
Fixpoint occurs (x s : string) : bool :=
  match Str.drop_prefix x s with
  | Some _ => true
  | None =>
      match s with
      | EmptyString => false
      | String _ s' => occurs x s'
      end
  end.

(** The row has a ratio and the status [tag]. *)
Definition matched_as (tag : string) (c : comparison) : bool :=
  has_ratio c && String.eqb (status c) tag.

(** ** Sample records

    Records as the parsers produce them, used to run the definitions. *)

Definition go_record (name : string) (ns : spec_float) : BenchResult :=
  {| name := name; ns_per_op := ns; bytes_per_op := Some 16%Z;
     allocs_per_op := Some 1%Z; source := "go" |}.

Definition f123 : spec_float := float_of_ratio 1230 10.   (* 123.0 *)
Definition f246 : spec_float := float_of_ratio 2460 10.   (* 246.0 *)

Definition go_foo : gmap string BenchResult :=
  {["foo" := go_record "BenchmarkFoo" f123]}.
Definition go_foo_zero : gmap string BenchResult :=
  {["foo" := go_record "BenchmarkFoo" zero]}.
Definition rust_foo : gmap string BenchResult :=
  {["foo" := rust_result "foo" f246]}.

(** The two files of the scenario of the specification, and a second file
    whose benchmark is called [foo]. *)
Definition go_file : list string :=
  ["BenchmarkFoo-8    1000000    123.0 ns/op    16 B/op    1 allocs/op"].
Definition rust_file : list string :=
  ["render_foo time: [246.0 ns 246.0 ns 246.0 ns]"].
Definition rust_file_foo : list string :=
  ["foo time: [246.0 ns 246.0 ns 246.0 ns]"].

(** A Go file whose time field has two points. *)
Definition go_file_two_points : list string :=
  ["BenchmarkFoo-8    1000000    1.2.3 ns/op"].

(** A row where Rust takes half the time of Go. *)
Definition excellent_row : comparison :=
  {| normalized_name := "foo";
     go_name := Some "BenchmarkFoo"; rust_name := Some "foo";
     go_ns := Some f246; rust_ns := Some f123;
     ratio := Some (fdiv f123 f246); status := "excellent" |}.

(** A criterion report with the name on a line of its own. *)
Definition rust_file_slash : list string :=
  ["render/foo";
   "                        time:   [1.0 ns 2.0 ns 3.0 ns]"].

(** ** Notions of the further properties *)

Definition ratio_tags : list string :=
  ["excellent"; "good"; "acceptable"; "needs_work"].

(** The number of characters of [s] in the class [p]. *)
Fixpoint count_chars (p : ascii → bool) (s : string) : nat :=
  match s with
  | EmptyString => 0
  | String c s' => (if p c then 1 else 0) + count_chars p s'
  end.

Definition is_dot (c : ascii) : bool := Ascii.eqb c ".".

(** A numeral: digits and at most one point, with at least one digit. *)
Definition numeral (s : string) : Prop :=
  Str.all Char.digit_or_dot s = true
  ∧ 1 ≤ count_chars Char.digit s
  ∧ count_chars is_dot s ≤ 1.

(** A counter of the match [m] is too long for [int]. *)
Definition long_counter (m : gmap nat string) : Prop :=
  ∃ n t, (n = 4 ∨ n = 5) ∧ group m n = Some t
         ∧ (int_max_str_digits < Z.of_nat (String.length t))%Z.

(** Positive zero, a positive number or positive infinity: not negative,
    and not a NaN. *)
Definition nonneg (x : spec_float) : bool :=
  match x with
  | S754_zero false | S754_infinity false | S754_finite false _ _ => true
  | _ => false
  end.

(** A record of [parse_go_bench] under the key [key]. *)
Definition go_record_ok (key : string) (r : BenchResult) : Prop :=
  source r = "go"
  ∧ (∃ g, name r = "Benchmark" +:+ g ∧ g ≠ "" ∧ key = normalize_name g)
  ∧ nonneg (ns_per_op r) = true
  ∧ (∀ b, bytes_per_op r = Some b → (0 ≤ b)%Z)
  ∧ (∀ a, allocs_per_op r = Some a → (0 ≤ a)%Z).

(** A record of [parse_rust_bench] under the key [key]. *)
Definition rust_record_ok (key : string) (r : BenchResult) : Prop :=
  source r = "rust"
  ∧ key = normalize_name (name r)
  ∧ name r ≠ ""
  ∧ nonneg (ns_per_op r) = true
  ∧ bytes_per_op r = None ∧ allocs_per_op r = None.

Definition rust_state_ok (st : gmap string BenchResult * option string)
  : Prop :=
  map_Forall rust_record_ok st.1 ∧ ∀ cn, st.2 = Some cn → cn ≠ "".

(** [s] without the prefix [l], or [s] itself when it has no such prefix. *)
Definition strip_prefix (l s : string) : string :=
  match Str.drop_prefix l s with
  | Some s' => s'
  | None => s
  end.

(** [normalize_name] up to its last step. *)
Definition separators_and_case (s : string) : string :=
  Str.lower
    (Str.replace "/" ""
       (Str.replace "_" ""
          (strip_prefix "bench_" (strip_prefix "Benchmark" s)))).

(** ** Formatting *)

(** [c * n] for a one-character string [c]. *)
Fixpoint repeat_char (c : ascii) (n : nat) : string :=
  match n with
  | O => EmptyString
  | S n' => String c (repeat_char c n')
  end.

(** [f"{s:<{width}}"]: [s] with spaces on its right up to [width]
    characters; a longer [s] is left as it is. *)
Definition ljust (width : nat) (s : string) : string :=
  s +:+ repeat_char " " (width - String.length s).

(** [str(n)] for an int [n >= 0]. *)
Definition str_of_N (n : N) : string := NilZero.string_of_uint (N.to_uint n).

(** [s[n:]] *)
Fixpoint drop (n : nat) (s : string) : string :=
  match n, s with
  | S n', String _ s' => drop n' s'
  | _, _ => s
  end.

(** The integer nearest to [n / d], the even one of two nearest, for
    [0 <= n] and [0 < d]. *)
Definition round_half_even (n d : Z) : Z :=
  let q := (n / d)%Z in
  match (2 * (n mod d) ?= d)%Z with
  | Lt => q
  | Gt => (q + 1)%Z
  | Eq => if Z.even q then q else (q + 1)%Z
  end.

(** The integer nearest to [m * 2^e * 10^digits]. *)
Definition scaled (digits : nat) (m : positive) (e : Z) : Z :=
  let n := (Z.pos m * 10 ^ Z.of_nat digits)%Z in
  if (0 <=? e)%Z then (n * 2 ^ e)%Z else round_half_even n (2 ^ (- e)).

(** The decimal numeral of [n / 10^digits], with [digits] places after the
    point and at least one before. *)
Definition fixed_point (digits : nat) (n : Z) : string :=
  let s := str_of_N (Z.to_N n) in
  let s := repeat_char "0" (S digits - String.length s) +:+ s in
  let whole := String.length s - digits in
  Str.take whole s +:+ "." +:+ drop whole s.

Definition sign_text (s : bool) : string := if s then "-" else "".

(** [f"{x:.1f}"] and [f"{x:.2f}"] ([digits] is 1 or 2): the decimal numeral
    with [digits] places that is nearest to the float, the even one of two
    nearest. *)
Definition format_fixed (digits : nat) (x : spec_float) : string :=
  match x with
  | S754_nan => "nan"
  | S754_infinity s => sign_text s +:+ "inf"
  | S754_zero s => sign_text s +:+ fixed_point digits 0
  | S754_finite s m e => sign_text s +:+ fixed_point digits (scaled digits m e)
  end.

(** ** [format_time] *)

Definition format_time (ns : option spec_float) : string :=
  match ns with
  | None => "N/A"
  | Some ns =>
      if fltb ns (float_of_Z 1000) then format_fixed 1 ns +:+ " ns"
      else if fltb ns (float_of_Z 1000000) then
        format_fixed 1 (fdiv ns (float_of_Z 1000)) +:+ " " +:+ micro_s
      else if fltb ns (float_of_Z 1000000000) then
        format_fixed 1 (fdiv ns (float_of_Z 1000000)) +:+ " ms"
      else format_fixed 2 (fdiv ns (float_of_Z 1000000000)) +:+ " s"
  end.

(** ** The text of [print_table] *)

(** Truth value of a float: zeros are false. *)
Definition float_truthy (x : spec_float) : bool :=
  match x with S754_zero _ => false | _ => true end.

(** [f"{comp['ratio']:.2f}x" if comp['ratio'] else "N/A"] *)
Definition ratio_text (ratio : option spec_float) : string :=
  match ratio with
  | Some r => if float_truthy r then format_fixed 2 r +:+ "x" else "N/A"
  | None => "N/A"
  end.

Definition symbols : list (string * string) :=
  [("excellent", "++"); ("good", "+"); ("acceptable", "~");
   ("needs_work", "!!"); ("missing_rust", "?R"); ("missing_go", "?G");
   ("missing_both", "??")].

(** [d.get(key, default)] *)
Fixpoint dict_get (d : list (string * string)) (key default : string)
  : string :=
  match d with
  | [] => default
  | (k, v) :: d' => if String.eqb k key then v else dict_get d' key default
  end.

(** [max(len(c['normalized_name']) for c in comparisons)], then
    [max(name_width, 20)]. *)
Definition name_width_of (comparisons : list comparison)
  : result nat :=
  match comparisons with
  | [] => Raise ValueError
  | c :: cs =>
      Ok (Nat.max
            (foldl (λ w c', Nat.max w (String.length (normalized_name c')))
               (String.length (normalized_name c)) cs)
            20)
  end.

Definition table_header (name_width : nat) : list string :=
  [ljust name_width "Benchmark" +:+ "  " +:+ ljust 12 "Go" +:+ "  "
     +:+ ljust 12 "Rust" +:+ "  " +:+ ljust 8 "Ratio" +:+ "  Status";
   repeat_char "-" (name_width + 50)].

(** The line printed for one comparison. *)
Definition table_row (name_width : nat) (comp : comparison) : string :=
  let name := Str.take name_width (normalized_name comp) in
  let go_time := format_time (go_ns comp) in
  let rust_time := format_time (rust_ns comp) in
  let ratio := ratio_text (ratio comp) in
  let status := status comp in
  let symbol := dict_get symbols status "?" in
  ljust name_width name +:+ "  " +:+ ljust 12 go_time +:+ "  "
    +:+ ljust 12 rust_time +:+ "  " +:+ ljust 8 ratio +:+ "  "
    +:+ symbol +:+ " " +:+ status.

(** The body of the loop: a line is printed, then the counters move. *)
Definition print_row (name_width : nat)
    (st : list string * (nat * nat * nat)) (comp : comparison)
  : list string * (nat * nat * nat) :=
  (st.1 ++ [table_row name_width comp], count_row st.2 comp).

Definition table_footer (comparisons : list comparison)
    (counts : nat * nat * nat) : list string :=
  let '(matched_count, excellent_count, good_count) := counts in
  [""; repeat_char "=" 60; "Summary:";
   "  Total benchmarks:    " +:+ str_of_N (N.of_nat (length comparisons));
   "  Matched (Go+Rust):   " +:+ str_of_N (N.of_nat matched_count);
   "  Excellent (<=1.0x):  " +:+ str_of_N (N.of_nat excellent_count);
   "  Good (<=2.0x):       " +:+ str_of_N (N.of_nat good_count);
   "";
   "Legend:";
   "  ++ excellent (Rust faster or equal)";
   "  +  good (Rust within 2x)";
   "  ~  acceptable (Rust within 5x)";
   "  !! needs_work (Rust >5x slower)";
   "  ?R missing Rust benchmark";
   "  ?G missing Go benchmark"].

(** The lines [print_table] writes to the standard output. *)
Definition print_table_lines (comparisons : list comparison)
  : result (list string) :=
  name_width ← name_width_of comparisons;
  let '(out, counts) :=
    foldl (print_row name_width) (table_header name_width, (0, 0, 0))
      comparisons in
  Ok (out ++ table_footer comparisons counts).

(** A decimal numeral with [digits] places after the point. *)
Definition decimal_text (digits : nat) (s : string) : Prop :=
  ∃ whole frac,
    s = whole +:+ "." +:+ frac
    ∧ whole ≠ ""
    ∧ Str.all Char.digit whole = true
    ∧ Str.all Char.digit frac = true
    ∧ String.length frac = digits.

(** The last character of a string. *)
Fixpoint last_char (s : string) : option ascii :=
  match s with
  | EmptyString => None
  | String c EmptyString => Some c
  | String _ s' => last_char s'
  end.




(** [rest] is [g] followed by a numeric suffix [-N], and [g] is not
    empty. *)
Definition suffixed (rest g : string) : Prop :=
  ∃ d, rest = g +:+ "-" +:+ d ∧ g ≠ "" ∧ d ≠ ""
       ∧ Str.all Char.digit d = true.

(** The name of the Go record of a line whose first token is [token]:
    the token without its numeric suffix [-N] when what follows [Benchmark]
    has one after some other character, and the whole token when not. *)
Definition go_name_of (token name : string) : Prop :=
  ∃ rest g, token = "Benchmark" +:+ rest ∧ name = "Benchmark" +:+ g
            ∧ (suffixed rest g
               ∨ (g = rest ∧ rest ≠ "" ∧ ¬ ∃ g', suffixed rest g')).

(** Whether a pattern matches does not depend on the groups so far. *)
Definition fails_alike {A : Type} (k k' : @cont A) : Prop :=
  ∀ pos s caps caps', k pos s caps = None → k' pos s caps' = None.

(** [go_pattern] after the name and its optional suffix. *)
Definition go_fields : regex :=
  (plus Char.space
   ⋅ Grp 2 (plus Char.digit) ⋅ plus Char.space
   ⋅ Grp 3 (plus Char.digit_or_dot) ⋅ plus Char.space ⋅ Lit "ns/op"
   ⋅ Opt (plus Char.space ⋅ Grp 4 (plus Char.digit) ⋅ plus Char.space
          ⋅ Lit "B/op")
   ⋅ Opt (plus Char.space ⋅ Grp 5 (plus Char.digit) ⋅ plus Char.space
          ⋅ Lit "allocs/op"))%re.

(** The records of the Rust parser, by the branch that stores them. *)

(** A record of the shorthand branch: the first token of a line that
    [simple_pattern] matches, as it is written, with the first number of the
    line. *)
Definition rust_shorthand_record (lines : list string) (r : BenchResult)
  : Prop :=
  ∃ line m low,
    line ∈ lines
    ∧ re_match simple_pattern (Str.strip line) = Some m
    ∧ float_of_str (text (group m 2)) = Ok low
    ∧ r = rust_result (first_token (Str.strip line))
            (convert_to_ns low (text (group m 3))).

(** A record of the interval branch: the first token of a line that
    [name_pattern] matches, with each slash replaced by an underscore, with
    the median of a line in which [time_pattern] is found. *)
Definition rust_interval_record (lines : list string) (r : BenchResult)
  : Prop :=
  ∃ name_line time_line m median,
    name_line ∈ lines ∧ time_line ∈ lines
    ∧ is_Some (re_match name_pattern (Str.strip name_line))
    ∧ re_search time_pattern (Str.strip time_line) = Some m
    ∧ float_of_str (text (group m 3)) = Ok median
    ∧ r = rust_result
            (Str.replace "/" "_" (first_token (Str.strip name_line)))
            (convert_to_ns median (text (group m 4))).

(** The invariant of the loop of [parse_rust_bench]. *)
Definition rust_state_from (lines : list string)
    (st : gmap string BenchResult * option string) : Prop :=
  map_Forall (λ _ r, rust_shorthand_record lines r
                     ∨ rust_interval_record lines r) st.1
  ∧ ∀ cn, st.2 = Some cn →
      ∃ name_line, name_line ∈ lines
        ∧ is_Some (re_match name_pattern (Str.strip name_line))
        ∧ cn = Str.replace "/" "_" (first_token (Str.strip name_line)).

(** * Properties *)

(** ** Floats *)

Lemma SFcompare_swap (x y : spec_float) :
  SFcompare y x = CompOpp <$> SFcompare x y.
Proof.
  destruct x as [sx|sx| |sx mx ex], y as [sy|sy| |sy my ey]; simpl;
    try destruct sx; try destruct sy; simpl; try reflexivity.
  - rewrite (Z.compare_antisym ey ex).
    destruct (ey ?= ex)%Z; simpl; try reflexivity.
    rewrite (Pos.compare_cont_antisym mx my Eq). reflexivity.
  - rewrite (Z.compare_antisym ey ex).
    destruct (ey ?= ex)%Z; simpl; try reflexivity.
    rewrite (Pos.compare_cont_antisym mx my Eq). reflexivity.
Qed.


Lemma fleb_not_fltb (x y : spec_float) : fleb x y = true → fltb y x = false.
Proof.
  unfold fltb, fleb, SFltb, SFleb. rewrite (SFcompare_swap x y).
  destruct (SFcompare x y) as [[]|]; simpl; congruence.
Qed.


(** ** Tuples of strings *)

Lemma in_tuple_true (x : string) (xs : list string) :
  in_tuple x xs = true ↔ x ∈ xs.
Proof.
  unfold in_tuple. induction xs as [|y xs IH]; simpl.
  - split; [discriminate | intros H; inversion H].
  - rewrite orb_true_iff, IH, String.eqb_eq, elem_of_cons. reflexivity.
Qed.


(** ** Lower case *)

Lemma Char_lower_not_upper (c : ascii) : Char.upper (Char.lower c) = false.
Proof. destruct c as [[] [] [] [] [] [] [] []]; reflexivity. Qed.

Lemma Char_lower_id (c : ascii) : Char.upper c = false → Char.lower c = c.
Proof. unfold Char.lower. intros ->. reflexivity. Qed.

Lemma lower_no_upper (s : string) : Str.no_upper (Str.lower s) = true.
Proof.
  unfold Str.no_upper. induction s as [|c s IH]; [reflexivity|].
  cbn [Str.lower Str.all]. rewrite Char_lower_not_upper. exact IH.
Qed.

Lemma lower_id (s : string) : Str.no_upper s = true → Str.lower s = s.
Proof.
  unfold Str.no_upper. induction s as [|c s IH]; [reflexivity|].
  cbn [Str.lower Str.all].
  intros [Hc Hs]%andb_true_iff. apply negb_true_iff in Hc.
  rewrite Char_lower_id, IH; auto.
Qed.


(** ** The thresholds *)

Lemma one_eq : one = S754_finite false 4503599627370496%positive (-52)%Z.
Proof. vm_compute. reflexivity. Qed.








(** ** [convert_to_ns] *)

(** ** Products that are exact *)




















(** ** [compare_results] *)

Section compare.
Context (go_results rust_results : gmap string BenchResult).

Lemma compare_row_name (norm_name : string) :
  normalized_name (compare_row go_results rust_results norm_name) = norm_name.
Proof.
  unfold compare_row.
  destruct (go_results !! norm_name), (rust_results !! norm_name);
    try destruct (fltb _ _); reflexivity.
Qed.

Lemma compare_results_names :
  normalized_name <$> compare_results go_results rust_results
  = sorted (dom go_results ∪ dom rust_results).
Proof.
  unfold compare_results. rewrite <- list_fmap_compose.
  rewrite <- (list_fmap_id (sorted _)) at 2.
  apply list_fmap_ext. intros _ k _. apply compare_row_name.
Qed.

Lemma elem_of_sorted (names : gset string) (k : string) :
  k ∈ sorted names ↔ k ∈ names.
Proof. unfold sorted. rewrite merge_sort_Permutation. apply elem_of_elements. Qed.

Lemma elem_of_compare_results (row : comparison) :
  row ∈ compare_results go_results rust_results ↔
  row = compare_row go_results rust_results (normalized_name row) ∧
  (is_Some (go_results !! normalized_name row)
   ∨ is_Some (rust_results !! normalized_name row)).
Proof.
  unfold compare_results. rewrite list_elem_of_fmap. split.
  - intros (k & -> & Hk). rewrite compare_row_name. split; [reflexivity|].
    apply elem_of_sorted, elem_of_union in Hk. rewrite !elem_of_dom in Hk. exact Hk.
  - intros [Hrow Hk]. exists (normalized_name row). split; [exact Hrow|].
    apply elem_of_sorted, elem_of_union. rewrite !elem_of_dom. exact Hk.
Qed.

Lemma compare_row_elem_of (norm_name : string) :
  is_Some (go_results !! norm_name) ∨ is_Some (rust_results !! norm_name) →
  compare_row go_results rust_results norm_name
  ∈ compare_results go_results rust_results.
Proof.
  intros Hk. apply elem_of_compare_results. rewrite compare_row_name. auto.
Qed.

(** Claim C2.  The rows of [compare_results] carry exactly the names that
    are keys of either mapping, each name once, so there are as many rows as
    names in the union of the key sets; and the names come in ascending
    order of the strings. *)
Theorem compare_results_one_row_per_name :
  let rows := compare_results go_results rust_results in
  let names := normalized_name <$> rows in
  (∀ k, k ∈ names ↔ is_Some (go_results !! k) ∨ is_Some (rust_results !! k))
  ∧ NoDup names
  ∧ length rows = size (dom go_results ∪ dom rust_results)
  ∧ StronglySorted String.le names.
Proof.
  intros rows names. unfold names, rows. rewrite compare_results_names.
  split; [|split; [|split]].
  - intros k. rewrite elem_of_sorted, elem_of_union, !elem_of_dom. reflexivity.
  - unfold sorted. rewrite merge_sort_Permutation. apply NoDup_elements.
  - rewrite <- (length_fmap normalized_name), compare_results_names.
    unfold sorted. rewrite merge_sort_Permutation. reflexivity.
  - apply StronglySorted_merge_sort; apply _.
Qed.


(** Claim C5.  For a name that both mappings have, with a Go time that is
    zero or negative, every row of that name has no ratio and the status
    [missing_both] it was created with, and still carries the names and the
    times of both records. *)
Theorem compare_results_nonpositive_baseline
    (norm_name : string) (go_res rust_res : BenchResult) :
  go_results !! norm_name = Some go_res →
  rust_results !! norm_name = Some rust_res →
  fleb (ns_per_op go_res) zero = true →
  let rows := compare_results go_results rust_results in
  (∃ row, row ∈ rows ∧ normalized_name row = norm_name)
  ∧ ∀ row, row ∈ rows → normalized_name row = norm_name →
      ratio row = None
      ∧ status row = "missing_both"
      ∧ go_name row = Some (name go_res)
      ∧ go_ns row = Some (ns_per_op go_res)
      ∧ rust_name row = Some (name rust_res)
      ∧ rust_ns row = Some (ns_per_op rust_res).
Proof.
  intros Hgo Hrust Hle%fleb_not_fltb rows. split.
  { eexists. split; [apply (compare_row_elem_of norm_name)|apply compare_row_name].
    left. rewrite Hgo. eauto. }
  intros row [Hrow _]%elem_of_compare_results Hname.
  rewrite Hname in Hrow. unfold compare_row in Hrow.
  rewrite Hgo, Hrust, Hle in Hrow. subst row. repeat split.
Qed.

End compare.


Lemma compare_results_nonpositive_baseline_witness :
  go_foo_zero !! "foo" = Some (go_record "BenchmarkFoo" zero)
  ∧ rust_foo !! "foo" = Some (rust_result "foo" f246)
  ∧ fleb zero zero = true
  ∧ ∃ row, row ∈ compare_results go_foo_zero rust_foo
      ∧ normalized_name row = "foo"
      ∧ ratio row = None ∧ status row = "missing_both".
Proof.
  assert (go_foo_zero !! "foo" = Some (go_record "BenchmarkFoo" zero)) as Hgo
    by reflexivity.
  assert (rust_foo !! "foo" = Some (rust_result "foo" f246)) as Hrust
    by reflexivity.
  assert (fleb zero zero = true) as Hle by reflexivity.
  do 3 (split; [assumption|]).
  destruct (compare_results_nonpositive_baseline go_foo_zero rust_foo
              "foo" _ _ Hgo Hrust Hle) as [(row & Hin & Hname) Hrows].
  destruct (Hrows row Hin Hname) as (Hratio & Hstatus & _).
  exists row. do 3 (split; [assumption|]). assumption.
Defined.

(** ** The scenario of the specification *)

(** Claim C7, as stated, fails: on the two files of the scenario the
    pipeline does not produce a single matched row of ratio 2.0 and status
    [good]. *)
Lemma pipeline_scenario_not_matched :
  ¬ ∃ row, pipeline go_file rust_file = Ok [row]
           ∧ ratio row = Some two ∧ status row = "good".
Proof.
  intros (row & Hrows & _). vm_compute in Hrows. discriminate Hrows.
Qed.

(** Claim C7, amended.  [normalize_name] keeps the [render] of
    [render_foo], so the two files of the scenario share no key and the
    pipeline produces two unmatched rows, [foo] with status [missing_rust]
    and [renderfoo] with status [missing_go].  When the second file names
    the benchmark [foo], the pipeline produces the one matched row of ratio
    2.0 and status [good]. *)
Theorem pipeline_scenario :
  pipeline go_file rust_file
  = Ok [ {| normalized_name := "foo";
            go_name := Some "BenchmarkFoo"; rust_name := None;
            go_ns := Some f123; rust_ns := None;
            ratio := None; status := "missing_rust" |};
         {| normalized_name := "renderfoo";
            go_name := None; rust_name := Some "render_foo";
            go_ns := None; rust_ns := Some f246;
            ratio := None; status := "missing_go" |} ]
  ∧ pipeline go_file rust_file_foo
    = Ok [ {| normalized_name := "foo";
              go_name := Some "BenchmarkFoo"; rust_name := Some "foo";
              go_ns := Some f123; rust_ns := Some f246;
              ratio := Some two; status := "good" |} ].
Proof. split; vm_compute; reflexivity. Qed.

(** ** The summary of the table *)

(** Claim C9, run on one [excellent] row, which is what [compare_results]
    returns when Rust takes half the time of Go: the table counts it as
    matched and as excellent, and its good-or-better count is 0, because the
    branch that adds to [good_count] is an [elif] of the branch for
    [excellent].  One row has a status among [excellent] and [good], and
    that is the count [good] of the JSON summary. *)
Theorem print_table_good_count_without_excellent :
  compare_results {["foo" := go_record "BenchmarkFoo" f246]}
                  {["foo" := rust_result "foo" f123]} = [excellent_row]
  ∧ print_table [excellent_row]
    = Ok {| total_benchmarks := 1; matched_count := 1;
            excellent_count := 1; good_count := 0 |}
  ∧ count_if (status_in ["excellent"; "good"]) [excellent_row] = 1
  ∧ good (main_json_summary [excellent_row]) = 1.
Proof. repeat split; vm_compute; reflexivity. Qed.

(** ** Lines that make [parse_go_bench] raise *)

(** Claim C4, run on a line whose time field is [1.2.3]: the line matches
    the pattern, whose third group takes digits and points in any number,
    [float] rejects the text of the group, and the [ValueError] leaves
    [parse_go_bench]. *)
Theorem parse_go_bench_raises :
  (∃ m, re_match go_pattern "BenchmarkFoo-8    1000000    1.2.3 ns/op" = Some m
        ∧ group m 1 = Some "Foo" ∧ group m 3 = Some "1.2.3")
  ∧ float_of_str "1.2.3" = Raise ValueError
  ∧ parse_go_bench go_file_two_points = Raise ValueError.
Proof.
  split; [|split; vm_compute; reflexivity].
  eexists. split; [vm_compute; reflexivity|]. split; reflexivity.
Qed.

(** ** Strings *)

Lemma app_nil_l (s : string) : "" +:+ s = s.
Proof. reflexivity. Qed.

Lemma app_cons (c : ascii) (s t : string) :
  String c s +:+ t = String c (s +:+ t).
Proof. reflexivity. Qed.

Lemma app_nil_r (s : string) : s +:+ "" = s.
Proof. induction s as [|c s IH]; [reflexivity|]. rewrite app_cons, IH. reflexivity. Qed.

Lemma app_assoc (s t u : string) : (s +:+ t) +:+ u = s +:+ t +:+ u.
Proof.
  induction s as [|c s IH]; [reflexivity|]. rewrite !app_cons, IH. reflexivity.
Qed.

Lemma length_app (s t : string) :
  String.length (s +:+ t) = String.length s + String.length t.
Proof.
  induction s as [|c s IH]; [reflexivity|].
  rewrite app_cons. cbn [String.length]. rewrite IH. reflexivity.
Qed.

Lemma all_app (p : ascii → bool) (s t : string) :
  Str.all p (s +:+ t) = Str.all p s && Str.all p t.
Proof.
  induction s as [|c s IH]; [reflexivity|].
  rewrite app_cons. cbn [Str.all]. rewrite IH, andb_assoc. reflexivity.
Qed.

Lemma take_app (t s : string) : Str.take (String.length t) (t +:+ s) = t.
Proof.
  induction t as [|c t IH]; [destruct s; reflexivity|].
  rewrite app_cons. cbn [String.length Str.take]. rewrite IH. reflexivity.
Qed.

Lemma drop_prefix_Some (l s s' : string) :
  Str.drop_prefix l s = Some s' ↔ s = l +:+ s'.
Proof.
  revert s. induction l as [|a l IH]; intros s.
  - cbn [Str.drop_prefix]. rewrite app_nil_l. split; congruence.
  - rewrite app_cons. destruct s as [|b s]; cbn [Str.drop_prefix].
    + split; discriminate.
    + destruct (Ascii.eqb_spec a b) as [->|Hne].
      * rewrite IH. split; congruence.
      * split; [discriminate|]. intros [= <- _]. congruence.
Qed.

Section sound.
Context {A : Type}.
Implicit Types (k : @cont A) (a : A).

Lemma rep_greedy_sound p least pos s caps k a :
  rep_greedy p least pos s caps k = Some a →
  ∃ t s', s = t +:+ s' ∧ Str.all p t = true ∧ least ≤ String.length t
          ∧ k (pos + String.length t) s' caps = Some a.
Proof.
  revert least pos. induction s as [|c s IH]; intros least pos; cbn [rep_greedy].
  - destruct least; [|discriminate]. cbn [when_zero]. intros Hk.
    exists "", "". rewrite Nat.add_0_r. auto.
  - assert (when_zero least (k pos (String c s) caps) = Some a →
            ∃ t s', String c s = t +:+ s' ∧ Str.all p t = true
                    ∧ least ≤ String.length t
                    ∧ k (pos + String.length t) s' caps = Some a) as Hzero.
    { destruct least; [|discriminate]. cbn [when_zero]. intros Hk.
      exists "", (String c s). rewrite Nat.add_0_r. auto. }
    destruct (p c) eqn:Hc; [|exact Hzero].
    destruct (rep_greedy p (pred least) (S pos) s caps k) eqn:Hrec;
      [|exact Hzero].
    intros [= ->]. apply IH in Hrec as (t & s' & -> & Ht & Hlen & Hk).
    exists (String c t), s'. rewrite app_cons. cbn [Str.all String.length].
    rewrite Hc, Ht, Nat.add_succ_r. repeat split; [lia|exact Hk].
Qed.

Lemma rep_lazy_sound p least pos s caps k a :
  rep_lazy p least pos s caps k = Some a →
  ∃ t s', s = t +:+ s' ∧ Str.all p t = true ∧ least ≤ String.length t
          ∧ k (pos + String.length t) s' caps = Some a.
Proof.
  revert least pos. induction s as [|c s IH]; intros least pos; cbn [rep_lazy].
  - destruct least; cbn [when_zero].
    + destruct (k pos "" caps) eqn:Hk; [|discriminate]. intros [= ->].
      exists "", "". rewrite Nat.add_0_r. auto.
    + discriminate.
  - destruct (when_zero least (k pos (String c s) caps)) eqn:Hzero.
    + intros [= ->]. destruct least; [|discriminate]. cbn [when_zero] in Hzero.
      exists "", (String c s). rewrite Nat.add_0_r. auto.
    + destruct (p c) eqn:Hc; [|discriminate].
      intros (t & s' & -> & Ht & Hlen & Hk)%IH.
      exists (String c t), s'. rewrite app_cons. cbn [Str.all String.length].
      rewrite Hc, Ht, Nat.add_succ_r. repeat split; [lia|exact Hk].
Qed.

Lemma rmatch_sound r pos s caps k a :
  rmatch r pos s caps k = Some a →
  ∃ t s' caps', s = t +:+ s' ∧ matches r pos t s' caps caps'
                ∧ k (pos + String.length t) s' caps' = Some a.
Proof.
  revert pos s caps k a.
  induction r as [l|g least p|r1 IH1 r2 IH2|r1 IH1 r2 IH2|r IH|n r IH| |];
    intros pos s caps k a; cbn [rmatch].
  - destruct (Str.drop_prefix l s) as [s'|] eqn:Hl; [|discriminate].
    apply drop_prefix_Some in Hl as ->. intros Hk.
    exists l, s', caps. split; [reflexivity|]. split; [constructor|exact Hk].
  - destruct g.
    + intros (t & s' & -> & Ht & Hlen & Hk)%rep_greedy_sound.
      exists t, s', caps. split; [reflexivity|]. split; [by constructor|exact Hk].
    + intros (t & s' & -> & Ht & Hlen & Hk)%rep_lazy_sound.
      exists t, s', caps. split; [reflexivity|]. split; [by constructor|exact Hk].
  - intros (t1 & s1 & caps1 & -> & Hm1 & Hk1)%IH1.
    apply IH2 in Hk1 as (t2 & s' & caps2 & -> & Hm2 & Hk).
    exists (t1 +:+ t2), s', caps2. rewrite app_assoc, length_app, Nat.add_assoc.
    split; [reflexivity|]. split; [|exact Hk]. econstructor; eassumption.
  - destruct (rmatch r1 pos s caps k) eqn:H1.
    + intros [= ->]. apply IH1 in H1 as (t & s' & caps' & -> & Hm & Hk).
      exists t, s', caps'. split; [reflexivity|]. split; [by constructor|exact Hk].
    + intros (t & s' & caps' & -> & Hm & Hk)%IH2.
      exists t, s', caps'. split; [reflexivity|].
      split; [by apply matches_alt_r|exact Hk].
  - destruct (rmatch r pos s caps k) eqn:H1.
    + intros [= ->]. apply IH in H1 as (t & s' & caps' & -> & Hm & Hk).
      exists t, s', caps'. split; [reflexivity|]. split; [by constructor|exact Hk].
    + intros Hk. exists "", s, caps. rewrite Nat.add_0_r.
      split; [reflexivity|]. split; [apply matches_opt_none|exact Hk].
  - intros (t & s' & caps' & -> & Hm & Hk)%IH.
    replace (pos + String.length t - pos) with (String.length t) in Hk by lia.
    rewrite take_app in Hk.
    exists t, s', (<[n := t]> caps'). split; [reflexivity|].
    split; [by constructor|exact Hk].
  - destruct pos; [|discriminate]. intros Hk.
    exists "", s, caps. split; [reflexivity|]. split; [constructor|exact Hk].
  - intros Hk. exists "", s, caps. rewrite Nat.add_0_r. split; [reflexivity|].
    destruct s as [|c [|c' s]]; try discriminate.
    + split; [constructor; auto|exact Hk].
    + destruct (Ascii.eqb_spec c LF) as [->|]; [|discriminate].
      split; [constructor; auto|exact Hk].
Qed.
End sound.

Lemma re_match_sound r s m :
  re_match r s = Some m → ∃ t s', s = t +:+ s' ∧ matches r 0 t s' ∅ m.
Proof.
  unfold re_match. destruct (rmatch r 0 s ∅ accept) as [f|] eqn:Hm; [|discriminate].
  intros [= <-]. apply rmatch_sound in Hm as (t & s' & caps' & -> & Hm & [= <-]).
  eauto.
Qed.

Ltac inv_matches :=
  unfold plus, star, plus_lazy in *;
  repeat match goal with
  | H : matches (Lit _) _ _ _ _ _ |- _ => inversion H; clear H; subst
  | H : matches (Rep _ _ _) _ _ _ _ _ |- _ => inversion H; clear H; subst
  | H : matches (Seq _ _) _ _ _ _ _ |- _ => inversion H; clear H; subst
  | H : matches (Alt _ _) _ _ _ _ _ |- _ => inversion H; clear H; subst
  | H : matches (Opt _) _ _ _ _ _ |- _ => inversion H; clear H; subst
  | H : matches (Grp _ _) _ _ _ _ _ |- _ => inversion H; clear H; subst
  | H : matches Bol _ _ _ _ _ |- _ => inversion H; clear H; subst
  | H : matches Eol _ _ _ _ _ |- _ => inversion H; clear H; subst
  end.

(** ** [re.sub] *)

Lemma sub_from_all (p : ascii → bool) r skip pos s :
  Str.all p s = true → Str.all p (sub_from r "" skip pos s) = true.
Proof.
  revert skip pos. induction s as [|c s IH]; intros skip pos.
  - intros _. destruct skip; cbn [sub_from]; [|reflexivity].
    destruct (rmatch r pos "" ∅ accept); reflexivity.
  - cbn [Str.all]. intros [Hc Hs]%andb_true_iff.
    destruct skip; cbn [sub_from]; [|auto].
    destruct (rmatch r pos (String c s) ∅ accept) as [f|].
    + destruct (stop f - pos); rewrite app_nil_l; cbn [Str.all];
        rewrite ?Hc, ?andb_true_l; auto.
    + cbn [Str.all]. rewrite Hc, andb_true_l. auto.
Qed.

Lemma sub_from_no_match r repl pos s :
  (∀ s1 s2, s = s1 +:+ s2 →
     rmatch r (pos + String.length s1) s2 ∅ accept = None) →
  sub_from r repl 0 pos s = s.
Proof.
  revert pos. induction s as [|c s IH]; intros pos Hno; cbn [sub_from].
  - specialize (Hno "" "" eq_refl). rewrite Nat.add_0_r in Hno.
    rewrite Hno. reflexivity.
  - pose proof (Hno "" (String c s) eq_refl) as H0.
    rewrite Nat.add_0_r in H0. rewrite H0. f_equal. apply IH.
    intros s1 s2 ->. specialize (Hno (String c s1) s2 eq_refl).
    cbn [String.length] in Hno. rewrite Nat.add_succ_r in Hno. exact Hno.
Qed.

(** An anchored literal that the text does not start with is not found. *)
Lemma re_sub_anchored_absent l repl s :
  Str.drop_prefix l s = None → re_sub (Bol ⋅ Lit l) repl s = s.
Proof.
  intros Hl. apply sub_from_no_match. intros s1 s2 ->. cbn [rmatch].
  destruct s1 as [|c s1]; cbn [String.length Nat.add]; [|reflexivity].
  rewrite app_nil_l in Hl. rewrite Hl. reflexivity.
Qed.

Lemma replace_absent old new s :
  Str.all (is_not old) s = true → Str.replace old new s = s.
Proof.
  induction s as [|c s IH]; [reflexivity|]. cbn [Str.all Str.replace].
  intros [Hc Hs]%andb_true_iff. apply negb_true_iff in Hc.
  rewrite Hc, IH; auto.
Qed.

Lemma replace_all_is_not old s :
  Str.all (is_not old) (Str.replace old "" s) = true.
Proof.
  induction s as [|c s IH]; [reflexivity|]. cbn [Str.replace].
  destruct (Ascii.eqb c old) eqn:Hc; [exact IH|].
  cbn [Str.all]. unfold is_not at 1. rewrite Hc. exact IH.
Qed.

Lemma replace_all_keeps p old s :
  Str.all p s = true → Str.all p (Str.replace old "" s) = true.
Proof.
  induction s as [|c s IH]; [reflexivity|]. cbn [Str.all Str.replace].
  intros [Hc Hs]%andb_true_iff.
  destruct (Ascii.eqb c old); [rewrite app_nil_l; auto|].
  cbn [Str.all]. rewrite Hc, andb_true_l. auto.
Qed.

(** Lower case makes no underscore and no slash. *)
Lemma is_not_lower (x c : ascii) :
  x = "_"%char ∨ x = "/"%char →
  is_not x c = true → is_not x (Char.lower c) = true.
Proof.
  intros [-> | ->]; destruct c as [[] [] [] [] [] [] [] []];
    vm_compute; congruence.
Qed.

Lemma lower_all_is_not (x : ascii) (s : string) :
  x = "_"%char ∨ x = "/"%char →
  Str.all (is_not x) s = true → Str.all (is_not x) (Str.lower s) = true.
Proof.
  intros Hx. induction s as [|c s IH]; [reflexivity|].
  cbn [Str.all Str.lower]. intros [Hc Hs]%andb_true_iff.
  rewrite (is_not_lower x c Hx Hc), andb_true_l. auto.
Qed.

(** ** [normalize_name] *)

Lemma normalize_name_normal (s : string) : normal (normalize_name s).
Proof.
  unfold normalize_name, normal.
  set (u := Str.replace "/" "" (Str.replace "_" "" _)).
  repeat split; apply sub_from_all.
  - apply lower_all_is_not; [auto|]. apply replace_all_keeps, replace_all_is_not.
  - apply lower_all_is_not; [auto|]. apply replace_all_is_not.
  - apply lower_no_upper.
Qed.

Lemma drop_prefix_all (p : ascii → bool) (l s : string) :
  Str.all p s = true → Str.all p l = false → Str.drop_prefix l s = None.
Proof.
  intros Hs Hl. destruct (Str.drop_prefix l s) as [s'|] eqn:Hd; [|reflexivity].
  apply drop_prefix_Some in Hd as ->. rewrite all_app in Hs.
  apply andb_true_iff in Hs as [Hs _]. congruence.
Qed.

(** On a normal name only the last step of [normalize_name] can act. *)
Lemma normalize_name_normal_eq (t : string) :
  normal t → normalize_name t = re_sub suffix_pattern "" t.
Proof.
  intros (Hu & Hs & Hup). unfold normalize_name.
  rewrite (re_sub_anchored_absent "Benchmark")
    by (apply (drop_prefix_all _ _ _ Hup); reflexivity).
  rewrite (re_sub_anchored_absent "bench_")
    by (apply (drop_prefix_all _ _ _ Hu); reflexivity).
  rewrite (replace_absent "_") by exact Hu.
  rewrite (replace_absent "/") by exact Hs.
  rewrite lower_id by exact Hup. reflexivity.
Qed.

Lemma normalize_name_twice (s : string) :
  normalize_name (normalize_name s)
  = re_sub suffix_pattern "" (normalize_name s).
Proof. apply normalize_name_normal_eq, normalize_name_normal. Qed.

Lemma suffix_pattern_sound pos s f :
  rmatch suffix_pattern pos s ∅ accept = Some f →
  ∃ d nl, s = "-" +:+ d +:+ nl ∧ d ≠ "" ∧ Str.all Char.digit d = true
          ∧ (nl = "" ∨ nl = String LF "").
Proof.
  intros (t & s' & caps' & -> & Hm & _)%rmatch_sound.
  unfold suffix_pattern in Hm. inv_matches.
  rewrite app_nil_r, app_assoc. eexists _, _. split; [reflexivity|].
  repeat split; try assumption.
  intros ->. cbn in *. lia.
Qed.

Lemma re_sub_suffix_absent (s : string) :
  ¬ ends_with_dash_digits s → re_sub suffix_pattern "" s = s.
Proof.
  intros Hno. apply sub_from_no_match. intros s1 s2 ->.
  destruct (rmatch _ _ s2 _ _) as [f|] eqn:Hm; [|reflexivity].
  exfalso. apply Hno.
  apply suffix_pattern_sound in Hm as (d & nl & -> & Hd & Hdigits & Hnl).
  exists s1, d, nl. auto.
Qed.

Lemma no_dash_no_suffix (s : string) :
  Str.all (is_not "-") s = true → ¬ ends_with_dash_digits s.
Proof.
  intros Hall (p & d & nl & -> & _). rewrite !all_app in Hall.
  apply andb_true_iff in Hall as [_ Hall]. discriminate Hall.
Qed.

(** Claim C3, as stated, fails: a name with two numeric suffixes loses one
    of them at each call. *)
Lemma normalize_name_not_idempotent :
  normalize_name (normalize_name "x-1-2") ≠ normalize_name "x-1-2".
Proof. vm_compute. discriminate. Qed.

(** ** Tokens *)

Lemma span_app (p : ascii → bool) (s : string) :
  s = (span p s).1 +:+ (span p s).2.
Proof.
  induction s as [|c s IH]; [reflexivity|]. cbn [span].
  destruct (p c); [|reflexivity].
  destruct (span p s) as [t r]. cbn [fst snd] in *. rewrite app_cons.
  congruence.
Qed.

Lemma span_token (x y : string) :
  Str.all Char.nonspace x = true → at_space y →
  span Char.nonspace (x +:+ y) = (x, y).
Proof.
  intros Hx Hy. induction x as [|c x IH].
  - rewrite app_nil_l. destruct y as [|c y]; [reflexivity|].
    cbn [span at_space] in *. unfold Char.nonspace. rewrite Hy. reflexivity.
  - rewrite app_cons. cbn [Str.all span] in *.
    apply andb_true_iff in Hx as [Hc Hx]. rewrite Hc, (IH Hx). reflexivity.
Qed.

Lemma first_token_app (x y : string) :
  Str.all Char.nonspace x = true → at_space y → first_token (x +:+ y) = x.
Proof. intros Hx Hy. unfold first_token. rewrite span_token; auto. Qed.

Lemma at_space_app (w s : string) :
  Str.all Char.space w = true → at_space s → at_space (w +:+ s).
Proof.
  destruct w as [|c w]; [intros _ H; exact H|].
  rewrite app_cons. cbn [Str.all at_space]. intros [Hc _]%andb_true_iff _.
  exact Hc.
Qed.

Lemma at_space_plus (w s : string) :
  Str.all Char.space w = true → 1 ≤ String.length w → at_space (w +:+ s).
Proof.
  destruct w as [|c w]; cbn [String.length]; [lia|].
  rewrite app_cons. cbn [Str.all at_space]. intros [Hc _]%andb_true_iff _.
  exact Hc.
Qed.

Lemma all_impl (p q : ascii → bool) (s : string) :
  (∀ c, p c = true → q c = true) → Str.all p s = true → Str.all q s = true.
Proof.
  intros Hpq. induction s as [|c s IH]; [reflexivity|]. cbn [Str.all].
  intros [Hc Hs]%andb_true_iff. rewrite (Hpq c Hc), IH; auto.
Qed.

Lemma digit_nonspace (c : ascii) : Char.digit c = true → Char.nonspace c = true.
Proof. destruct c as [[] [] [] [] [] [] [] []]; vm_compute; congruence. Qed.

Lemma length_nonempty (s : string) : 1 ≤ String.length s → s ≠ "".
Proof. intros Hlen ->. cbn in Hlen. lia. Qed.

(** ** The shape of the lines the patterns match *)

(** A line [simple_pattern] matches starts with the name of the first
    group, which is its first token. *)
Lemma simple_pattern_shape (l : string) (m : gmap nat string) :
  re_match simple_pattern l = Some m →
  ∃ g1, group m 1 = Some g1 ∧ g1 ≠ "" ∧ first_token l = g1.
Proof.
  intros (t & s' & -> & Hm)%re_match_sound. unfold simple_pattern in Hm.
  inv_matches.
  match goal with
  | |- context [first_token (("" +:+ ?g +:+ ?ws +:+ ?rest) +:+ ?s')] =>
      exists g;
      replace (("" +:+ g +:+ ws +:+ rest) +:+ s')
        with (g +:+ (ws +:+ rest +:+ s'))
        by (rewrite ?app_assoc, ?app_nil_l; reflexivity)
  end.
  split; [unfold group; rewrite ?lookup_insert_ne by done;
          apply lookup_insert_eq|].
  split; [apply length_nonempty; assumption|].
  apply first_token_app; [assumption|apply at_space_plus; assumption].
Qed.

Lemma eol_at_space (s : string) : s = "" ∨ s = String LF "" → at_space s.
Proof. intros [-> | ->]; reflexivity. Qed.

(** A line [name_pattern] matches starts with the name, in the first or in
    the second group, which is its first token. *)
Lemma name_pattern_shape (l : string) (m : gmap nat string) :
  re_match name_pattern l = Some m →
  ∃ g, py_or (group m 1) (group m 2) = Some g ∧ g ≠ "" ∧ first_token l = g.
Proof.
  intros (t & s' & -> & Hm)%re_match_sound. unfold name_pattern in Hm.
  inv_matches.
  - match goal with
    | |- context [first_token (("" +:+ ?g +:+ ?ws +:+ "") +:+ ?s')] =>
        exists g;
        replace (("" +:+ g +:+ ws +:+ "") +:+ s')
          with (g +:+ (ws +:+ s'))
          by (rewrite ?app_assoc, ?app_nil_l; reflexivity);
        assert (g ≠ "") as Hne
    end.
    { match goal with
      | H : 1 ≤ String.length ?a |- ?a +:+ _ ≠ "" =>
          destruct a; [cbn in H; lia|discriminate]
      end. }
    split.
    { unfold group, py_or. rewrite lookup_insert_eq.
      match goal with |- context [Str.truthy ?g] => destruct g; [done|reflexivity] end. }
    split; [exact Hne|].
    apply first_token_app.
    + rewrite !all_app. repeat (apply andb_true_iff; split);
        solve [reflexivity | assumption].
    + apply at_space_app; [assumption|apply eol_at_space; assumption].
  - match goal with
    | |- context [first_token (("" +:+ ?g +:+ ?ws +:+ ?rest) +:+ ?s')] =>
        exists g;
        replace (("" +:+ g +:+ ws +:+ rest) +:+ s')
          with (g +:+ (ws +:+ rest +:+ s'))
          by (rewrite ?app_assoc, ?app_nil_l; reflexivity);
        assert (g ≠ "") as Hne by (apply length_nonempty; assumption)
    end.
    split.
    { unfold group, py_or. rewrite lookup_insert_ne by done.
      rewrite lookup_empty, lookup_insert_eq. reflexivity. }
    split; [exact Hne|].
    apply first_token_app; [assumption|apply at_space_plus; assumption].
Qed.

(** ** Loops *)

Lemma bind_Ok {A B} (m : result A) (f : A → result B) (b : B) :
  (x ← m; f x) = Ok b ↔ ∃ a, m = Ok a ∧ f a = Ok b.
Proof.
  unfold mbind, result_bind. destruct m as [a|e].
  - split; [eauto|]. intros (a' & [= <-] & Hf). exact Hf.
  - split; [discriminate|]. intros (a' & [=] & _).
Qed.

Lemma for_each_invariant {A S} (body : S → A → result S) (I : S → Prop)
    (xs : list A) :
  (∀ acc x acc', x ∈ xs → I acc → body acc x = Ok acc' → I acc') →
  ∀ acc res, I acc → for_each body acc xs = Ok res → I res.
Proof.
  induction xs as [|x xs IH]; intros Hbody acc res Hacc; cbn [for_each].
  - intros [= <-]. exact Hacc.
  - intros (acc' & Hx & Hrest)%bind_Ok.
    apply (IH (λ a y a' Hy, Hbody a y a' (list_elem_of_further _ _ _ Hy))
              acc' res); [|exact Hrest].
    apply (Hbody acc x acc'); [apply list_elem_of_here|exact Hacc|exact Hx].
Qed.

(** ** The names the parsers store *)

(** Claim C8, as stated, fails for both parsers: the Go record of the
    line of [BenchmarkFoo-8] is named [BenchmarkFoo], which is not the name
    on that line, and the Rust record of [render/foo] is named
    [render_foo], which occurs on no line of its file. *)
Lemma display_name_not_verbatim :
  ¬ (∀ lines results key r,
       parse_go_bench lines = Ok results → results !! key = Some r →
       ∃ line, line ∈ lines ∧ first_token (Str.strip line) = name r)
  ∧ ¬ (∀ lines results key r,
         parse_rust_bench lines = Ok results → results !! key = Some r →
         ∃ line, line ∈ lines ∧ occurs (name r) line = true).
Proof.
  split.
  - intros Hclaim.
    destruct (Hclaim go_file go_foo "foo" (go_record "BenchmarkFoo" f123))
      as (line & Hline & Hname); [vm_compute; reflexivity|reflexivity|].
    apply list_elem_of_singleton in Hline as ->.
    vm_compute in Hname. discriminate Hname.
  - intros Hclaim.
    destruct (Hclaim rust_file_slash
                {["renderfoo" := rust_result "render_foo" two]}
                "renderfoo" (rust_result "render_foo" two))
      as (line & Hline & Hocc); [vm_compute; reflexivity|reflexivity|].
    unfold rust_file_slash in Hline.
    repeat (apply elem_of_cons in Hline as [-> | Hline]);
      [vm_compute in Hocc; discriminate Hocc..|inversion Hline].
Qed.

(** ** What the matcher does on a name followed by [time:] *)

Lemma span_all (p : ascii → bool) (s : string) :
  Str.all p s = true → span p s = (s, "").
Proof.
  induction s as [|c s IH]; [reflexivity|]. cbn [Str.all span].
  intros [Hc Hs]%andb_true_iff. rewrite Hc, (IH Hs). reflexivity.
Qed.

Section equations.
Context {A : Type}.
Implicit Types (k : @cont A).

Lemma rmatch_alt r1 r2 pos s caps k :
  rmatch (Alt r1 r2) pos s caps k
  = match rmatch r1 pos s caps k with
    | Some a => Some a
    | None => rmatch r2 pos s caps k
    end.
Proof. reflexivity. Qed.

(** A greedy repetition in front of something that cannot start with a
    character of its class takes the longest run of its class, and nothing
    else. *)
Lemma rep_greedy_span p least pos s caps k :
  (∀ pos c s caps, p c = true → k pos (String c s) caps = None) →
  rep_greedy p least pos s caps k
  = if least <=? String.length (span p s).1
    then k (pos + String.length (span p s).1) (span p s).2 caps
    else None.
Proof.
  intros Hk. revert least pos.
  induction s as [|c s IH]; intros least pos; cbn [rep_greedy span].
  - destruct least; cbn; rewrite ?Nat.add_0_r; reflexivity.
  - destruct (p c) eqn:Hc.
    + rewrite (Hk pos c s caps Hc), IH.
      assert (∀ o : option A,
                match o with
                | Some a => Some a
                | None => when_zero least None
                end = o) as -> by (intros [a|]; destruct least; reflexivity).
      destruct (span p s) as [t r]. cbn [fst snd String.length].
      rewrite Nat.add_succ_r. destruct least; reflexivity.
    + cbn [fst snd String.length]. rewrite Nat.add_0_r.
      destruct least; reflexivity.
Qed.

Lemma plus_space_at_nonspace pos c s caps k :
  Char.nonspace c = true →
  rep_greedy Char.space 1 pos (String c s) caps k = None.
Proof.
  unfold Char.nonspace. intros Hc%negb_true_iff. cbn [rep_greedy].
  rewrite Hc. reflexivity.
Qed.

Lemma time_at_space (c : ascii) (s : string) :
  Char.space c = true → Str.drop_prefix "time:" (String c s) = None.
Proof.
  intros Hc. cbn [Str.drop_prefix].
  destruct (Ascii.eqb_spec "t" c) as [<-|]; [discriminate Hc|reflexivity].
Qed.

(** The common start of [simple_pattern] and of the second alternative of
    [name_pattern]. *)
Lemma name_time_eq (g : nat) (l : string) k :
  rmatch (Bol ⋅ Grp g (plus Char.nonspace) ⋅ plus Char.space ⋅ Lit "time:")
         0 l ∅ k
  = let tok := first_token l in
    let ws := (span Char.space (span Char.nonspace l).2).1 in
    if (1 <=? String.length tok) && (1 <=? String.length ws) then
      match Str.drop_prefix "time:"
              (span Char.space (span Char.nonspace l).2).2 with
      | Some s3 =>
          k (String.length tok + String.length ws + 5) s3 (<[g := tok]> ∅)
      | None => None
      end
    else None.
Proof.
  unfold plus, first_token. cbn [rmatch].
  rewrite rep_greedy_span by (intros; apply plus_space_at_nonspace; assumption).
  destruct (1 <=? _) eqn:Htok; [|reflexivity]. cbn [andb Nat.add].
  rewrite rep_greedy_span.
  2:{ intros ? c s ? Hc. rewrite (time_at_space c s Hc). reflexivity. }
  destruct (1 <=? String.length (span Char.space _).1); [|reflexivity].
  destruct (Str.drop_prefix _ _); [|reflexivity].
  rewrite Nat.sub_0_r.
  assert (Str.take (String.length (span Char.nonspace l).1) l
          = (span Char.nonspace l).1) as ->
    by (rewrite (span_app Char.nonspace l) at 2; apply take_app).
  reflexivity.
Qed.
End equations.

(** A line [simple_pattern] matches is a line [name_pattern] matches, by
    its second alternative and with the same name. *)
Lemma simple_match_name (l : string) (m1 : gmap nat string) :
  re_match simple_pattern l = Some m1 →
  ∃ tok, group m1 1 = Some tok ∧ tok ≠ ""
         ∧ re_match name_pattern l = Some (<[2 := tok]> ∅).
Proof.
  intros Hsimple.
  destruct (simple_pattern_shape l m1 Hsimple) as (tok & Hg1 & Hne & Htok).
  exists tok. do 2 (split; [assumption|]).
  unfold re_match in Hsimple.
  change (rmatch simple_pattern 0 l ∅ accept)
    with (rmatch (Bol ⋅ Grp 1 (plus Char.nonspace) ⋅ plus Char.space
                  ⋅ Lit "time:") 0 l ∅
            (λ pos s caps,
               rmatch (plus Char.space ⋅ Lit "["
                       ⋅ Grp 2 (plus Char.digit_or_dot) ⋅ plus Char.space
                       ⋅ Grp 3 (plus Char.word)) pos s caps accept))
    in Hsimple.
  rewrite name_time_eq in Hsimple. cbv zeta in Hsimple.
  destruct (_ && _) eqn:Hlen; [|discriminate].
  destruct (Str.drop_prefix "time:" _) as [s3|] eqn:Htime; [|discriminate].
  clear Hsimple. unfold re_match, name_pattern. rewrite rmatch_alt.
  match goal with
  | |- context [rmatch ?r 0 l ∅ accept] =>
      destruct (rmatch r 0 l ∅ accept) as [f|] eqn:Halt1
  end.
  - exfalso. apply rmatch_sound in Halt1 as (t & s' & caps' & Hl & Hm & _).
    inv_matches. revert Htime.
    match goal with
    | |- context [("" +:+ ?g +:+ ?ws +:+ "") +:+ ?s'] =>
        replace (("" +:+ g +:+ ws +:+ "") +:+ s')
          with (g +:+ (ws +:+ s'))
          by (rewrite ?app_assoc, ?app_nil_l; reflexivity);
        rewrite (span_token g (ws +:+ s'));
        [cbn [snd]; rewrite (span_all Char.space (ws +:+ s'));
         [discriminate|]| |]
    end.
    + rewrite all_app. apply andb_true_iff. split; [assumption|].
      match goal with H : _ ∨ _ |- _ => destruct H as [-> | ->] end; reflexivity.
    + rewrite !all_app. repeat (apply andb_true_iff; split);
        solve [reflexivity | assumption].
    + apply at_space_app; [assumption|apply eol_at_space; assumption].
  - rewrite name_time_eq. cbv zeta. rewrite Hlen, Htime, Htok. reflexivity.
Qed.

(** ** The pending name of [parse_rust_bench] *)

Lemma replace_truthy (old : ascii) (new s : string) :
  Str.truthy new = true → Str.truthy s = true →
  Str.truthy (Str.replace old new s) = true.
Proof.
  destruct s as [|c s]; [discriminate|]. intros Hnew _. cbn [Str.replace].
  destruct (Ascii.eqb c old); [|reflexivity].
  destruct new; [discriminate|reflexivity].
Qed.

Lemma bind_ret {A B} (a : A) (f : A → result B) : (x ← Ok a; f x) = f a.
Proof. reflexivity. Qed.

Lemma truthy_nonempty (s : string) : s ≠ "" → Str.truthy s = true.
Proof. destruct s; [congruence|reflexivity]. Qed.

(** The pending name goes back to [None] only in the branch taken when
    [time_pattern] is found in the line. *)
Lemma pending_cleared_by_interval
    (st st' : gmap string BenchResult * option string) (line : string) :
  parse_rust_line st line = Ok st' →
  st'.2 = None →
  match_name (Str.strip line) st.2 = None
  ∨ is_Some (re_search time_pattern (Str.strip line)).
Proof.
  destruct st as [results current_name]. unfold parse_rust_line.
  cbn [fst snd].
  intros ([results1 cur1] & Htime & Hsimple)%bind_Ok Hnone.
  assert (cur1 = None) as ->.
  { unfold match_simple in Hsimple.
    destruct (re_match simple_pattern _);
      [|injection Hsimple as <-; exact Hnone].
    apply bind_Ok in Hsimple as (val & _ & [= <-]). exact Hnone. }
  unfold match_time in Htime.
  destruct (re_search time_pattern _) as [m|]; [right; eauto|].
  left. injection Htime as _ ->. reflexivity.
Qed.

(** Claim C10.  A shorthand line, which [simple_pattern] matches and in
    which [time_pattern] finds no interval, yields its record and leaves its
    name pending, in the form the pending name is always kept in (each
    slash replaced by an underscore, so the name itself when it has no
    slash); an interval line that follows and
    carries no name then yields a record under that pending name, with the
    median of the interval, and only then is the pending name cleared.  In
    general a step of the loop ends with no pending name only if it started
    with none and read none, or if [time_pattern] found an interval. *)
Theorem pending_name_survives_shorthand
    (results : gmap string BenchResult) (current_name : option string)
    (line1 line2 : string) (m1 m2 : gmap nat string)
    (val median : spec_float) :
  re_match simple_pattern (Str.strip line1) = Some m1 →
  re_search time_pattern (Str.strip line1) = None →
  float_of_str (text (group m1 2)) = Ok val →
  re_match name_pattern (Str.strip line2) = None →
  re_search time_pattern (Str.strip line2) = Some m2 →
  float_of_str (text (group m2 3)) = Ok median →
  let name1 := text (group m1 1) in
  let pending := Str.replace "/" "_" name1 in
  let results1 :=
    <[normalize_name name1 :=
        rust_result name1 (convert_to_ns val (text (group m1 3)))]> results in
  let results2 :=
    <[normalize_name pending :=
        rust_result pending (convert_to_ns median (text (group m2 4)))]>
      results1 in
  parse_rust_line (results, current_name) line1 = Ok (results1, Some pending)
  ∧ parse_rust_line (results1, Some pending) line2 = Ok (results2, None)
  ∧ for_each parse_rust_line (results, current_name) [line1; line2]
    = Ok (results2, None)
  ∧ (Str.all (is_not "/") name1 = true → pending = name1)
  ∧ ∀ st st' line,
      parse_rust_line st line = Ok st' → st'.2 = None →
      match_name (Str.strip line) st.2 = None
      ∨ is_Some (re_search time_pattern (Str.strip line)).
Proof.
  intros Hsimple1 Htime1 Hval Hname2 Htime2 Hmedian. cbv zeta.
  destruct (simple_match_name _ _ Hsimple1) as (tok & Hg1 & Hne & Hname1).
  rewrite Hg1. cbn [text default].
  set (pending := Str.replace "/" "_" tok).
  set (results1 :=
         <[normalize_name tok :=
             rust_result tok (convert_to_ns val (text (group m1 3)))]>
           results).
  set (results2 :=
         <[normalize_name pending :=
             rust_result pending (convert_to_ns median (text (group m2 4)))]>
           results1).
  assert (parse_rust_line (results, current_name) line1
          = Ok (results1, Some pending)) as Hstep1.
  { unfold parse_rust_line, match_name. cbn [fst snd]. rewrite Hname1.
    unfold group. rewrite lookup_insert_ne by done.
    rewrite lookup_empty, lookup_insert_eq. cbn [py_or].
    rewrite (truthy_nonempty tok Hne).
    unfold match_time. rewrite Htime1, bind_ret.
    unfold match_simple. rewrite Hsimple1, Hval, bind_ret.
    fold (group m1 1). rewrite Hg1. reflexivity. }
  assert (parse_rust_line (results1, Some pending) line2
          = Ok (results2, None)) as Hstep2.
  { unfold parse_rust_line, match_name. cbn [fst snd]. rewrite Hname2.
    unfold match_time. rewrite Htime2.
    assert (Str.truthy pending = true) as ->
      by (apply replace_truthy; [reflexivity|apply truthy_nonempty, Hne]).
    rewrite Hmedian, !bind_ret. unfold match_simple.
    destruct (re_match simple_pattern (Str.strip line2)) as [m|] eqn:Hs2;
      [|reflexivity].
    apply simple_match_name in Hs2 as (? & _ & _ & Hn). congruence. }
  split; [exact Hstep1|]. split; [exact Hstep2|].
  split; [|split; [apply replace_absent
                  |intros st st' line; apply pending_cleared_by_interval]].
  cbn [for_each]. rewrite Hstep1, bind_ret, Hstep2. reflexivity.
Qed.

Lemma pending_name_survives_shorthand_witness :
  let line1 := "render/foo time: [1.0 ns" in
  let line2 := "time: [2.0 ns 3.0 us 4.0 ns]" in
  (∃ m1, re_match simple_pattern (Str.strip line1) = Some m1)
  ∧ re_search time_pattern (Str.strip line1) = None
  ∧ re_match name_pattern (Str.strip line2) = None
  ∧ (∃ m2, re_search time_pattern (Str.strip line2) = Some m2)
  ∧ ∃ ns1 ns2,
      for_each parse_rust_line (∅, None) [line1; line2]
      = Ok (<[normalize_name "render_foo" := rust_result "render_foo" ns2]>
              (<[normalize_name "render/foo" := rust_result "render/foo" ns1]>
                 ∅), None).
Proof.
  intros line1 line2.
  destruct (re_match simple_pattern (Str.strip line1)) as [m1|] eqn:Hs1;
    [|vm_compute in Hs1; discriminate Hs1].
  destruct (re_search time_pattern (Str.strip line2)) as [m2|] eqn:Ht2;
    [|vm_compute in Ht2; discriminate Ht2].
  assert (re_search time_pattern (Str.strip line1) = None) as Ht1
    by (vm_compute; reflexivity).
  assert (re_match name_pattern (Str.strip line2) = None) as Hn2
    by (vm_compute; reflexivity).
  destruct (float_of_str (text (group m1 2))) as [val|] eqn:Hval.
  2:{ vm_compute in Hs1. injection Hs1 as <-. vm_compute in Hval.
      discriminate Hval. }
  destruct (float_of_str (text (group m2 3))) as [median|] eqn:Hmed.
  2:{ vm_compute in Ht2. injection Ht2 as <-. vm_compute in Hmed.
      discriminate Hmed. }
  split; [eauto|]. do 2 (split; [assumption|]). split; [eauto|].
  destruct (pending_name_survives_shorthand ∅ None line1 line2 m1 m2
              val median Hs1 Ht1 Hval Hn2 Ht2 Hmed) as (_ & _ & Hboth & _).
  assert (text (group m1 1) = "render/foo") as Hname.
  { vm_compute in Hs1. injection Hs1 as <-. reflexivity. }
  rewrite Hname in Hboth. eexists _, _. exact Hboth.
Defined.

(** ** What [parse_go_line] does with a line *)

(** The counters [go_pattern] captures are numerals. *)
Lemma go_pattern_counters (l : string) (m : gmap nat string) (n : nat) (t : string) :
  re_match go_pattern l = Some m → n = 4 ∨ n = 5 → group m n = Some t →
  Str.truthy t && Str.all Char.digit t = true.
Proof.
  intros (t0 & s' & -> & Hm)%re_match_sound Hn. unfold go_pattern in Hm.
  inv_matches; unfold group; destruct Hn as [-> | ->]; intros Ht;
    simplify_map_eq;
    (apply andb_true_iff; split; [|assumption]);
    apply truthy_nonempty, length_nonempty; assumption.
Qed.

Lemma int_if_counter (l : string) (m : gmap nat string) (n : nat) :
  re_match go_pattern l = Some m → n = 4 ∨ n = 5 →
  match group m n with
  | Some t =>
      if (Z.of_nat (String.length t) <=? int_max_str_digits)%Z
      then ∃ v, int_if (Some t) = Ok v
      else int_if (Some t) = Raise ValueError
  | None => int_if None = Ok None
  end.
Proof.
  intros Hm Hn.
  destruct (group m n) as [t|] eqn:Ht; [|reflexivity].
  pose proof (go_pattern_counters l m n t Hm Hn Ht) as Hnum.
  unfold int_if, int_of_str. rewrite Hnum.
  apply andb_true_iff in Hnum as [-> _]. cbn [andb].
  destruct (Z.of_nat (String.length t) <=? int_max_str_digits)%Z;
    [rewrite bind_ret; eauto|reflexivity].
Qed.

(** ** What [print_table] counts *)

Lemma count_if_cons (p : comparison → bool) (c : comparison)
    (comparisons : list comparison) :
  count_if p (c :: comparisons)
  = (if p c then 1 else 0) + count_if p comparisons.
Proof.
  unfold count_if. rewrite filter_cons.
  destruct (decide (p c = true)) as [-> | Hp]; [reflexivity|].
  apply not_true_is_false in Hp. rewrite Hp. reflexivity.
Qed.

Lemma triple_eq (a b c a' b' c' : nat) :
  a = a' → b = b' → c = c' → (a, b, c) = (a', b', c').
Proof. intros -> -> ->. reflexivity. Qed.

Lemma count_row_eq (c : comparison) (m e g : nat) :
  count_row (m, e, g) c
  = (m + (if has_ratio c then 1 else 0),
     e + (if matched_as "excellent" c then 1 else 0),
     g + (if matched_as "good" c then 1 else 0)).
Proof.
  unfold count_row, matched_as, has_ratio, in_tuple. cbn [existsb].
  destruct (ratio c); cbn [andb]; [|apply triple_eq; lia].
  destruct (String.eqb_spec (status c) "excellent") as [Hs|Hs].
  - rewrite Hs.
    change ("excellent" =? "excellent")%string with true.
    change ("excellent" =? "good")%string with false.
    apply triple_eq; lia.
  - rewrite orb_false_r. destruct (status c =? "good")%string;
      apply triple_eq; lia.
Qed.

Lemma count_rows (comparisons : list comparison) (m e g : nat) :
  foldl count_row (m, e, g) comparisons
  = (m + count_if has_ratio comparisons,
     e + count_if (matched_as "excellent") comparisons,
     g + count_if (matched_as "good") comparisons).
Proof.
  revert m e g. induction comparisons as [|c comparisons IH]; intros m e g.
  - cbn [foldl]. apply triple_eq; unfold count_if; cbn; lia.
  - cbn [foldl]. rewrite count_row_eq, IH, !count_if_cons.
    apply triple_eq; lia.
Qed.

(** The counts of the summary block: the rows with a ratio, those of them
    with status [excellent], and those of them with status [good]. *)
Lemma print_table_counts (c : comparison) (comparisons : list comparison) :
  print_table (c :: comparisons)
  = Ok {| total_benchmarks := length (c :: comparisons);
          matched_count := count_if has_ratio (c :: comparisons);
          excellent_count := count_if (matched_as "excellent") (c :: comparisons);
          good_count := count_if (matched_as "good") (c :: comparisons) |}.
Proof.
  unfold print_table. rewrite count_rows. reflexivity.
Qed.

(** * Further properties *)

(** ** More on [compare_results] *)

Ltac in_list :=
  repeat first [apply list_elem_of_here | apply list_elem_of_further].

Ltac not_in_list H :=
  repeat (apply elem_of_cons in H as [H|H]; [discriminate H|]);
  inversion H.

Lemma classify_tag (q : spec_float) : classify q ∈ ratio_tags.
Proof.
  unfold classify, ratio_tags.
  destruct (fleb q one); [in_list|].
  destruct (fleb q two); [in_list|].
  destruct (fleb q five); in_list.
Qed.

Section compare_more.
Context (go_results rust_results : gmap string BenchResult).

(** A name that only one of the two dicts has gives a row with that side's
    display name and time, the fields of the other side and the ratio empty:
    status [missing_rust] when only Go has it, [missing_go] when only Rust
    has it. *)
Theorem compare_results_one_side (row : comparison) :
  row ∈ compare_results go_results rust_results →
  let k := normalized_name row in
  (rust_results !! k = None →
   ∃ go_res, go_results !! k = Some go_res
     ∧ row = {| normalized_name := k;
                go_name := Some (name go_res); rust_name := None;
                go_ns := Some (ns_per_op go_res); rust_ns := None;
                ratio := None; status := "missing_rust" |})
  ∧ (go_results !! k = None →
     ∃ rust_res, rust_results !! k = Some rust_res
       ∧ row = {| normalized_name := k;
                  go_name := None; rust_name := Some (name rust_res);
                  go_ns := None; rust_ns := Some (ns_per_op rust_res);
                  ratio := None; status := "missing_go" |}).
Proof.
  intros [Hrow Hk]%elem_of_compare_results k. fold k in Hrow, Hk.
  unfold compare_row in Hrow. split; intros Hnone; rewrite Hnone in *.
  - destruct Hk as [[g Hg]|[? [=]]]. rewrite Hg in Hrow. eauto.
  - destruct Hk as [[? [=]]|[r Hr]]. rewrite Hr in Hrow. eauto.
Qed.

(** A row carries a ratio exactly when its status is one of [excellent],
    [good], [acceptable], [needs_work], and exactly when both dicts have the
    name and the Go time is positive; the ratio is then the Rust time divided
    by the Go time.  No status other than these four, [missing_rust],
    [missing_go] and [missing_both] is ever produced. *)
Theorem compare_results_status_ratio (row : comparison) :
  row ∈ compare_results go_results rust_results →
  (is_Some (ratio row) ↔ status row ∈ ratio_tags)
  ∧ (is_Some (ratio row) ↔
     ∃ go_res rust_res,
       go_results !! normalized_name row = Some go_res
       ∧ rust_results !! normalized_name row = Some rust_res
       ∧ fltb zero (ns_per_op go_res) = true
       ∧ ratio row = Some (fdiv (ns_per_op rust_res) (ns_per_op go_res)))
  ∧ status row ∈ ratio_tags ++ ["missing_rust"; "missing_go"; "missing_both"].
Proof.
  intros [Hrow Hk]%elem_of_compare_results.
  set (k := normalized_name row) in *. unfold compare_row in Hrow.
  assert (∀ t, t ∈ ["missing_rust"; "missing_go"; "missing_both"] →
            ¬ t ∈ ratio_tags) as Hmissing.
  { intros t Ht Hin. unfold ratio_tags in Hin.
    repeat (apply elem_of_cons in Ht as [->|Ht]); [not_in_list Hin..|].
    inversion Ht. }
  destruct (go_results !! k) as [g|] eqn:Hg,
           (rust_results !! k) as [r|] eqn:Hr.
  - destruct (fltb zero (ns_per_op g)) eqn:Hpos; rewrite Hrow;
      cbn [ratio status set_status set_ratio].
    + pose proof (classify_tag (fdiv (ns_per_op r) (ns_per_op g))) as Ht.
      split; [split; eauto|].
      split; [|apply elem_of_app; left; exact Ht].
      split; [|eauto]. intros _. exists g, r. auto.
    + split; [split; [intros [? [=]]|intros Hin; exfalso;
                      apply (Hmissing "missing_both"); [in_list|exact Hin]]|].
      split; [|apply elem_of_app; right; in_list]. split; [intros [? [=]]|].
      intros (g' & r' & [= <-] & _ & Hpos' & _). congruence.
  - rewrite Hrow. cbn [ratio status set_status].
    split; [split; [intros [? [=]]|intros Hin; exfalso;
                    apply (Hmissing "missing_rust"); [in_list|exact Hin]]|].
    split; [|apply elem_of_app; right; in_list]. split; [intros [? [=]]|].
    intros (g' & r' & _ & [=] & _).
  - rewrite Hrow. cbn [ratio status set_status].
    split; [split; [intros [? [=]]|intros Hin; exfalso;
                    apply (Hmissing "missing_go"); [in_list|exact Hin]]|].
    split; [|apply elem_of_app; right; in_list]. split; [intros [? [=]]|].
    intros (g' & r' & [=] & _).
  - destruct Hk as [[? [=]]|[? [=]]].
Qed.
End compare_more.

(** ** Counting rows *)

Lemma count_if_nil (p : comparison → bool) : count_if p [] = 0.
Proof. reflexivity. Qed.

Lemma count_if_split (p q r : comparison → bool) (l : list comparison) :
  (∀ c, c ∈ l → p c = q c || r c) →
  (∀ c, c ∈ l → q c && r c = false) →
  count_if p l = count_if q l + count_if r l.
Proof.
  induction l as [|c l IH]; intros Hp Hqr; [reflexivity|].
  rewrite !count_if_cons, IH.
  - pose proof (Hp c (list_elem_of_here _ _)) as Hc.
    pose proof (Hqr c (list_elem_of_here _ _)) as Hc'.
    rewrite Hc. destruct (q c), (r c); cbn in *; try discriminate; lia.
  - intros c' Hc'. apply Hp, list_elem_of_further, Hc'.
  - intros c' Hc'. apply Hqr, list_elem_of_further, Hc'.
Qed.

Lemma count_if_ext (p q : comparison → bool) (l : list comparison) :
  (∀ c, c ∈ l → p c = q c) → count_if p l = count_if q l.
Proof.
  induction l as [|c l IH]; intros Hpq; [reflexivity|].
  rewrite !count_if_cons, IH, (Hpq c (list_elem_of_here _ _));
    [reflexivity|].
  intros c' Hc'. apply Hpq, list_elem_of_further, Hc'.
Qed.

Lemma count_if_le (p q : comparison → bool) (l : list comparison) :
  (∀ c, p c = true → q c = true) → count_if p l ≤ count_if q l.
Proof.
  intros Hpq. induction l as [|c l IH]; [reflexivity|].
  rewrite !count_if_cons. specialize (Hpq c).
  destruct (p c), (q c); [lia| |lia|lia].
  discriminate (Hpq eq_refl).
Qed.

Lemma count_if_length (p : comparison → bool) (l : list comparison) :
  count_if p l ≤ length l.
Proof.
  induction l as [|c l IH]; [reflexivity|].
  rewrite count_if_cons. cbn [length]. destruct (p c); lia.
Qed.

Lemma in_tuple_mono (x : string) (xs ys : list string) :
  xs ⊆ ys → in_tuple x xs = true → in_tuple x ys = true.
Proof. rewrite !in_tuple_true. intros Hsub Hx. apply Hsub, Hx. Qed.

Section rows.
Context (go_results rust_results : gmap string BenchResult).

(** A row has a ratio exactly when its status is one of the four tags of
    a ratio. *)
Lemma row_has_ratio (row : comparison) :
  row ∈ compare_results go_results rust_results →
  has_ratio row = status_in ratio_tags row.
Proof.
  intros [Hrow _]%elem_of_compare_results. unfold compare_row in Hrow.
  unfold has_ratio, status_in.
  destruct (go_results !! _) as [g|], (rust_results !! _) as [r|];
    try (rewrite Hrow; reflexivity).
  destruct (fltb zero (ns_per_op g)); rewrite Hrow; [|reflexivity].
  cbn [ratio status set_status set_ratio]. symmetry.
  apply in_tuple_true, classify_tag.
Qed.

Lemma compare_results_length :
  length (compare_results go_results rust_results)
  = size (dom go_results ∪ dom rust_results).
Proof.
  rewrite <- (length_fmap normalized_name), compare_results_names.
  unfold sorted. rewrite merge_sort_Permutation. reflexivity.
Qed.

Lemma compare_results_nil :
  compare_results go_results rust_results = []
  ↔ go_results = ∅ ∧ rust_results = ∅.
Proof.
  rewrite <- length_zero_iff_nil, compare_results_length, size_empty_iff.
  rewrite <- !dom_empty_iff_L. unfold_leibniz. 
  rewrite empty_union. reflexivity.
Qed.

(** [print_table] takes the [max] of the name lengths first, so on the rows
    of [compare_results] it raises [ValueError] exactly when neither dict has
    a record; otherwise the total it prints is the number of distinct
    normalized names, which is positive. *)
Theorem print_table_raises_on_no_benchmark :
  (print_table (compare_results go_results rust_results) = Raise ValueError
   ↔ go_results = ∅ ∧ rust_results = ∅)
  ∧ ∀ summary,
      print_table (compare_results go_results rust_results) = Ok summary →
      total_benchmarks summary = size (dom go_results ∪ dom rust_results)
      ∧ 0 < total_benchmarks summary.
Proof.
  rewrite <- compare_results_nil, <- compare_results_length.
  destruct (compare_results go_results rust_results) as [|c rows].
  - split; [split; reflexivity || auto|]. discriminate.
  - rewrite print_table_counts.
    split; [split; [discriminate|intros [=]]|].
    intros summary [= <-]. cbn. lia.
Qed.

(** The ['summary'] object of the JSON output: [total] is the number of
    distinct normalized names, the matched rows are the acceptable ones and
    the [needs_work] ones, and the counters are cumulative:
    excellent ≤ good ≤ acceptable ≤ matched ≤ total. *)
Theorem main_json_summary_counts :
  let s := main_json_summary (compare_results go_results rust_results) in
  total s = size (dom go_results ∪ dom rust_results)
  ∧ matched s = acceptable s + needs_work s
  ∧ excellent s ≤ good s ∧ good s ≤ acceptable s ∧ matched s ≤ total s.
Proof.
  cbn [main_json_summary total matched excellent good acceptable needs_work].
  split; [apply compare_results_length|]. split; [|split; [|split]].
  - apply count_if_split.
    + intros c Hc. rewrite (row_has_ratio c Hc).
      unfold status_in, ratio_tags, in_tuple. cbn [existsb].
      rewrite !orb_false_r, !orb_assoc. reflexivity.
    + intros c _. unfold status_in, in_tuple. cbn [existsb].
      rewrite !orb_false_r.
      destruct (String.eqb_spec (status c) "needs_work") as [->|];
        [reflexivity|apply andb_false_r].
  - apply count_if_le. intros c. unfold status_in.
    apply in_tuple_mono. intros t Ht. apply list_elem_of_In in Ht. 
    apply list_elem_of_In. cbn in *. tauto.
  - apply count_if_le. intros c. unfold status_in.
    apply in_tuple_mono. intros t Ht. apply list_elem_of_In in Ht. 
    apply list_elem_of_In. cbn in *. tauto.
  - apply count_if_length.
Qed.

(** The table and the JSON summary of the same comparison agree on the total
    and on the matched and excellent counts, but not on [good]: the JSON
    counter includes the excellent rows, the table's does not. *)
Theorem print_table_and_json_summary (table : table_summary) :
  print_table (compare_results go_results rust_results) = Ok table →
  let s := main_json_summary (compare_results go_results rust_results) in
  total_benchmarks table = total s
  ∧ matched_count table = matched s
  ∧ excellent_count table = excellent s
  ∧ good_count table + excellent_count table = good s.
Proof.
  pose proof row_has_ratio as Hrow.
  destruct (compare_results go_results rust_results) as [|c rows];
    [discriminate|].
  rewrite print_table_counts. intros [= <-].
  cbn [main_json_summary total matched excellent good total_benchmarks
       matched_count excellent_count good_count].
  assert (∀ tag, tag ∈ ratio_tags → ∀ c', c' ∈ c :: rows →
            matched_as tag c' = status_in [tag] c') as Htag.
  { intros tag Htag c' Hc'. unfold matched_as. rewrite (Hrow c' Hc').
    unfold status_in. change (in_tuple (status c') [tag])
      with ((status c' =? tag)%string || false).
    rewrite orb_false_r.
    destruct (String.eqb_spec (status c') tag) as [Heq|];
      [|apply andb_false_r].
    rewrite andb_true_r, Heq. apply in_tuple_true, Htag. }
  assert (count_if (matched_as "excellent") (c :: rows)
          = count_if (status_in ["excellent"]) (c :: rows)) as He.
  { apply count_if_ext. intros c' Hc'. apply Htag; [in_list|exact Hc']. }
  split; [reflexivity|]. split; [reflexivity|]. split; [exact He|].
  rewrite He. symmetry. rewrite Nat.add_comm. apply count_if_split.
  - intros c' Hc'. unfold status_in at 1 2, in_tuple. cbn [existsb].
    rewrite !orb_false_r. f_equal. symmetry.
    rewrite (Htag "good"); [|in_list|exact Hc'].
    unfold status_in, in_tuple. cbn [existsb]. apply orb_false_r.
  - intros c' Hc'. rewrite (Htag "good"); [|in_list|exact Hc'].
    unfold status_in, in_tuple. cbn [existsb]. rewrite !orb_false_r.
    destruct (String.eqb_spec (status c') "excellent") as [->|];
      reflexivity.
Qed.
End rows.

(** ** Loops over the lines of a file *)

Lemma for_each_app {A S} (body : S → A → result S) (acc : S)
    (xs ys : list A) :
  for_each body acc (xs ++ ys)
  = (acc' ← for_each body acc xs; for_each body acc' ys).
Proof.
  revert acc. induction xs as [|x xs IH]; intros acc; [reflexivity|].
  cbn [for_each app]. destruct (body acc x) as [acc'|e]; [|reflexivity].
  rewrite !bind_ret. apply IH.
Qed.

(** ** The numerals [float] accepts *)

Lemma digit_or_dot_cases (c : ascii) :
  Char.digit_or_dot c = Char.digit c || is_dot c.
Proof. destruct c as [[] [] [] [] [] [] [] []]; reflexivity. Qed.

Lemma digit_not_dot (c : ascii) : Char.digit c = true → is_dot c = false.
Proof. destruct c as [[] [] [] [] [] [] [] []]; vm_compute; congruence. Qed.

Lemma decimal_Ok (s : string) (dot : bool) (acc : Z) (count frac : nat) :
  (∃ v, decimal s dot acc count frac = Ok v)
  ↔ Str.all Char.digit_or_dot s = true
    ∧ 1 ≤ count + count_chars Char.digit s
    ∧ count_chars is_dot s + (if dot then 1 else 0) ≤ 1.
Proof.
  revert dot acc count frac.
  induction s as [|c s IH]; intros dot acc count frac;
    cbn [decimal Str.all count_chars].
  - destruct count as [|n].
    + split; [intros [v [=]]|intros (_ & H & _); lia].
    + split; [|eauto]. intros _. split; [reflexivity|].
      split; [lia|destruct dot; lia].
  - rewrite digit_or_dot_cases. fold (is_dot c).
    destruct (Char.digit c) eqn:Hd.
    + rewrite (digit_not_dot c Hd), IH. cbn [orb andb]. 
      split; intros (? & ? & ?); repeat split; auto; lia.
    + cbn [orb]. destruct (is_dot c); cbn [andb].
      * destruct dot.
        -- split; [intros [v [=]]|intros (_ & _ & ?); lia].
        -- rewrite IH. split; intros (? & ? & ?); repeat split; auto; lia.
      * split; [intros [v [=]]|intros ([=] & _)].
Qed.

Lemma float_of_str_Ok (s : string) :
  (∃ x, float_of_str s = Ok x) ↔ numeral s.
Proof.
  unfold float_of_str, numeral.
  rewrite <- (Nat.add_0_l (count_chars Char.digit s)).
  rewrite <- (Nat.add_0_r (count_chars is_dot s)).
  rewrite <- (decimal_Ok s false 0 0 0).
  destruct (decimal s false 0 0 0) as [[m frac]|e].
  - rewrite bind_ret. split; eauto.
  - split; intros [x [=]].
Qed.

Lemma float_of_str_Raise (s : string) :
  float_of_str s = Raise ValueError ↔ ¬ numeral s.
Proof.
  rewrite <- float_of_str_Ok. destruct (float_of_str s) as [x|[]].
  - split; [discriminate|]. intros H. exfalso. eauto.
  - split; [|reflexivity]. intros _ [x [=]].
Qed.

(** ** [parse_go_bench] on whole files *)

Lemma parse_go_line_skip (results : gmap string BenchResult) (line : string) :
  re_match go_pattern (Str.strip line) = None →
  parse_go_line results line = Ok results.
Proof. intros Hno. unfold parse_go_line. rewrite Hno. reflexivity. Qed.

(** A line that [go_pattern] does not match has no effect on
    [parse_go_bench], wherever it stands in the file and whatever the other
    lines do (records or exception). *)
Theorem parse_go_bench_skips_line (before after : list string) (line : string) :
  re_match go_pattern (Str.strip line) = None →
  parse_go_bench (before ++ line :: after) = parse_go_bench (before ++ after).
Proof.
  intros Hno. unfold parse_go_bench. rewrite !for_each_app.
  destruct (for_each parse_go_line ∅ before) as [results|e]; [|reflexivity].
  rewrite !bind_ret. cbn [for_each].
  rewrite (parse_go_line_skip results line Hno), bind_ret. reflexivity.
Qed.

Lemma int_if_fits (l : string) (m : gmap nat string) (n : nat) :
  re_match go_pattern l = Some m → n = 4 ∨ n = 5 → ¬ long_counter m →
  ∃ v, int_if (group m n) = Ok v.
Proof.
  intros Hm Hn Hfit. pose proof (int_if_counter l m n Hm Hn) as Hcase.
  destruct (group m n) as [t|] eqn:Ht; [|eauto].
  destruct (Z.leb_spec (Z.of_nat (String.length t)) int_max_str_digits)
    as [_|Hlong]; [exact Hcase|].
  destruct Hfit. exists n, t. auto.
Qed.

Lemma int_if_long (l : string) (m : gmap nat string) :
  re_match go_pattern l = Some m → long_counter m →
  int_if (group m 4) = Raise ValueError
  ∨ int_if (group m 5) = Raise ValueError.
Proof.
  intros Hm (n & t & Hn & Ht & Hlong).
  pose proof (int_if_counter l m n Hm Hn) as Hcase. rewrite Ht in Hcase.
  destruct (Z.leb_spec (Z.of_nat (String.length t)) int_max_str_digits)
    as [Hle|_]; [lia|].
  destruct Hn as [-> | ->]; rewrite Ht; auto.
Qed.

(** A matching line with a readable time and counters that [int] converts
    stores its record under the normalized name, replacing an earlier record
    of that key and leaving all other keys as they were: the last line of a
    key wins. *)
Theorem parse_go_bench_last_line
    (lines : list string) (results : gmap string BenchResult)
    (line : string) (m : gmap nat string) (ns : spec_float) :
  parse_go_bench lines = Ok results →
  re_match go_pattern (Str.strip line) = Some m →
  float_of_str (text (group m 3)) = Ok ns →
  ¬ long_counter m →
  ∃ bytes_op allocs_op,
    let key := normalize_name (text (group m 1)) in
    let record := {| name := "Benchmark" +:+ text (group m 1);
                     ns_per_op := ns;
                     bytes_per_op := bytes_op;
                     allocs_per_op := allocs_op;
                     source := "go" |} in
    int_if (group m 4) = Ok bytes_op
    ∧ int_if (group m 5) = Ok allocs_op
    ∧ parse_go_bench (lines ++ [line]) = Ok (<[key := record]> results)
    ∧ ∀ results', parse_go_bench (lines ++ [line]) = Ok results' →
        results' !! key = Some record
        ∧ ∀ k, k ≠ key → results' !! k = results !! k.
Proof.
  intros Hlines Hm Hns Hfit.
  destruct (int_if_fits _ m 4 Hm) as [b Hb]; [auto|exact Hfit|].
  destruct (int_if_fits _ m 5 Hm) as [a Ha]; [auto|exact Hfit|].
  exists b, a. cbv zeta. do 2 (split; [assumption|]).
  assert (parse_go_bench (lines ++ [line])
          = Ok (<[normalize_name (text (group m 1)) :=
                    {| name := "Benchmark" +:+ text (group m 1);
                       ns_per_op := ns; bytes_per_op := b;
                       allocs_per_op := a; source := "go" |}]> results))
    as Heq.
  { unfold parse_go_bench in *. rewrite for_each_app, Hlines, bind_ret.
    cbn [for_each]. unfold parse_go_line.
    rewrite Hm, Hns, bind_ret, Hb, bind_ret, Ha, !bind_ret. reflexivity. }
  split; [exact Heq|]. rewrite Heq. intros results' [= <-].
  split; [apply lookup_insert_eq|].
  intros k Hk. apply lookup_insert_ne. congruence.
Qed.

(** [parse_go_line] raises, whatever the dict, exactly on the matching lines
    whose time field [float] rejects or with a counter [int] rejects. *)
Lemma parse_go_line_Raise (results : gmap string BenchResult) (line : string) :
  parse_go_line results line = Raise ValueError
  ↔ ∃ m, re_match go_pattern (Str.strip line) = Some m
         ∧ (float_of_str (text (group m 3)) = Raise ValueError
            ∨ long_counter m).
Proof.
  unfold parse_go_line.
  destruct (re_match go_pattern (Str.strip line)) as [m|] eqn:Hm.
  2:{ split; [discriminate|]. intros (m & [=] & _). }
  destruct (float_of_str (text (group m 3))) as [ns|[]] eqn:Hf.
  2:{ split; [eauto|reflexivity]. }
  rewrite bind_ret. split.
  - intros Hraise. exists m. split; [reflexivity|]. right.
    pose proof (int_if_counter _ m 4 Hm (or_introl eq_refl)) as H4.
    pose proof (int_if_counter _ m 5 Hm (or_intror eq_refl)) as H5.
    destruct (group m 4) as [t4|] eqn:Ht4, (group m 5) as [t5|] eqn:Ht5;
      repeat match goal with
      | H : context [(Z.of_nat (String.length ?t) <=? _)%Z] |- _ =>
          destruct (Z.leb_spec (Z.of_nat (String.length t))
                      int_max_str_digits)
      end;
      try (exists 4, t4; auto; fail); try (exists 5, t5; auto; fail);
      exfalso;
      repeat match goal with
      | H : ∃ v, int_if _ = Ok v |- _ => destruct H as [? H]
      end;
      unfold mbind, result_bind in Hraise;
      rewrite ?H4, ?H5 in Hraise; discriminate Hraise.
  - intros (m' & [= <-] & [Habs|Hlong]); [congruence|].
    destruct (int_if_long _ m Hm Hlong) as [-> | H5]; [reflexivity|].
    destruct (int_if (group m 4)) as [b|[]]; [|reflexivity].
    rewrite bind_ret, H5. reflexivity.
Qed.

Lemma for_each_go_Raise (lines : list string)
    (results : gmap string BenchResult) :
  for_each parse_go_line results lines = Raise ValueError
  ↔ ∃ line m, line ∈ lines
              ∧ re_match go_pattern (Str.strip line) = Some m
              ∧ (float_of_str (text (group m 3)) = Raise ValueError
                 ∨ long_counter m).
Proof.
  revert results. induction lines as [|line lines IH]; intros results;
    cbn [for_each].
  - split; [discriminate|]. intros (l & t & Hl & _). inversion Hl.
  - destruct (parse_go_line results line) as [results'|[]] eqn:Hline.
    + rewrite bind_ret, IH. split.
      * intros (l & m & Hl & Hm). exists l, m.
        split; [apply list_elem_of_further, Hl|exact Hm].
      * intros (l & m & Hl & Hm & Hbad).
        apply elem_of_cons in Hl as [->|Hl]; [|eauto].
        assert (parse_go_line results line = Raise ValueError) as Habs
          by (apply parse_go_line_Raise; eauto).
        congruence.
    + split; [|reflexivity]. intros _.
      apply parse_go_line_Raise in Hline as (m & Hm & Hbad).
      exists line, m. split; [apply list_elem_of_here|auto].
Qed.

(** [parse_go_bench] raises [ValueError] exactly when some matching line
    has a time field that is not a numeral (digits with at most one point and
    at least one digit) or a counter of more than [int_max_str_digits]
    digits; in every other case it returns a dict. *)
Theorem parse_go_bench_raises_iff (lines : list string) :
  parse_go_bench lines = Raise ValueError
  ↔ ∃ line m, line ∈ lines
              ∧ re_match go_pattern (Str.strip line) = Some m
              ∧ (¬ numeral (text (group m 3)) ∨ long_counter m).
Proof.
  unfold parse_go_bench. rewrite for_each_go_Raise.
  split; intros (line & m & Hl & Hm & [Hf|Hlong]); exists line, m;
    (split; [exact Hl|split; [exact Hm|]]); auto;
    left; apply float_of_str_Raise, Hf.
Qed.

(** ** Times are never negative *)

Section rounding.
Context (prec emax : Z).

Lemma shr_1_nonneg (mrs : shr_record) :
  (0 ≤ shr_m mrs)%Z → (0 ≤ shr_m (shr_1 mrs))%Z.
Proof.
  destruct mrs as [m r s]. cbn [shr_m]. intros Hm.
  destruct m as [|[p|p|]|p]; cbn [shr_1 shr_m]; lia.
Qed.

Lemma iter_pos_nonneg (p : positive) (mrs : shr_record) :
  (0 ≤ shr_m mrs)%Z → (0 ≤ shr_m (SpecFloat.iter_pos shr_1 p mrs))%Z.
Proof.
  revert mrs. induction p as [p IH|p IH|]; intros mrs Hm; cbn [SpecFloat.iter_pos];
    auto using shr_1_nonneg.
Qed.

Lemma shr_fexp_nonneg (m e : Z) (l : location) :
  (0 ≤ m)%Z → (0 ≤ shr_m (shr_fexp prec emax m e l).1)%Z.
Proof.
  intros Hm. unfold shr_fexp, shr.
  assert (0 ≤ shr_m (shr_record_of_loc m l))%Z as Hrec
    by (destruct l as [|[]]; exact Hm).
  destruct (_ - e)%Z; cbn [fst]; auto using iter_pos_nonneg.
Qed.

Lemma round_nearest_even_nonneg (m : Z) (l : location) :
  (0 ≤ m)%Z → (0 ≤ round_nearest_even m l)%Z.
Proof.
  intros Hm. unfold round_nearest_even.
  destruct l as [|[]]; try destruct (Z.even m); lia.
Qed.

Lemma binary_round_aux_nonneg (m e : Z) (l : location) :
  (0 ≤ m)%Z → nonneg (binary_round_aux prec emax false m e l) = true.
Proof.
  intros Hm. unfold binary_round_aux.
  pose proof (shr_fexp_nonneg m e l Hm) as H1.
  destruct (shr_fexp prec emax m e l) as [mrs' e']. cbn [fst] in H1.
  pose proof (shr_fexp_nonneg _ e' loc_Exact
                (round_nearest_even_nonneg _ (loc_of_shr_record mrs') H1))
    as H2.
  destruct (shr_fexp prec emax _ e' loc_Exact) as [mrs'' e''].
  cbn [fst] in H2. destruct (shr_m mrs'') as [|p|p]; [reflexivity| |lia].
  destruct (_ <=? _)%Z; reflexivity.
Qed.

Lemma SFmul_nonneg (x : spec_float) (m : positive) (e : Z) :
  nonneg x = true → nonneg (SFmul prec emax x (S754_finite false m e)) = true.
Proof.
  destruct x as [[]|[]| |[] mx ex]; try discriminate; intros _;
    try reflexivity.
  cbn [SFmul xorb]. apply binary_round_aux_nonneg. lia.
Qed.
End rounding.

Lemma float_of_ratio_nonneg (m d : Z) :
  (0 ≤ m)%Z → (0 < d)%Z → nonneg (float_of_ratio m d) = true.
Proof.
  intros Hm Hd. unfold float_of_ratio. destruct m as [|p|p]; [reflexivity| |lia].
  unfold SFdiv_core_binary.
  set (s := (_ - _ - _)%Z).
  set (m' := match s with Z0 => _ | Zpos _ => _ | Zneg _ => _ end).
  assert (0 ≤ m')%Z as Hm'.
  { unfold m'. destruct s; [lia| |lia]. rewrite Z.shiftl_mul_pow2 by lia.
    apply Z.mul_nonneg_nonneg; [lia|]. apply Z.pow_nonneg. lia. }
  pose proof (Z.div_pos m' d Hm' Hd) as Hq. unfold Z.div in Hq.
  destruct (Z.div_eucl m' d) as [q r].
  apply binary_round_aux_nonneg, Hq.
Qed.

Lemma digit_value_nonneg (c : ascii) :
  Char.digit c = true → (0 ≤ digit_value c)%Z.
Proof.
  destruct c as [[] [] [] [] [] [] [] []]; vm_compute; congruence.
Qed.

Lemma decimal_nonneg (s : string) (dot : bool) (acc : Z) (count frac : nat)
    (m : Z) (frac' : nat) :
  (0 ≤ acc)%Z → decimal s dot acc count frac = Ok (m, frac') → (0 ≤ m)%Z.
Proof.
  revert dot acc count frac.
  induction s as [|c s IH]; intros dot acc count frac Hacc; cbn [decimal].
  - destruct count; [discriminate|]. intros [= <- _]. exact Hacc.
  - destruct (Char.digit c) eqn:Hd.
    + apply IH. pose proof (digit_value_nonneg c Hd). lia.
    + destruct (Ascii.eqb c "."); [|discriminate].
      destruct dot; [discriminate|]. apply IH, Hacc.
Qed.

Lemma float_of_str_nonneg (s : string) (x : spec_float) :
  float_of_str s = Ok x → nonneg x = true.
Proof.
  unfold float_of_str.
  destruct (decimal s false 0 0 0) as [[m frac]|e] eqn:Hd; [|discriminate].
  rewrite bind_ret. intros [= <-]. apply float_of_ratio_nonneg.
  - apply (decimal_nonneg _ _ _ _ _ _ _ (Z.le_refl 0) Hd).
  - apply Z.pow_pos_nonneg; lia.
Qed.

Lemma float_of_Z_finite (z : positive) :
  z = 1000%positive ∨ z = 1000000%positive ∨ z = 1000000000%positive →
  ∃ m e, float_of_Z (Zpos z) = S754_finite false m e.
Proof.
  intros [-> | [-> | ->]]; eexists _, _; vm_compute; reflexivity.
Qed.

Lemma convert_to_ns_nonneg (value : spec_float) (unit : string) :
  nonneg value = true → nonneg (convert_to_ns value unit) = true.
Proof.
  intros Hv. unfold convert_to_ns, fmul.
  destruct (in_tuple _ _); [exact Hv|].
  destruct (in_tuple _ _).
  { destruct (float_of_Z_finite 1000) as (m & e & ->); [auto|].
    apply SFmul_nonneg, Hv. }
  destruct (in_tuple _ _).
  { destruct (float_of_Z_finite 1000000) as (m & e & ->); [auto|].
    apply SFmul_nonneg, Hv. }
  destruct (in_tuple _ _); [|exact Hv].
  destruct (float_of_Z_finite 1000000000) as (m & e & ->); [auto|].
  apply SFmul_nonneg, Hv.
Qed.

(** A time that is not negative and not above zero is zero. *)
Lemma nonneg_not_positive (x : spec_float) :
  nonneg x = true → fltb zero x = false → x = S754_zero false.
Proof.
  destruct x as [[]|[]| |[] m e]; try discriminate; try reflexivity;
    intros _ H; vm_compute in H; discriminate H.
Qed.

(** ** What every record of a parser looks like *)

Lemma digits_value_nonneg (s : string) (acc : Z) :
  Str.all Char.digit s = true → (0 ≤ acc)%Z → (0 ≤ digits_value s acc)%Z.
Proof.
  revert acc. induction s as [|c s IH]; intros acc; cbn [Str.all digits_value];
    [auto|].
  intros [Hc Hs]%andb_true_iff Hacc. apply IH; [exact Hs|].
  pose proof (digit_value_nonneg c Hc). lia.
Qed.

Lemma int_if_nonneg (g : option string) (v : Z) :
  int_if g = Ok (Some v) → (0 ≤ v)%Z.
Proof.
  unfold int_if, int_of_str. destruct g as [t|]; [|discriminate].
  destruct (Str.truthy t); [|discriminate]. cbn [andb].
  destruct (Str.all Char.digit t) eqn:Hd; [|discriminate]. cbn [andb].
  destruct (Z.of_nat (String.length t) <=? int_max_str_digits)%Z;
    [|discriminate].
  rewrite bind_ret. intros [= <-]. apply digits_value_nonneg; [exact Hd|lia].
Qed.

Lemma go_pattern_name (l : string) (m : gmap nat string) :
  re_match go_pattern l = Some m → text (group m 1) ≠ "".
Proof.
  intros (t & s' & -> & Hm)%re_match_sound. unfold go_pattern in Hm.
  inv_matches; unfold group; rewrite ?lookup_insert_ne by done;
    rewrite lookup_insert_eq; apply length_nonempty; assumption.
Qed.

Lemma parse_go_line_ok (results results' : gmap string BenchResult)
    (line : string) :
  map_Forall go_record_ok results →
  parse_go_line results line = Ok results' →
  map_Forall go_record_ok results'.
Proof.
  intros Hres. unfold parse_go_line.
  destruct (re_match go_pattern (Str.strip line)) as [m|] eqn:Hm;
    [|intros [= <-]; exact Hres].
  intros (ns & Hns & (b & Hb & (a & Ha & [= <-])%bind_Ok)%bind_Ok)%bind_Ok.
  apply map_Forall_insert_2; [|exact Hres].
  unfold go_record_ok. cbn [source name ns_per_op bytes_per_op allocs_per_op].
  split; [reflexivity|]. split.
  { eexists. split; [reflexivity|]. split; [|reflexivity].
    apply (go_pattern_name _ _ Hm). }
  split; [apply (float_of_str_nonneg _ _ Hns)|].
  split; intros v ->; eapply int_if_nonneg; eassumption.
Qed.

Lemma rust_result_ok (name : string) (ns : spec_float) :
  name ≠ "" → nonneg ns = true →
  rust_record_ok (normalize_name name) (rust_result name ns).
Proof. intros Hname Hns. repeat split; assumption. Qed.

Lemma replace_nonempty (old : ascii) (s : string) :
  s ≠ "" → Str.replace old "_" s ≠ "".
Proof.
  destruct s as [|c s]; [congruence|]. intros _. cbn [Str.replace].
  destruct (Ascii.eqb c old); discriminate.
Qed.

Lemma match_name_nonempty (line : string) (current_name : option string) :
  (∀ cn, current_name = Some cn → cn ≠ "") →
  ∀ cn, match_name line current_name = Some cn → cn ≠ "".
Proof.
  intros Hcur cn. unfold match_name.
  destruct (re_match name_pattern line) as [m|] eqn:Hm; [|apply Hcur].
  apply name_pattern_shape in Hm as (g & -> & Hne & _).
  rewrite (truthy_nonempty g Hne). intros [= <-].
  apply replace_nonempty, Hne.
Qed.

Lemma parse_rust_line_ok (st st' : gmap string BenchResult * option string)
    (line : string) :
  rust_state_ok st → parse_rust_line st line = Ok st' → rust_state_ok st'.
Proof.
  destruct st as [results current_name]. intros [Hres Hcur].
  unfold parse_rust_line. cbn [fst snd] in *.
  pose proof (match_name_nonempty (Str.strip line) current_name Hcur) as Hcur1.
  set (cur1 := match_name (Str.strip line) current_name) in *.
  intros ([results2 cur2] & Htime & Hsimple)%bind_Ok.
  assert (rust_state_ok (results2, cur2)) as [Hres2 Hcur2].
  { unfold match_time in Htime.
    destruct (re_search time_pattern (Str.strip line)) as [m|];
      [|injection Htime as <- <-; split; assumption].
    destruct cur1 as [cn|]; [|injection Htime as <- <-; split; assumption].
    destruct (Str.truthy cn); [|injection Htime as <- <-; split; assumption].
    apply bind_Ok in Htime as (median & Hmed & [= <- <-]).
    split; [|discriminate]. cbn [fst].
    apply map_Forall_insert_2; [|exact Hres].
    apply rust_result_ok; [apply (Hcur1 cn eq_refl)|].
    apply convert_to_ns_nonneg, (float_of_str_nonneg _ _ Hmed). }
  unfold match_simple in Hsimple. cbn [fst snd] in *.
  destruct (re_match simple_pattern (Str.strip line)) as [m|] eqn:Hm;
    [|injection Hsimple as <-; split; assumption].
  apply simple_pattern_shape in Hm as (g1 & Hg1 & Hne & _).
  apply bind_Ok in Hsimple as (val & Hval & [= <-]).
  split; [|exact Hcur2]. cbn [fst].
  apply map_Forall_insert_2; [|exact Hres2].
  rewrite Hg1. cbn [text default].
  apply rust_result_ok; [exact Hne|].
  apply convert_to_ns_nonneg, (float_of_str_nonneg _ _ Hval).
Qed.

Lemma parse_rust_bench_ok (lines : list string)
    (results : gmap string BenchResult) :
  parse_rust_bench lines = Ok results → map_Forall rust_record_ok results.
Proof.
  intros (st & Hloop & [= <-])%bind_Ok.
  apply (for_each_invariant _ rust_state_ok lines) in Hloop.
  - apply Hloop.
  - intros acc x acc' _. apply parse_rust_line_ok.
  - split; [apply map_Forall_empty|discriminate].
Qed.

Lemma parse_go_bench_ok (lines : list string)
    (results : gmap string BenchResult) :
  parse_go_bench lines = Ok results → map_Forall go_record_ok results.
Proof.
  intros Hparse. unfold parse_go_bench in Hparse.
  apply (for_each_invariant _ (map_Forall go_record_ok) lines) in Hparse.
  - exact Hparse.
  - intros acc x acc' _. apply parse_go_line_ok.
  - apply map_Forall_empty.
Qed.

(** Every record of [parse_go_bench]: source ["go"], display name
    ["Benchmark"] followed by a non-empty captured name whose normalization is
    the key, a time that is neither negative nor NaN, and counters that are
    not negative when present. *)
Theorem parse_go_bench_records
    (lines : list string) (results : gmap string BenchResult)
    (key : string) (r : BenchResult) :
  parse_go_bench lines = Ok results →
  results !! key = Some r →
  source r = "go"
  ∧ (∃ g, name r = "Benchmark" +:+ g ∧ g ≠ "" ∧ key = normalize_name g)
  ∧ nonneg (ns_per_op r) = true
  ∧ (∀ b, bytes_per_op r = Some b → (0 ≤ b)%Z)
  ∧ (∀ a, allocs_per_op r = Some a → (0 ≤ a)%Z).
Proof.
  intros Hparse Hr. exact (parse_go_bench_ok lines results Hparse key r Hr).
Qed.

(** Every record of [parse_rust_bench]: source ["rust"], a non-empty display
    name whose normalization is the key, a time that is neither negative nor
    NaN, and no counters. *)
Theorem parse_rust_bench_records
    (lines : list string) (results : gmap string BenchResult)
    (key : string) (r : BenchResult) :
  parse_rust_bench lines = Ok results →
  results !! key = Some r →
  source r = "rust"
  ∧ key = normalize_name (name r)
  ∧ name r ≠ ""
  ∧ nonneg (ns_per_op r) = true
  ∧ bytes_per_op r = None ∧ allocs_per_op r = None.
Proof.
  intros Hparse Hr. exact (parse_rust_bench_ok lines results Hparse key r Hr).
Qed.

(** On parsed files the status [missing_both] does not mean that both sides
    are missing: such a row has a Rust time and a Go time of exactly zero. *)
Theorem pipeline_missing_both (go_lines rust_lines : list string)
    (rows : list comparison) (row : comparison) :
  pipeline go_lines rust_lines = Ok rows →
  row ∈ rows →
  status row = "missing_both" →
  go_ns row = Some (S754_zero false)
  ∧ is_Some (rust_ns row) ∧ ratio row = None.
Proof.
  intros (go_results & Hgo & (rust_results & Hrust & [= <-])%bind_Ok)%bind_Ok.
  intros [Hrow Hk]%elem_of_compare_results.
  set (k := normalized_name row) in *. unfold compare_row in Hrow.
  destruct (go_results !! k) as [g|] eqn:Hg,
           (rust_results !! k) as [r|] eqn:Hr.
  - destruct (fltb zero (ns_per_op g)) eqn:Hpos; rewrite Hrow;
      cbn [ratio status set_status set_ratio go_ns rust_ns fmap option_fmap
           option_map].
    + intros Htag. exfalso.
      pose proof (classify_tag (fdiv (ns_per_op r) (ns_per_op g))) as Hin.
      rewrite Htag in Hin. unfold ratio_tags in Hin. not_in_list Hin.
    + intros _. split; [|split; [eauto|reflexivity]]. f_equal.
      apply nonneg_not_positive; [|exact Hpos].
      apply (parse_go_bench_ok _ _ Hgo k g Hg).
  - rewrite Hrow. discriminate.
  - rewrite Hrow. discriminate.
  - destruct Hk as [[? [=]]|[? [=]]].
Qed.

(** ** The paths of [parse_rust_bench] *)

Lemma no_name_no_simple (line : string) :
  re_match name_pattern line = None → re_match simple_pattern line = None.
Proof.
  intros Hname. destruct (re_match simple_pattern line) as [m|] eqn:Hs;
    [|reflexivity].
  apply simple_match_name in Hs as (? & _ & _ & Hn). congruence.
Qed.

(** With no name pending, a line without a name does nothing, whatever
    else is on it. *)
Lemma parse_rust_line_idle (results : gmap string BenchResult) (line : string) :
  re_match name_pattern (Str.strip line) = None →
  parse_rust_line (results, None) line = Ok (results, None).
Proof.
  intros Hname. unfold parse_rust_line, match_name. cbn [fst snd].
  rewrite Hname. unfold match_time.
  destruct (re_search time_pattern (Str.strip line));
    rewrite bind_ret; unfold match_simple;
    rewrite (no_name_no_simple _ Hname); reflexivity.
Qed.

Lemma for_each_rust_idle (results : gmap string BenchResult)
    (lines : list string) :
  (∀ line, line ∈ lines → re_match name_pattern (Str.strip line) = None) →
  for_each parse_rust_line (results, None) lines = Ok (results, None).
Proof.
  induction lines as [|line lines IH]; intros Hno; [reflexivity|].
  cbn [for_each]. rewrite parse_rust_line_idle, bind_ret.
  - apply IH. intros l Hl. apply Hno, list_elem_of_further, Hl.
  - apply Hno, list_elem_of_here.
Qed.

(** With no pending name, lines that [name_pattern] does not match change
    nothing: no record is stored and no name becomes pending. *)
Theorem parse_rust_bench_idle (results : gmap string BenchResult)
    (lines : list string) :
  (∀ line, line ∈ lines → re_match name_pattern (Str.strip line) = None) →
  for_each parse_rust_line (results, None) lines = Ok (results, None).
Proof. apply for_each_rust_idle. Qed.

(** The two-line form of a criterion report: a name line followed by its
    [time:] line stores one record, under the normalization of the name with
    ["/"] replaced by ["_"], with the median (the second number) converted to
    nanoseconds; the name pending before is forgotten and the lines after,
    which name nothing, add nothing. *)
Theorem parse_rust_bench_name_then_interval
    (results : gmap string BenchResult) (current_name : option string)
    (name_line time_line : string) (more : list string)
    (m0 m : gmap nat string) (median : spec_float) :
  re_match name_pattern (Str.strip name_line) = Some m0 →
  re_search time_pattern (Str.strip name_line) = None →
  re_match simple_pattern (Str.strip name_line) = None →
  re_match name_pattern (Str.strip time_line) = None →
  re_search time_pattern (Str.strip time_line) = Some m →
  float_of_str (text (group m 3)) = Ok median →
  (∀ line, line ∈ more → re_match name_pattern (Str.strip line) = None) →
  let pending := Str.replace "/" "_" (first_token (Str.strip name_line)) in
  for_each parse_rust_line (results, current_name)
    (name_line :: time_line :: more)
  = Ok (<[normalize_name pending :=
            rust_result pending (convert_to_ns median (text (group m 4)))]>
          results, None).
Proof.
  intros Hname0 Htime0 Hsimple0 Hname1 Htime1 Hmedian Hmore pending.
  destruct (name_pattern_shape _ _ Hname0) as (g & Hg & Hne & Htok).
  cbn [for_each].
  assert (parse_rust_line (results, current_name) name_line
          = Ok (results, Some pending)) as ->.
  { unfold parse_rust_line, match_name. cbn [fst snd].
    rewrite Hname0, Hg, (truthy_nonempty g Hne).
    unfold match_time. rewrite Htime0, bind_ret.
    unfold match_simple. rewrite Hsimple0.
    unfold pending. rewrite Htok. reflexivity. }
  rewrite bind_ret.
  assert (Str.truthy pending = true) as Htruthy.
  { unfold pending. rewrite Htok.
    apply replace_truthy; [reflexivity|apply truthy_nonempty, Hne]. }
  assert (parse_rust_line (results, Some pending) time_line
          = Ok (<[normalize_name pending :=
                    rust_result pending
                      (convert_to_ns median (text (group m 4)))]>
                  results, None)) as ->.
  { unfold parse_rust_line, match_name. cbn [fst snd]. rewrite Hname1.
    unfold match_time. rewrite Htime1, Htruthy, Hmedian, !bind_ret.
    unfold match_simple. rewrite (no_name_no_simple _ Hname1). reflexivity. }
  rewrite bind_ret. apply for_each_rust_idle, Hmore.
Qed.

(** The one-line form with a whole interval: both the interval branch and
    the shorthand branch store a record, the shorthand one last, so the
    record found under the normalized name afterwards has the low bound (the
    first number), not the median. *)
Theorem parse_rust_line_whole_interval
    (results : gmap string BenchResult) (current_name : option string)
    (line : string) (m1 m2 : gmap nat string) (low median : spec_float) :
  re_match simple_pattern (Str.strip line) = Some m1 →
  re_search time_pattern (Str.strip line) = Some m2 →
  float_of_str (text (group m1 2)) = Ok low →
  float_of_str (text (group m2 3)) = Ok median →
  let name := first_token (Str.strip line) in
  let pending := Str.replace "/" "_" name in
  let by_median :=
    rust_result pending (convert_to_ns median (text (group m2 4))) in
  let by_low := rust_result name (convert_to_ns low (text (group m1 3))) in
  parse_rust_line (results, current_name) line
  = Ok (<[normalize_name name := by_low]>
          (<[normalize_name pending := by_median]> results), None)
  ∧ ∀ st, parse_rust_line (results, current_name) line = Ok st →
      st.1 !! normalize_name name = Some by_low.
Proof.
  intros Hsimple Htime Hlow Hmedian. cbv zeta.
  destruct (simple_match_name _ _ Hsimple) as (tok & Hg1 & Hne & Hname).
  destruct (simple_pattern_shape _ _ Hsimple) as (g1 & Hg1' & _ & Htok).
  assert (g1 = tok) as -> by congruence. rewrite Htok.
  assert (parse_rust_line (results, current_name) line
          = Ok (<[normalize_name tok :=
                    rust_result tok (convert_to_ns low (text (group m1 3)))]>
                  (<[normalize_name (Str.replace "/" "_" tok) :=
                       rust_result (Str.replace "/" "_" tok)
                         (convert_to_ns median (text (group m2 4)))]>
                     results), None)) as Heq.
  { unfold parse_rust_line, match_name. cbn [fst snd]. rewrite Hname.
    unfold group at 1 2. rewrite lookup_insert_ne by done.
    rewrite lookup_empty, lookup_insert_eq. cbn [py_or].
    rewrite (truthy_nonempty tok Hne).
    unfold match_time. rewrite Htime.
    rewrite (replace_truthy "/" "_" tok eq_refl (truthy_nonempty tok Hne)).
    rewrite Hmedian, !bind_ret.
    unfold match_simple. rewrite Hsimple, Hlow, bind_ret, Hg1. reflexivity. }
  split; [exact Heq|]. rewrite Heq. intros st [= <-]. cbn [fst].
  apply lookup_insert_eq.
Qed.

(** ** The steps of [normalize_name] *)

Lemma sub_from_skip r repl pos a t :
  sub_from r repl (String.length a) pos (a +:+ t)
  = sub_from r repl 0 (pos + String.length a) t.
Proof.
  revert pos. induction a as [|c a IH]; intros pos.
  - rewrite app_nil_l, Nat.add_0_r. reflexivity.
  - rewrite app_cons. cbn [String.length sub_from].
    rewrite IH, Nat.add_succ_r. reflexivity.
Qed.

Lemma sub_from_anchored_later l repl pos t :
  sub_from (Bol ⋅ Lit l) repl 0 (S pos) t = t.
Proof.
  apply sub_from_no_match. intros s1 s2 _. reflexivity.
Qed.

Lemma drop_prefix_app l t : Str.drop_prefix l (l +:+ t) = Some t.
Proof. apply drop_prefix_Some. reflexivity. Qed.

(** Removing an anchored literal is removing a prefix. *)
Lemma re_sub_anchored (c : ascii) (l s : string) :
  re_sub (Bol ⋅ Lit (String c l)) "" s = strip_prefix (String c l) s.
Proof.
  unfold strip_prefix.
  destruct (Str.drop_prefix (String c l) s) as [s'|] eqn:Hd;
    [|apply re_sub_anchored_absent, Hd].
  apply drop_prefix_Some in Hd as ->. unfold re_sub.
  rewrite app_cons. cbn [sub_from rmatch].
  rewrite <- app_cons, drop_prefix_app. cbn [accept stop Nat.add].
  cbn [String.length Nat.sub].
  rewrite app_nil_l, sub_from_skip. apply sub_from_anchored_later.
Qed.

Lemma normalize_name_steps (s : string) :
  normalize_name s = re_sub suffix_pattern "" (separators_and_case s).
Proof.
  unfold normalize_name, separators_and_case.
  rewrite !re_sub_anchored. reflexivity.
Qed.

(** A literal that lacks the character [c] is a prefix of a text that goes
    on with [c] only if it is a prefix of the text. *)
Lemma drop_prefix_snoc (c : ascii) (l s x : string) :
  Str.all (is_not c) l = true →
  Str.drop_prefix l (s +:+ String c x)
  = (λ s', s' +:+ String c x) <$> Str.drop_prefix l s.
Proof.
  revert s. induction l as [|a l IH]; intros s Hl; [reflexivity|].
  cbn [Str.all] in Hl. apply andb_true_iff in Hl as [Ha Hl].
  destruct s as [|b s].
  - rewrite app_nil_l. cbn [Str.drop_prefix fmap option_fmap option_map].
    unfold is_not in Ha. apply negb_true_iff in Ha. rewrite Ha. reflexivity.
  - rewrite app_cons. cbn [Str.drop_prefix].
    destruct (Ascii.eqb a b); [apply IH, Hl|reflexivity].
Qed.

Lemma strip_prefix_snoc (c : ascii) (l s x : string) :
  Str.all (is_not c) l = true →
  strip_prefix l (s +:+ String c x) = strip_prefix l s +:+ String c x.
Proof.
  intros Hl. unfold strip_prefix. rewrite (drop_prefix_snoc c l s x Hl).
  destruct (Str.drop_prefix l s); reflexivity.
Qed.

Lemma replace_app (old : ascii) (new a b : string) :
  Str.replace old new (a +:+ b)
  = Str.replace old new a +:+ Str.replace old new b.
Proof.
  induction a as [|c a IH]; [reflexivity|].
  rewrite app_cons. cbn [Str.replace]. rewrite IH.
  destruct (Ascii.eqb c old); [rewrite app_assoc|rewrite app_cons];
    reflexivity.
Qed.

Lemma lower_app (a b : string) :
  Str.lower (a +:+ b) = Str.lower a +:+ Str.lower b.
Proof.
  induction a as [|c a IH]; [reflexivity|].
  rewrite app_cons. cbn [Str.lower]. rewrite IH, app_cons. reflexivity.
Qed.

Lemma digit_facts (c : ascii) :
  Char.digit c = true →
  is_not "_" c = true ∧ is_not "/" c = true ∧ is_not "-" c = true
  ∧ negb (Char.upper c) = true ∧ Ascii.eqb c LF = false.
Proof. destruct c as [[] [] [] [] [] [] [] []]; vm_compute; auto; congruence. Qed.

Lemma separators_and_case_suffix (s d : string) :
  Str.all Char.digit d = true →
  separators_and_case (s +:+ "-" +:+ d)
  = separators_and_case s +:+ "-" +:+ d.
Proof.
  intros Hd. unfold separators_and_case.
  change ("-" +:+ d) with (String "-" d).
  rewrite !(strip_prefix_snoc "-") by reflexivity.
  rewrite !replace_app, lower_app. f_equal.
  assert (Str.all (is_not "_") (String "-" d) = true) as H1.
  { cbn [Str.all]. rewrite (all_impl Char.digit _ d); [reflexivity| |exact Hd].
    intros c Hc. apply (digit_facts c Hc). }
  assert (Str.all (is_not "/") (String "-" d) = true) as H2.
  { cbn [Str.all]. rewrite (all_impl Char.digit _ d); [reflexivity| |exact Hd].
    intros c Hc. apply (digit_facts c Hc). }
  rewrite (replace_absent "_") by exact H1.
  rewrite (replace_absent "/") by exact H2.
  apply lower_id. unfold Str.no_upper. cbn [Str.all].
  rewrite (all_impl Char.digit _ d); [reflexivity| |exact Hd].
  intros c Hc. apply (digit_facts c Hc).
Qed.

(** [suffix_pattern] matches a dash and digits at the end of a text. *)
Lemma suffix_pattern_complete (pos : nat) (d : string) :
  d ≠ "" → Str.all Char.digit d = true →
  rmatch suffix_pattern pos (String "-" d) ∅ accept
  = Some {| groups := ∅; stop := pos + 1 + String.length d |}.
Proof.
  intros Hne Hd. unfold suffix_pattern, plus. cbn [rmatch Str.drop_prefix].
  change (Ascii.eqb "-" "-") with true. cbv iota.
  rewrite rep_greedy_span.
  - rewrite (span_all _ _ Hd). cbn [fst snd accept].
    destruct d as [|c d]; [congruence|]. reflexivity.
  - intros p c s caps Hc. destruct s; [|reflexivity].
    destruct (digit_facts c Hc) as (_ & _ & _ & _ & ->). reflexivity.
Qed.

(** [re.sub] with [suffix_pattern] removes a last dash and digits, and
    nothing in front of them. *)
Lemma re_sub_suffix (u d : string) :
  d ≠ "" → Str.all Char.digit d = true →
  re_sub suffix_pattern "" (u +:+ "-" +:+ d) = u.
Proof.
  intros Hne Hd. unfold re_sub.
  enough (∀ pos, sub_from suffix_pattern "" 0 pos (u +:+ "-" +:+ d) = u)
    as Hall by apply Hall.
  induction u as [|c u IH]; intros pos.
  - rewrite app_nil_l. change ("-" +:+ d) with (String "-" d).
    cbn [sub_from]. rewrite (suffix_pattern_complete pos d Hne Hd).
    cbn [stop]. replace (pos + 1 + String.length d - pos)
      with (S (String.length d)) by lia.
    cbv beta iota.
    pose proof (sub_from_skip suffix_pattern "" (S pos) d "") as Hskip.
    rewrite app_nil_r in Hskip. rewrite app_nil_l, Hskip. reflexivity.
  - rewrite app_cons. cbn [sub_from].
    destruct (rmatch suffix_pattern pos _ ∅ accept) as [f|] eqn:Hm;
      [exfalso|f_equal; apply IH].
    apply suffix_pattern_sound in Hm as (d' & nl & Heq & _ & Hd' & Hnl).
    change ("-" +:+ d' +:+ nl) with (String "-" (d' +:+ nl)) in Heq.
    injection Heq as _ Heq.
    assert (Str.all (is_not "-") (d' +:+ nl) = true) as Hno.
    { rewrite all_app. apply andb_true_iff. split.
      - apply (all_impl Char.digit); [|exact Hd'].
        intros c' Hc'. apply (digit_facts c' Hc').
      - destruct Hnl as [-> | ->]; reflexivity. }
    rewrite <- Heq, !all_app in Hno.
    apply andb_true_iff in Hno as [_ Hno]. discriminate Hno.
Qed.

Lemma span_digits_end (d nl : string) :
  Str.all Char.digit d = true → nl = "" ∨ nl = String LF "" →
  span Char.digit (d +:+ nl) = (d, nl).
Proof.
  intros Hd Hnl. induction d as [|c d IH].
  - rewrite app_nil_l. destruct Hnl as [-> | ->]; reflexivity.
  - rewrite app_cons. cbn [Str.all span] in *.
    apply andb_true_iff in Hd as [Hc Hd]. rewrite Hc, (IH Hd). reflexivity.
Qed.

(** [suffix_pattern] matches a dash and digits at the end of a text, or in
    front of its last line feed. *)
Lemma suffix_pattern_complete_end (pos : nat) (d nl : string) :
  d ≠ "" → Str.all Char.digit d = true → nl = "" ∨ nl = String LF "" →
  rmatch suffix_pattern pos (String "-" (d +:+ nl)) ∅ accept
  = Some {| groups := ∅; stop := pos + 1 + String.length d |}.
Proof.
  intros Hne Hd Hnl. unfold suffix_pattern, plus.
  cbn [rmatch Str.drop_prefix].
  change (Ascii.eqb "-" "-") with true. cbv iota.
  rewrite rep_greedy_span.
  - rewrite (span_digits_end _ _ Hd Hnl). cbn [fst snd].
    destruct d as [|c d]; [congruence|]. cbn [String.length Nat.leb].
    destruct Hnl as [-> | ->]; reflexivity.
  - intros p c s caps Hc. destruct s; [|reflexivity].
    destruct (digit_facts c Hc) as (_ & _ & _ & _ & ->). reflexivity.
Qed.

(** [re.sub] with [suffix_pattern] removes the dash and digits a text ends
    in, and nothing else. *)
Lemma re_sub_suffix_end (u d nl : string) :
  d ≠ "" → Str.all Char.digit d = true → nl = "" ∨ nl = String LF "" →
  re_sub suffix_pattern "" (u +:+ "-" +:+ d +:+ nl) = u +:+ nl.
Proof.
  intros Hne Hd Hnl. unfold re_sub.
  enough (∀ pos, sub_from suffix_pattern "" 0 pos (u +:+ "-" +:+ d +:+ nl)
                 = u +:+ nl) as Hall by apply Hall.
  induction u as [|c u IH]; intros pos.
  - rewrite !app_nil_l. change ("-" +:+ d +:+ nl) with (String "-" (d +:+ nl)).
    cbn [sub_from]. rewrite (suffix_pattern_complete_end pos d nl Hne Hd Hnl).
    cbn [stop]. replace (pos + 1 + String.length d - pos)
      with (S (String.length d)) by lia.
    cbv beta iota. rewrite app_nil_l, sub_from_skip.
    destruct Hnl as [-> | ->]; reflexivity.
  - rewrite !app_cons. cbn [sub_from].
    destruct (rmatch suffix_pattern pos _ ∅ accept) as [f|] eqn:Hm;
      [exfalso|f_equal; apply IH].
    apply suffix_pattern_sound in Hm as (d' & nl' & Heq & _ & Hd' & Hnl').
    change ("-" +:+ d' +:+ nl') with (String "-" (d' +:+ nl')) in Heq.
    injection Heq as _ Heq.
    assert (Str.all (is_not "-") (d' +:+ nl') = true) as Hno.
    { rewrite all_app. apply andb_true_iff. split.
      - apply (all_impl Char.digit); [|exact Hd'].
        intros c' Hc'. apply (digit_facts c' Hc').
      - destruct Hnl' as [-> | ->]; reflexivity. }
    rewrite <- Heq, !all_app in Hno.
    apply andb_true_iff in Hno as [_ Hno]. discriminate Hno.
Qed.

Lemma re_sub_suffix_present (s : string) :
  ends_with_dash_digits s → re_sub suffix_pattern "" s ≠ s.
Proof.
  intros (p & d & nl & -> & Hne & Hd & Hnl) Heq.
  rewrite (re_sub_suffix_end p d nl Hne Hd Hnl) in Heq.
  apply (f_equal String.length) in Heq. rewrite !length_app in Heq.
  cbn [String.length] in Heq. lia.
Qed.

(** Claim C3, amended.  [normalize_name] removes one trailing suffix of a
    dash and digits, so normalising twice is normalising once exactly for
    the names whose normalised form does not itself end in a dash and
    digits. *)
Theorem normalize_name_idempotent_without_suffix (s : string) :
  normalize_name (normalize_name s) = normalize_name s
  ↔ ¬ ends_with_dash_digits (normalize_name s).
Proof.
  rewrite normalize_name_twice. split.
  - intros Heq Hsuffix. apply (re_sub_suffix_present _ Hsuffix Heq).
  - apply re_sub_suffix_absent.
Qed.

Lemma normalize_name_idempotent_without_suffix_witness :
  ¬ ends_with_dash_digits (normalize_name "BenchmarkFoo_Bar-8")
  ∧ normalize_name (normalize_name "BenchmarkFoo_Bar-8")
    = normalize_name "BenchmarkFoo_Bar-8"
  ∧ ends_with_dash_digits (normalize_name "x-1-2").
Proof.
  assert (¬ ends_with_dash_digits (normalize_name "BenchmarkFoo_Bar-8")) as H.
  { apply no_dash_no_suffix. reflexivity. }
  split; [exact H|]. split.
  - apply (proj2 (normalize_name_idempotent_without_suffix
                    "BenchmarkFoo_Bar-8") H).
  - exists "x", "1", "". repeat split; auto.
Defined.

(** [normalize_name] drops one trailing dash-and-digits suffix: when what is
    left does not end in such a suffix again, the name with the suffix and
    the name without it normalize to the same key. *)
Theorem normalize_name_numeric_suffix (s d : string) :
  d ≠ "" → Str.all Char.digit d = true →
  ¬ ends_with_dash_digits (normalize_name (s +:+ "-" +:+ d)) →
  normalize_name (s +:+ "-" +:+ d) = normalize_name s.
Proof.
  intros Hne Hd. rewrite !normalize_name_steps.
  rewrite (separators_and_case_suffix s d Hd).
  rewrite (re_sub_suffix _ d Hne Hd). intros Hno.
  symmetry. apply re_sub_suffix_absent, Hno.
Qed.

(** A normalized name has no underscore, no slash and no upper-case
    letter: for the names of this model, whose characters are the code
    points below U+0100.  ([str.lower] leaves some upper-case letters above
    that range as they are.) *)
Theorem normalize_name_alphabet (s : string) :
  Str.all (is_not "_") (normalize_name s) = true
  ∧ Str.all (is_not "/") (normalize_name s) = true
  ∧ Str.no_upper (normalize_name s) = true.
Proof. apply normalize_name_normal. Qed.

(** ** Slashes and underscores in [normalize_name] *)

Lemma replace_cons (old : ascii) (new : string) (c : ascii) (s : string) :
  Str.replace old new (String c s)
  = if Ascii.eqb c old then new +:+ Str.replace old new s
    else String c (Str.replace old new s).
Proof. reflexivity. Qed.

(** Both orders of dealing with the separators give the same text. *)
Lemma remove_separators_replace (x : string) :
  Str.replace "/" "" (Str.replace "_" "" (Str.replace "/" "_" x))
  = Str.replace "/" "" (Str.replace "_" "" x).
Proof.
  induction x as [|c x IH]; [reflexivity|].
  rewrite (replace_cons "/" "_").
  destruct (Ascii.eqb_spec c "/") as [->|Hslash].
  - change ("_" +:+ Str.replace "/" "_" x)
      with (String "_" (Str.replace "/" "_" x)).
    rewrite (replace_cons "_" ""). change (Ascii.eqb "_" "_") with true.
    cbv iota. rewrite app_nil_l, IH.
    rewrite (replace_cons "_" "" "/"). change (Ascii.eqb "/" "_") with false.
    cbv iota. rewrite (replace_cons "/" "" "/").
    change (Ascii.eqb "/" "/") with true. cbv iota. reflexivity.
  - rewrite !(replace_cons "_" "").
    destruct (Ascii.eqb c "_"); [rewrite !app_nil_l; exact IH|].
    rewrite !(replace_cons "/" ""). rewrite IH. reflexivity.
Qed.

(** A literal without separators is a prefix of a text exactly when it is
    one of the text with its slashes made underscores. *)
Lemma drop_prefix_replace (l t : string) :
  Str.all (is_not "/") l = true → Str.all (is_not "_") l = true →
  Str.drop_prefix l (Str.replace "/" "_" t)
  = Str.replace "/" "_" <$> Str.drop_prefix l t.
Proof.
  revert t. induction l as [|a l IH]; intros t Hs Hu; [reflexivity|].
  cbn [Str.all] in Hs, Hu.
  apply andb_true_iff in Hs as [Has Hs]. apply andb_true_iff in Hu as [Hau Hu].
  unfold is_not in Has, Hau. apply negb_true_iff in Has, Hau.
  destruct t as [|c t]; [reflexivity|]. rewrite replace_cons.
  destruct (Ascii.eqb_spec c "/") as [->|Hc].
  - change ("_" +:+ Str.replace "/" "_" t)
      with (String "_" (Str.replace "/" "_" t)).
    cbn [Str.drop_prefix]. rewrite Has, Hau. reflexivity.
  - cbn [Str.drop_prefix]. destruct (Ascii.eqb a c); [apply IH; auto|].
    reflexivity.
Qed.

(** The same for a literal that ends in an underscore, for a text that
    does not start with the literal ending in a slash. *)
Lemma drop_prefix_replace_underscore (l t : string) :
  Str.all (is_not "/") l = true → Str.all (is_not "_") l = true →
  Str.drop_prefix (l +:+ "/") t = None →
  Str.drop_prefix (l +:+ "_") (Str.replace "/" "_" t)
  = Str.replace "/" "_" <$> Str.drop_prefix (l +:+ "_") t.
Proof.
  revert t. induction l as [|a l IH]; intros t Hs Hu Hno.
  - rewrite !app_nil_l in *. destruct t as [|c t]; [reflexivity|].
    rewrite replace_cons. cbn [Str.drop_prefix] in *.
    destruct (Ascii.eqb_spec c "/") as [->|Hc]; [discriminate Hno|].
    cbn [Str.drop_prefix]. destruct (Ascii.eqb "_" c); reflexivity.
  - cbn [Str.all] in Hs, Hu.
    apply andb_true_iff in Hs as [Has Hs].
    apply andb_true_iff in Hu as [Hau Hu].
    unfold is_not in Has, Hau. apply negb_true_iff in Has, Hau.
    rewrite !app_cons in *.
    destruct t as [|c t]; [reflexivity|]. rewrite replace_cons.
    cbn [Str.drop_prefix] in Hno.
    destruct (Ascii.eqb_spec c "/") as [->|Hc].
    + change ("_" +:+ Str.replace "/" "_" t)
        with (String "_" (Str.replace "/" "_" t)).
      cbn [Str.drop_prefix]. rewrite Has, Hau. reflexivity.
    + cbn [Str.drop_prefix]. destruct (Ascii.eqb a c); [apply IH; auto|].
      reflexivity.
Qed.

Lemma strip_prefix_fmap (f : string → string) (l t : string) :
  Str.drop_prefix l (f t) = f <$> Str.drop_prefix l t →
  strip_prefix l (f t) = f (strip_prefix l t).
Proof.
  unfold strip_prefix. intros ->. destruct (Str.drop_prefix l t); reflexivity.
Qed.

(** [parse_rust_bench] stores a pending name with ["/"] replaced by ["_"]:
    that does not change the key, unless the name starts with ["bench/"]
    (after an optional ["Benchmark"]), which is no prefix that
    [normalize_name] removes. *)
Theorem normalize_name_slash_underscore (t : string) :
  Str.drop_prefix "bench/" t = None →
  Str.drop_prefix "Benchmarkbench/" t = None →
  normalize_name (Str.replace "/" "_" t) = normalize_name t.
Proof.
  intros Hbench Hboth. rewrite !normalize_name_steps. f_equal.
  unfold separators_and_case. f_equal.
  rewrite (strip_prefix_fmap _ "Benchmark" t)
    by (apply drop_prefix_replace; reflexivity).
  rewrite (strip_prefix_fmap _ "bench_").
  - apply remove_separators_replace.
  - apply (drop_prefix_replace_underscore "bench"); [reflexivity..|].
    unfold strip_prefix.
    destruct (Str.drop_prefix "Benchmark" t) as [t'|] eqn:Ht; [|exact Hbench].
    apply drop_prefix_Some in Ht as ->.
    destruct (Str.drop_prefix ("bench" +:+ "/") t') as [t''|] eqn:Ht';
      [|reflexivity].
    apply drop_prefix_Some in Ht' as ->.
    rewrite <- app_assoc in Hboth.
    change ("Benchmark" +:+ "bench" +:+ "/") with "Benchmarkbench/" in Hboth.
    rewrite drop_prefix_app in Hboth. discriminate Hboth.
Qed.

Lemma normalize_name_slash_underscore_witness :
  Str.drop_prefix "bench/" "render/short/simple" = None
  ∧ Str.drop_prefix "Benchmarkbench/" "render/short/simple" = None
  ∧ normalize_name (Str.replace "/" "_" "render/short/simple")
    = normalize_name "render/short/simple".
Proof.
  assert (Str.drop_prefix "bench/" "render/short/simple" = None) as H1
    by reflexivity.
  assert (Str.drop_prefix "Benchmarkbench/" "render/short/simple" = None)
    as H2 by reflexivity.
  do 2 (split; [assumption|]).
  apply (normalize_name_slash_underscore "render/short/simple" H1 H2).
Defined.

(** A name that starts with ["bench/"] does change its key. *)
Lemma normalize_name_bench_slash :
  normalize_name (Str.replace "/" "_" "bench/x") ≠ normalize_name "bench/x".
Proof. vm_compute. discriminate. Qed.

(** ** One side without records *)

(** With no Go record at all there is one row per Rust record, each with
    status [missing_go], the Rust name and time, and the Go fields and the
    ratio empty; the matched count of the summary is 0. *)
Theorem compare_results_no_go_record
    (rust_results : gmap string BenchResult) :
  let rows := compare_results ∅ rust_results in
  length rows = size rust_results
  ∧ matched (main_json_summary rows) = 0
  ∧ ∀ row, row ∈ rows →
      go_name row = None ∧ go_ns row = None ∧ ratio row = None
      ∧ status row = "missing_go"
      ∧ ∃ rust_res, rust_results !! normalized_name row = Some rust_res
          ∧ rust_name row = Some (name rust_res)
          ∧ rust_ns row = Some (ns_per_op rust_res).
Proof.
  cbv zeta.
  assert (∀ row, row ∈ compare_results ∅ rust_results →
            go_name row = None ∧ go_ns row = None ∧ ratio row = None
            ∧ status row = "missing_go"
            ∧ ∃ rust_res, rust_results !! normalized_name row = Some rust_res
                ∧ rust_name row = Some (name rust_res)
                ∧ rust_ns row = Some (ns_per_op rust_res)) as Hrows.
  { intros row [Hrow Hk]%elem_of_compare_results.
    unfold compare_row in Hrow. rewrite lookup_empty in Hrow, Hk.
    destruct Hk as [[? [=]]|[r Hr]]. rewrite Hr in Hrow.
    rewrite Hrow at 1 2 3 4. cbn. do 4 (split; [reflexivity|]).
    exists r. rewrite Hrow. cbn. rewrite Hr. auto. }
  split; [|split; [|exact Hrows]].
  - rewrite compare_results_length, dom_empty_L, (left_id_L ∅ (∪)).
    apply size_dom.
  - cbn [main_json_summary matched].
    rewrite (count_if_ext _ (λ _, false)).
    + clear Hrows. induction (compare_results ∅ rust_results) as [|c l IH];
        [reflexivity|]. rewrite count_if_cons. exact IH.
    + intros c Hc. destruct (Hrows c Hc) as (_ & _ & Hratio & _).
      unfold has_ratio. rewrite Hratio. reflexivity.
Qed.

(** ** The counters of [print_table] *)

(** What the loop of [print_table] counts, for any rows at all: the rows
    with a ratio, those of them with status [excellent], and those of them
    with status [good]; the total is the number of rows. *)
Theorem print_table_summary_counts (comparisons : list comparison) :
  comparisons ≠ [] →
  print_table comparisons
  = Ok {| total_benchmarks := length comparisons;
          matched_count := count_if has_ratio comparisons;
          excellent_count := count_if (matched_as "excellent") comparisons;
          good_count := count_if (matched_as "good") comparisons |}.
Proof.
  destruct comparisons as [|c comparisons]; [congruence|].
  intros _. apply print_table_counts.
Qed.

(** ** The further properties at sample inputs *)

Lemma compare_results_one_side_witness :
  ∃ row, row ∈ compare_results go_foo ∅
    ∧ normalized_name row = "foo"
    ∧ go_ns row = Some f123 ∧ rust_ns row = None
    ∧ status row = "missing_rust".
Proof.
  exists (compare_row go_foo ∅ "foo").
  assert (compare_row go_foo ∅ "foo" ∈ compare_results go_foo ∅) as Hin
    by (apply compare_row_elem_of; left; vm_compute; eauto).
  split; [exact Hin|]. split; [reflexivity|].
  destruct (compare_results_one_side go_foo ∅ _ Hin) as [Hrust _].
  destruct (Hrust (lookup_empty _)) as (go_res & Hgo & ->).
  vm_compute in Hgo. injection Hgo as <-. repeat split.
Defined.

Lemma compare_results_status_ratio_witness :
  ∃ row, row ∈ compare_results go_foo rust_foo
    ∧ is_Some (ratio row) ∧ status row ∈ ratio_tags.
Proof.
  exists (compare_row go_foo rust_foo "foo").
  assert (compare_row go_foo rust_foo "foo" ∈ compare_results go_foo rust_foo)
    as Hin by (apply compare_row_elem_of; left; vm_compute; eauto).
  split; [exact Hin|].
  destruct (compare_results_status_ratio go_foo rust_foo _ Hin)
    as (Htags & _ & _).
  assert (is_Some (ratio (compare_row go_foo rust_foo "foo"))) as Hratio
    by (vm_compute; eauto).
  split; [exact Hratio|]. apply Htags, Hratio.
Defined.

Lemma print_table_and_json_summary_witness :
  ∃ table, print_table (compare_results go_foo rust_foo) = Ok table
    ∧ total_benchmarks table = 1 ∧ matched_count table = 1
    ∧ good_count table + excellent_count table
      = good (main_json_summary (compare_results go_foo rust_foo)).
Proof.
  destruct (print_table (compare_results go_foo rust_foo)) as [table|]
    eqn:Htable; [|vm_compute in Htable; discriminate Htable].
  exists table. split; [reflexivity|].
  destruct (print_table_and_json_summary go_foo rust_foo table Htable)
    as (Htotal & Hmatched & _ & Hgood).
  rewrite Htotal, Hmatched, Hgood. vm_compute. auto.
Defined.

Lemma print_table_summary_counts_witness :
  [excellent_row] ≠ []
  ∧ print_table [excellent_row]
    = Ok {| total_benchmarks := 1; matched_count := 1;
            excellent_count := 1; good_count := 0 |}.
Proof.
  assert ([excellent_row] ≠ []) as Hne by discriminate.
  split; [exact Hne|].
  rewrite (print_table_summary_counts [excellent_row] Hne). reflexivity.
Defined.

Lemma parse_go_bench_skips_line_witness :
  let line := "PASS" in
  re_match go_pattern (Str.strip line) = None
  ∧ parse_go_bench (["goos: linux"] ++ line :: go_file)
    = parse_go_bench (["goos: linux"] ++ go_file).
Proof.
  intros line.
  assert (re_match go_pattern (Str.strip line) = None) as Hno
    by (vm_compute; reflexivity).
  split; [exact Hno|].
  apply (parse_go_bench_skips_line ["goos: linux"] go_file line Hno).
Defined.

Lemma parse_go_bench_last_line_witness :
  let line := "BenchmarkFoo-4    500    50.0 ns/op    32 B/op" in
  ∃ results m ns,
    parse_go_bench go_file = Ok results
    ∧ re_match go_pattern (Str.strip line) = Some m
    ∧ float_of_str (text (group m 3)) = Ok ns
    ∧ ¬ long_counter m
    ∧ ∃ record, parse_go_bench (go_file ++ [line])
                = Ok (<["foo" := record]> results)
        ∧ name record = "BenchmarkFoo" ∧ ns_per_op record = ns
        ∧ bytes_per_op record = Some 32%Z.
Proof.
  intros line.
  destruct (parse_go_bench go_file) as [results|] eqn:Hfile;
    [|vm_compute in Hfile; discriminate Hfile].
  destruct (re_match go_pattern (Str.strip line)) as [m|] eqn:Hm;
    [|vm_compute in Hm; discriminate Hm].
  destruct (float_of_str (text (group m 3))) as [ns|] eqn:Hns.
  2:{ vm_compute in Hm. injection Hm as <-. vm_compute in Hns.
      discriminate Hns. }
  assert (¬ long_counter m) as Hfit.
  { vm_compute in Hm. injection Hm as <-.
    intros (n & t & [-> | ->] & Ht & Hlong); vm_compute in Ht;
      [|discriminate Ht].
    injection Ht as <-. vm_compute in Hlong. discriminate Hlong. }
  exists results, m, ns. do 3 (split; [first [assumption|reflexivity]|]).
  split; [exact Hfit|].
  destruct (parse_go_bench_last_line go_file results line m ns Hfile Hm Hns
              Hfit) as (b & a & Hb & _ & Heq & _).
  assert (text (group m 1) = "Foo") as Hname.
  { vm_compute in Hm. injection Hm as <-. reflexivity. }
  assert (b = Some 32%Z) as ->.
  { vm_compute in Hm. injection Hm as <-. vm_compute in Hb. congruence. }
  rewrite Hname in Heq. eexists. split; [exact Heq|]. repeat split.
Defined.

Lemma parse_go_bench_records_witness :
  ∃ results r,
    parse_go_bench go_file = Ok results ∧ results !! "foo" = Some r
    ∧ source r = "go" ∧ nonneg (ns_per_op r) = true.
Proof.
  destruct (parse_go_bench go_file) as [results|] eqn:Hfile;
    [|vm_compute in Hfile; discriminate Hfile].
  destruct (results !! "foo") as [r|] eqn:Hr.
  2:{ vm_compute in Hfile. injection Hfile as <-. vm_compute in Hr.
      discriminate Hr. }
  exists results, r. do 2 (split; [first [assumption|reflexivity]|]).
  destruct (parse_go_bench_records go_file results "foo" r Hfile Hr)
    as (Hsource & _ & Hns & _).
  split; assumption.
Defined.

Lemma parse_rust_bench_records_witness :
  ∃ results r,
    parse_rust_bench rust_file_slash = Ok results
    ∧ results !! "renderfoo" = Some r
    ∧ source r = "rust" ∧ "renderfoo" = normalize_name (name r)
    ∧ bytes_per_op r = None.
Proof.
  destruct (parse_rust_bench rust_file_slash) as [results|] eqn:Hfile;
    [|vm_compute in Hfile; discriminate Hfile].
  destruct (results !! "renderfoo") as [r|] eqn:Hr.
  2:{ vm_compute in Hfile. injection Hfile as <-. vm_compute in Hr.
      discriminate Hr. }
  exists results, r. do 2 (split; [first [assumption|reflexivity]|]).
  destruct (parse_rust_bench_records rust_file_slash results "renderfoo" r
              Hfile Hr) as (Hsource & Hkey & _ & _ & Hbytes & _).
  repeat split; assumption.
Defined.

Lemma pipeline_missing_both_witness :
  let go_lines := ["BenchmarkFoo-8    1000000    0 ns/op"] in
  ∃ rows row,
    pipeline go_lines rust_file_foo = Ok rows ∧ row ∈ rows
    ∧ status row = "missing_both"
    ∧ go_ns row = Some (S754_zero false) ∧ ratio row = None.
Proof.
  intros go_lines.
  destruct (pipeline go_lines rust_file_foo) as [rows|] eqn:Hrows;
    [|vm_compute in Hrows; discriminate Hrows].
  destruct rows as [|row rows];
    [vm_compute in Hrows; discriminate Hrows|].
  assert (status row = "missing_both") as Hstatus.
  { vm_compute in Hrows. injection Hrows as <- _. reflexivity. }
  exists (row :: rows), row. split; [reflexivity|].
  assert (row ∈ row :: rows) as Hin by apply list_elem_of_here.
  do 2 (split; [assumption|]).
  destruct (pipeline_missing_both go_lines rust_file_foo (row :: rows) row
              Hrows Hin Hstatus) as (Hgo & _ & Hratio).
  split; assumption.
Defined.

Lemma parse_rust_bench_idle_witness :
  let lines := ["Gnuplot not found, using plotters backend";
                "Found 3 outliers among 100 measurements (3.00%)"] in
  (∀ line, line ∈ lines → re_match name_pattern (Str.strip line) = None)
  ∧ for_each parse_rust_line (rust_foo, None) lines = Ok (rust_foo, None).
Proof.
  intros lines.
  assert (∀ line, line ∈ lines →
            re_match name_pattern (Str.strip line) = None) as Hno.
  { intros line Hline. unfold lines in Hline.
    repeat (apply elem_of_cons in Hline as [->|Hline];
            [vm_compute; reflexivity|]).
    inversion Hline. }
  split; [exact Hno|].
  apply (parse_rust_bench_idle rust_foo lines Hno).
Defined.

Lemma parse_rust_bench_name_then_interval_witness :
  let name_line := "render/foo" in
  let time_line := "                        time:   [1.0 ns 2.0 us 3.0 us]" in
  let more := ["Found 3 outliers among 100 measurements (3.00%)"] in
  (∃ m0, re_match name_pattern (Str.strip name_line) = Some m0)
  ∧ re_search time_pattern (Str.strip name_line) = None
  ∧ re_match simple_pattern (Str.strip name_line) = None
  ∧ re_match name_pattern (Str.strip time_line) = None
  ∧ (∀ line, line ∈ more → re_match name_pattern (Str.strip line) = None)
  ∧ ∃ m median,
      re_search time_pattern (Str.strip time_line) = Some m
      ∧ float_of_str (text (group m 3)) = Ok median
      ∧ for_each parse_rust_line (rust_foo, Some "stale")
          (name_line :: time_line :: more)
        = Ok (<["renderfoo" :=
                  rust_result "render_foo" (convert_to_ns median "us")]>
                rust_foo, None).
Proof.
  intros name_line time_line more.
  destruct (re_match name_pattern (Str.strip name_line)) as [m0|] eqn:Hn0;
    [|vm_compute in Hn0; discriminate Hn0].
  assert (re_search time_pattern (Str.strip name_line) = None) as Ht0
    by (vm_compute; reflexivity).
  assert (re_match simple_pattern (Str.strip name_line) = None) as Hs0
    by (vm_compute; reflexivity).
  assert (re_match name_pattern (Str.strip time_line) = None) as Hn1
    by (vm_compute; reflexivity).
  assert (∀ line, line ∈ more →
            re_match name_pattern (Str.strip line) = None) as Hmore.
  { intros line Hline. unfold more in Hline.
    repeat (apply elem_of_cons in Hline as [->|Hline];
            [vm_compute; reflexivity|]).
    inversion Hline. }
  destruct (re_search time_pattern (Str.strip time_line)) as [m|] eqn:Ht1;
    [|vm_compute in Ht1; discriminate Ht1].
  destruct (float_of_str (text (group m 3))) as [median|] eqn:Hmed.
  2:{ vm_compute in Ht1. injection Ht1 as <-. vm_compute in Hmed.
      discriminate Hmed. }
  split; [eauto|]. do 4 (split; [assumption|]).
  exists m, median. do 2 (split; [first [assumption|reflexivity]|]).
  pose proof (parse_rust_bench_name_then_interval rust_foo (Some "stale")
                name_line time_line more m0 m median
                Hn0 Ht0 Hs0 Hn1 Ht1 Hmed Hmore) as Heq.
  cbv zeta in Heq.
  assert (text (group m 4) = "us") as Hunit.
  { vm_compute in Ht1. injection Ht1 as <-. reflexivity. }
  rewrite Hunit in Heq. exact Heq.
Defined.

Lemma parse_rust_line_whole_interval_witness :
  let line := "foo time: [1.0 ns 2.0 ns 3.0 ns]" in
  ∃ m1 m2 low median,
    re_match simple_pattern (Str.strip line) = Some m1
    ∧ re_search time_pattern (Str.strip line) = Some m2
    ∧ float_of_str (text (group m1 2)) = Ok low
    ∧ float_of_str (text (group m2 3)) = Ok median
    ∧ ∀ st, parse_rust_line (∅, None) line = Ok st →
        st.1 !! "foo" = Some (rust_result "foo" (convert_to_ns low "ns")).
Proof.
  intros line.
  destruct (re_match simple_pattern (Str.strip line)) as [m1|] eqn:Hs;
    [|vm_compute in Hs; discriminate Hs].
  destruct (re_search time_pattern (Str.strip line)) as [m2|] eqn:Ht;
    [|vm_compute in Ht; discriminate Ht].
  destruct (float_of_str (text (group m1 2))) as [low|] eqn:Hlow.
  2:{ vm_compute in Hs. injection Hs as <-. vm_compute in Hlow.
      discriminate Hlow. }
  destruct (float_of_str (text (group m2 3))) as [median|] eqn:Hmed.
  2:{ vm_compute in Ht. injection Ht as <-. vm_compute in Hmed.
      discriminate Hmed. }
  exists m1, m2, low, median.
  do 4 (split; [first [assumption|reflexivity]|]).
  destruct (parse_rust_line_whole_interval ∅ None line m1 m2 low median
              Hs Ht Hlow Hmed) as [_ Hlast].
  assert (text (group m1 3) = "ns") as Hunit.
  { vm_compute in Hs. injection Hs as <-. reflexivity. }
  rewrite Hunit in Hlast. exact Hlast.
Defined.

Lemma normalize_name_numeric_suffix_witness :
  "8" ≠ "" ∧ Str.all Char.digit "8" = true
  ∧ ¬ ends_with_dash_digits (normalize_name ("BenchmarkFoo" +:+ "-" +:+ "8"))
  ∧ normalize_name ("BenchmarkFoo" +:+ "-" +:+ "8")
    = normalize_name "BenchmarkFoo".
Proof.
  assert ("8" ≠ "") as Hne by discriminate.
  assert (Str.all Char.digit "8" = true) as Hd by reflexivity.
  assert (¬ ends_with_dash_digits
            (normalize_name ("BenchmarkFoo" +:+ "-" +:+ "8"))) as Hno.
  { apply no_dash_no_suffix. vm_compute. reflexivity. }
  do 3 (split; [assumption|]).
  apply (normalize_name_numeric_suffix "BenchmarkFoo" "8" Hne Hd Hno).
Defined.

(** ** Numerals *)

Lemma string_of_uint_digits (u : Decimal.uint) :
  Str.all Char.digit (NilEmpty.string_of_uint u) = true.
Proof. induction u; cbn [NilEmpty.string_of_uint Str.all]; auto. Qed.

Lemma str_of_N_digits (n : N) :
  Str.all Char.digit (str_of_N n) = true ∧ str_of_N n ≠ "".
Proof.
  unfold str_of_N, NilZero.string_of_uint.
  destruct (N.to_uint n) as [|u|u|u|u|u|u|u|u|u|u];
    (split; [|discriminate]);
    try reflexivity; apply (string_of_uint_digits (_ u)).
Qed.

Lemma repeat_char_length (c : ascii) (n : nat) :
  String.length (repeat_char c n) = n.
Proof. induction n as [|n IH]; cbn; congruence. Qed.

Lemma repeat_char_all (p : ascii → bool) (c : ascii) (n : nat) :
  p c = true → Str.all p (repeat_char c n) = true.
Proof.
  intros Hc. induction n as [|n IH]; [reflexivity|].
  cbn [repeat_char Str.all]. rewrite Hc, IH. reflexivity.
Qed.

Lemma take_drop (n : nat) (s : string) : Str.take n s +:+ drop n s = s.
Proof.
  revert s. induction n as [|n IH]; intros [|c s]; try reflexivity.
  cbn [Str.take drop]. rewrite app_cons, IH. reflexivity.
Qed.

Lemma take_length (n : nat) (s : string) :
  String.length (Str.take n s) = Nat.min n (String.length s).
Proof.
  revert s. induction n as [|n IH]; intros [|c s]; try reflexivity.
  cbn [Str.take String.length]. rewrite IH. reflexivity.
Qed.

Lemma take_all_length (n : nat) (s : string) :
  String.length s ≤ n → Str.take n s = s.
Proof.
  revert s. induction n as [|n IH]; intros [|c s]; cbn [String.length];
    try reflexivity; [lia|].
  intros Hle. cbn [Str.take]. rewrite IH by lia. reflexivity.
Qed.

Lemma fixed_point_text (digits : nat) (n : Z) :
  decimal_text digits (fixed_point digits n).
Proof.
  unfold fixed_point.
  destruct (str_of_N_digits (Z.to_N n)) as [Hd Hne].
  set (s0 := str_of_N (Z.to_N n)) in *.
  set (s := repeat_char "0" (S digits - String.length s0) +:+ s0).
  assert (Str.all Char.digit s = true) as Hs.
  { unfold s. rewrite all_app, Hd, repeat_char_all; reflexivity. }
  assert (S digits ≤ String.length s) as Hlen.
  { unfold s. rewrite length_app, repeat_char_length. lia. }
  pose proof (take_drop (String.length s - digits) s) as Hsplit.
  pose proof (take_length (String.length s - digits) s) as Htake.
  set (whole := Str.take (String.length s - digits) s) in *.
  set (frac := drop (String.length s - digits) s) in *.
  exists whole, frac. split; [reflexivity|].
  rewrite <- Hsplit, all_app in Hs. apply andb_true_iff in Hs as [Hw Hf].
  split; [|split; [exact Hw|split; [exact Hf|]]].
  - intros Hwhole. rewrite Hwhole in Htake. cbn in Htake. lia.
  - apply (f_equal String.length) in Hsplit.
    rewrite length_app, Htake in Hsplit. lia.
Qed.

Lemma format_fixed_text (digits : nat) (x : spec_float) :
  nonneg x = true →
  format_fixed digits x = "inf" ∨ decimal_text digits (format_fixed digits x).
Proof.
  destruct x as [[]|[]| |[] m e]; try discriminate; intros _;
    cbn [format_fixed sign_text]; rewrite ?app_nil_l;
    [right|left; reflexivity|right]; apply fixed_point_text.
Qed.

(** ** Division keeps the sign *)

Lemma SFdiv_nonneg (x : spec_float) (m : positive) (e : Z) :
  nonneg x = true → nonneg (fdiv x (S754_finite false m e)) = true.
Proof.
  destruct x as [[]|[]| |[] mx ex]; try discriminate; intros _;
    try reflexivity.
  unfold fdiv. cbn [SFdiv xorb]. unfold SFdiv_core_binary.
  set (s := (_ - _ - _)%Z).
  set (m' := match s with Z0 => _ | Zpos _ => _ | Zneg _ => _ end).
  assert (0 ≤ m')%Z as Hm'.
  { unfold m'. destruct s; [lia| |lia]. rewrite Z.shiftl_mul_pow2 by lia.
    apply Z.mul_nonneg_nonneg; [lia|]. apply Z.pow_nonneg. lia. }
  pose proof (Z.div_pos m' (Z.pos m) Hm' eq_refl) as Hq. unfold Z.div in Hq.
  change IntDef.Z.div_eucl with Z.div_eucl.
  destruct (Z.div_eucl m' (Z.pos m)) as [q r].
  apply binary_round_aux_nonneg, Hq.
Qed.

(** ** The text of a time *)

(** A time that is neither negative nor NaN is shown as a numeral, a space
    and one of the units ns, µs, ms, s; the numeral is [inf] or plain
    decimal digits with one place after the point (two for seconds): no
    sign, no exponent, no [nan]. *)
Theorem format_time_text (x : spec_float) :
  nonneg x = true →
  ∃ body unit,
    format_time (Some x) = body +:+ " " +:+ unit
    ∧ unit ∈ ["ns"; micro_s; "ms"; "s"]
    ∧ (body = "inf"
       ∨ decimal_text (if String.eqb unit "s" then 2 else 1) body).
Proof.
  intros Hx. unfold format_time.
  destruct (float_of_Z_finite 1000) as (m1 & e1 & ->); [auto|].
  destruct (float_of_Z_finite 1000000) as (m2 & e2 & ->); [auto|].
  destruct (float_of_Z_finite 1000000000) as (m3 & e3 & ->); [auto|].
  destruct (fltb x _).
  { exists (format_fixed 1 x), "ns".
    split; [reflexivity|]. split; [in_list|]. apply format_fixed_text, Hx. }
  destruct (fltb x _).
  { eexists _, micro_s.
    split; [reflexivity|]. split; [in_list|].
    apply format_fixed_text, SFdiv_nonneg, Hx. }
  destruct (fltb x _).
  { eexists _, "ms".
    split; [reflexivity|]. split; [in_list|].
    apply format_fixed_text, SFdiv_nonneg, Hx. }
  eexists _, "s".
  split; [reflexivity|]. split; [in_list|].
  apply format_fixed_text, SFdiv_nonneg, Hx.
Qed.

(** ** Where the table reads N/A *)

Lemma last_char_app (a b : string) :
  b ≠ "" → last_char (a +:+ b) = last_char b.
Proof.
  intros Hb. induction a as [|c a IH]; [reflexivity|].
  rewrite app_cons. cbn [last_char]. rewrite IH.
  destruct (a +:+ b) eqn:Hab; [|reflexivity].
  destruct a; [rewrite app_nil_l in Hab; congruence|discriminate Hab].
Qed.

Lemma format_time_last (x : spec_float) :
  last_char (format_time (Some x)) = Some "s"%char.
Proof.
  unfold format_time.
  repeat destruct (fltb x _); rewrite ?last_char_app by discriminate;
    reflexivity.
Qed.

Lemma format_time_not_available (t : option spec_float) :
  format_time t = "N/A" ↔ t = None.
Proof.
  split; [|intros ->; reflexivity]. destruct t as [x|]; [|reflexivity].
  intros Heq. pose proof (format_time_last x) as Hlast.
  rewrite Heq in Hlast. discriminate Hlast.
Qed.

Lemma ratio_text_not_available (r : option spec_float) :
  ratio_text r = "N/A" ↔ r = None ∨ ∃ s, r = Some (S754_zero s).
Proof.
  unfold ratio_text. destruct r as [x|]; [|split; auto].
  destruct (float_truthy x) eqn:Hx.
  - split.
    + intros Heq. apply (f_equal last_char) in Heq.
      rewrite last_char_app in Heq by discriminate. discriminate Heq.
    + intros [[=]|[s [= ->]]]. discriminate Hx.
  - split; [|reflexivity]. intros _. right.
    destruct x; try discriminate Hx. eauto.
Qed.

Lemma classify_zero (s : bool) : classify (S754_zero s) = "excellent".
Proof. unfold classify. rewrite one_eq. reflexivity. Qed.

Section table.
Context (go_results rust_results : gmap string BenchResult).

Lemma compare_row_times (k : string) :
  go_ns (compare_row go_results rust_results k)
  = ns_per_op <$> go_results !! k
  ∧ rust_ns (compare_row go_results rust_results k)
    = ns_per_op <$> rust_results !! k.
Proof.
  unfold compare_row.
  destruct (go_results !! k), (rust_results !! k);
    try destruct (fltb _ _); split; reflexivity.
Qed.

(** Where a row of the table reads N/A: the Go (Rust) time column exactly
    when the Go (Rust) dict lacks the name; the ratio column when there is no
    ratio, and also when the ratio is zero, which is false as a condition.
    Such a row with a ratio is counted as matched and is [excellent]. *)
Theorem print_table_not_available (row : comparison) :
  row ∈ compare_results go_results rust_results →
  (format_time (go_ns row) = "N/A"
   ↔ go_results !! normalized_name row = None)
  ∧ (format_time (rust_ns row) = "N/A"
     ↔ rust_results !! normalized_name row = None)
  ∧ (ratio_text (ratio row) = "N/A"
     ↔ ratio row = None ∨ ∃ s, ratio row = Some (S754_zero s))
  ∧ (is_Some (ratio row) → ratio_text (ratio row) = "N/A" →
     status row = "excellent").
Proof.
  intros [Hrow Hk]%elem_of_compare_results.
  destruct (compare_row_times (normalized_name row)) as [Hgo Hrust].
  rewrite <- Hrow in Hgo, Hrust.
  split; [|split; [|split; [apply ratio_text_not_available|]]].
  - rewrite format_time_not_available, Hgo.
    destruct (go_results !! _); split; (discriminate || reflexivity).
  - rewrite format_time_not_available, Hrust.
    destruct (rust_results !! _); split; (discriminate || reflexivity).
  - intros [q Hq] [Hnone|[s Hs]]%ratio_text_not_available; [congruence|].
    clear Hgo Hrust Hk. unfold compare_row in Hrow.
    destruct (go_results !! _) as [g|], (rust_results !! _) as [r|];
      try (rewrite Hrow in Hs; discriminate Hs).
    destruct (fltb zero (ns_per_op g));
      [|rewrite Hrow in Hs; discriminate Hs].
    rewrite Hrow in Hs. cbn [ratio set_status set_ratio] in Hs.
    injection Hs as Hs. rewrite Hrow. cbn [status set_status].
    rewrite Hs. apply classify_zero.
Qed.

(** The fallback symbol [?] of the status column is never printed for rows
    of [compare_results]: each of their statuses has a symbol, and it is one
    of [++], [+], [~], [!!] exactly when the row has a ratio. *)
Theorem print_table_symbol_known (row : comparison) :
  row ∈ compare_results go_results rust_results →
  dict_get symbols (status row) "?" ≠ "?"
  ∧ (is_Some (ratio row)
     ↔ dict_get symbols (status row) "?" ∈ ["++"; "+"; "~"; "!!"]).
Proof.
  intros [Hrow _]%elem_of_compare_results. unfold compare_row in Hrow.
  assert (∀ q, dict_get symbols (classify q) "?" ≠ "?"
               ∧ dict_get symbols (classify q) "?" ∈ ["++"; "+"; "~"; "!!"])
    as Hclass.
  { intros q. unfold classify.
    repeat destruct (fleb q _); (split; [discriminate|in_list]). }
  destruct (go_results !! _) as [g|], (rust_results !! _) as [r|];
    [destruct (fltb zero (ns_per_op g))|..];
    rewrite Hrow; cbn [status ratio set_status set_ratio];
    try (split; [apply Hclass|split; [intros _; apply Hclass|eauto]]);
    (split; [discriminate|]);
    (split; [intros [? [=]]|intros Hin; not_in_list Hin]).
Qed.
End table.

(** ** The lines of the table *)

Lemma print_rows (name_width : nat) (comparisons : list comparison)
    (out : list string) (counts : nat * nat * nat) :
  foldl (print_row name_width) (out, counts) comparisons
  = (out ++ (table_row name_width <$> comparisons),
     foldl count_row counts comparisons).
Proof.
  revert out counts.
  induction comparisons as [|c comparisons IH]; intros out counts.
  - cbn [foldl fmap list_fmap]. rewrite List.app_nil_r. reflexivity.
  - cbn [foldl]. unfold print_row at 2. cbn [fst snd]. rewrite IH.
    rewrite <- List.app_assoc. reflexivity.
Qed.

Lemma max_length_bounds (w : nat) (comparisons : list comparison) :
  let w' := foldl (λ w c', Nat.max w (String.length (normalized_name c')))
              w comparisons in
  w ≤ w'
  ∧ (∀ c, c ∈ comparisons → String.length (normalized_name c) ≤ w')
  ∧ (w' = w
     ∨ ∃ c, c ∈ comparisons ∧ String.length (normalized_name c) = w').
Proof.
  revert w. induction comparisons as [|c comparisons IH]; intros w; cbn zeta.
  - cbn [foldl]. split; [lia|]. split; [|auto]. intros c Hc. inversion Hc.
  - cbn [foldl].
    destruct (IH (Nat.max w (String.length (normalized_name c))))
      as (Hle & Hall & Hmax).
    cbn zeta in Hle, Hall, Hmax.
    set (w' := foldl _ _ comparisons) in *.
    split; [lia|]. split.
    + intros c' [->|Hc']%elem_of_cons; [lia|apply Hall, Hc'].
    + destruct Hmax as [Heq|(c' & Hc' & Hlen)].
      * destruct (Nat.max_spec w (String.length (normalized_name c)))
          as [[_ Hm]|[_ Hm]]; rewrite Hm in Heq.
        -- right. exists c. split; [apply list_elem_of_here|auto].
        -- left. exact Heq.
      * right. exists c'. split; [apply list_elem_of_further, Hc'|exact Hlen].
Qed.

Lemma print_table_lines_eq (comparisons : list comparison)
    (name_width : nat) :
  name_width_of comparisons = Ok name_width →
  print_table_lines comparisons
  = Ok (table_header name_width
        ++ (table_row name_width <$> comparisons)
        ++ table_footer comparisons (foldl count_row (0, 0, 0) comparisons)).
Proof.
  intros Hw. unfold print_table_lines. rewrite Hw, bind_ret, print_rows.
  rewrite <- List.app_assoc. reflexivity.
Qed.

Lemma table_footer_length (comparisons : list comparison)
    (counts : nat * nat * nat) :
  length (table_footer comparisons counts) = 15.
Proof. destruct counts as [[? ?] ?]. reflexivity. Qed.

(** What [print_table] writes: nothing but a [ValueError] when there is no
    row; otherwise the two header lines, one line per row in order, and the
    fifteen lines of summary and legend.  The name column is as wide as the
    longest name, and at least 20, so that the slice of the name never cuts
    anything. *)
Theorem print_table_lines_layout (comparisons : list comparison) :
  (print_table_lines comparisons = Raise ValueError ↔ comparisons = [])
  ∧ ∀ lines,
      print_table_lines comparisons = Ok lines →
      ∃ name_width,
        20 ≤ name_width
        ∧ (∀ comp, comp ∈ comparisons →
             String.length (normalized_name comp) ≤ name_width
             ∧ Str.take name_width (normalized_name comp)
               = normalized_name comp)
        ∧ (name_width = 20
           ∨ ∃ comp, comp ∈ comparisons
               ∧ String.length (normalized_name comp) = name_width)
        ∧ lines
          = table_header name_width
            ++ (table_row name_width <$> comparisons)
            ++ table_footer comparisons (foldl count_row (0, 0, 0) comparisons)
        ∧ length lines = length comparisons + 17.
Proof.
  destruct comparisons as [|c comparisons].
  { split; [split; reflexivity|]. intros lines [=]. }
  pose proof (print_table_lines_eq (c :: comparisons) _ eq_refl) as Heq.
  set (name_width := Nat.max _ 20) in Heq. rewrite Heq.
  split; [split; discriminate|]. intros lines Hlines.
  assert (lines
          = table_header name_width
            ++ (table_row name_width <$> c :: comparisons)
            ++ table_footer (c :: comparisons)
                 (foldl count_row (0, 0, 0) (c :: comparisons))) as ->
    by congruence.
  clear Heq Hlines. exists name_width.
  destruct (max_length_bounds (String.length (normalized_name c)) comparisons)
    as (Hle & Hall & Hmax).
  cbn zeta in Hle, Hall, Hmax. subst name_width.
  set (w' := foldl _ _ comparisons) in *.
  assert (∀ comp, comp ∈ c :: comparisons →
            String.length (normalized_name comp) ≤ Nat.max w' 20) as Hwidth.
  { intros comp [->|Hc]%elem_of_cons; [lia|].
    pose proof (Hall comp Hc). lia. }
  split; [lia|]. split; [|split; [|split]].
  - intros comp Hc. split; [apply Hwidth, Hc|].
    apply take_all_length, Hwidth, Hc.
  - destruct (Nat.max_spec w' 20) as [[_ Hm]|[_ Hm]]; [left; exact Hm|].
    right. rewrite Hm.
    destruct Hmax as [Heq|(c' & Hc' & Hlen)].
    + exists c. split; [apply list_elem_of_here|auto].
    + exists c'. split; [apply list_elem_of_further, Hc'|exact Hlen].
  - reflexivity.
  - rewrite !List.length_app, length_fmap, table_footer_length.
    unfold table_header. cbn [length]. lia.
Qed.

Lemma format_time_text_witness :
  nonneg f123 = true
  ∧ format_time (Some f123) = "123.0 ns"
  ∧ ∃ body unit,
      format_time (Some f123) = body +:+ " " +:+ unit
      ∧ unit ∈ ["ns"; micro_s; "ms"; "s"].
Proof.
  assert (nonneg f123 = true) as Hx by reflexivity.
  split; [exact Hx|]. split; [vm_compute; reflexivity|].
  destruct (format_time_text f123 Hx) as (body & unit & Heq & Hunit & _).
  exists body, unit. split; assumption.
Defined.

Lemma print_table_not_available_witness :
  ∃ row, row ∈ compare_results go_foo ∅
    ∧ format_time (rust_ns row) = "N/A"
    ∧ format_time (go_ns row) ≠ "N/A".
Proof.
  exists (compare_row go_foo ∅ "foo").
  assert (compare_row go_foo ∅ "foo" ∈ compare_results go_foo ∅) as Hin
    by (apply compare_row_elem_of; left; vm_compute; eauto).
  split; [exact Hin|].
  destruct (print_table_not_available go_foo ∅ _ Hin) as (Hgo & Hrust & _).
  split; [apply Hrust; reflexivity|].
  intros Hna. apply Hgo in Hna. vm_compute in Hna. discriminate Hna.
Defined.

Lemma print_table_symbol_known_witness :
  ∃ row, row ∈ compare_results go_foo rust_foo
    ∧ is_Some (ratio row)
    ∧ dict_get symbols (status row) "?" ∈ ["++"; "+"; "~"; "!!"].
Proof.
  exists (compare_row go_foo rust_foo "foo").
  assert (compare_row go_foo rust_foo "foo" ∈ compare_results go_foo rust_foo)
    as Hin by (apply compare_row_elem_of; left; vm_compute; eauto).
  split; [exact Hin|].
  destruct (print_table_symbol_known go_foo rust_foo _ Hin) as [_ Hsym].
  assert (is_Some (ratio (compare_row go_foo rust_foo "foo"))) as Hratio
    by (vm_compute; eauto).
  split; [exact Hratio|]. apply Hsym, Hratio.
Defined.

(** * The names the records carry *)

(** ** Which match the matcher finds *)

Section priority.
Context {A : Type}.
Implicit Types (k : @cont A).

Lemma when_zero_None least (o o' : option A) :
  (o = None → o' = None) →
  when_zero least o = None → when_zero least o' = None.
Proof. destruct least; [auto|reflexivity]. Qed.

Lemma rep_greedy_fails_alike p k k' :
  fails_alike k k' →
  ∀ s least pos caps caps',
    rep_greedy p least pos s caps k = None →
    rep_greedy p least pos s caps' k' = None.
Proof.
  intros Hk. induction s as [|c s IH]; intros least pos caps caps';
    cbn [rep_greedy].
  - apply when_zero_None, Hk.
  - destruct (p c); [|apply when_zero_None, Hk].
    destruct (rep_greedy p (pred least) (S pos) s caps k) eqn:Hrep;
      [discriminate|].
    rewrite (IH _ _ _ caps' Hrep). apply when_zero_None, Hk.
Qed.

Lemma rep_lazy_fails_alike p k k' :
  fails_alike k k' →
  ∀ s least pos caps caps',
    rep_lazy p least pos s caps k = None →
    rep_lazy p least pos s caps' k' = None.
Proof.
  intros Hk. induction s as [|c s IH]; intros least pos caps caps';
    cbn [rep_lazy].
  - destruct (when_zero least (k pos "" caps)) eqn:Hz; [discriminate|].
    intros _. rewrite (when_zero_None least _ _ (Hk pos "" caps caps') Hz).
    reflexivity.
  - destruct (when_zero least (k pos (String c s) caps)) eqn:Hz;
      [discriminate|].
    rewrite (when_zero_None least _ _ (Hk pos _ caps caps') Hz).
    destruct (p c); [apply IH|reflexivity].
Qed.

Lemma rmatch_fails_alike r :
  ∀ k k', fails_alike k k' →
  ∀ pos s caps caps',
    rmatch r pos s caps k = None → rmatch r pos s caps' k' = None.
Proof.
  induction r as [l|[] least p|r1 IH1 r2 IH2|r1 IH1 r2 IH2|r IH|n r IH| |];
    intros k k' Hk pos s caps caps'; cbn [rmatch].
  - destruct (Str.drop_prefix l s); [apply Hk|reflexivity].
  - apply rep_greedy_fails_alike, Hk.
  - apply rep_lazy_fails_alike, Hk.
  - apply IH1. intros pos' s' c c'. apply IH2, Hk.
  - destruct (rmatch r1 pos s caps k) eqn:H1; [discriminate|].
    rewrite (IH1 k k' Hk _ _ _ caps' H1). apply IH2, Hk.
  - destruct (rmatch r pos s caps k) eqn:H1; [discriminate|].
    rewrite (IH k k' Hk _ _ _ caps' H1). apply Hk.
  - apply IH. intros pos' s' c c'. apply Hk.
  - destruct pos; [apply Hk|reflexivity].
  - destruct s as [|c [|c' s]]; [apply Hk| |reflexivity].
    destruct (Ascii.eqb c LF); [apply Hk|reflexivity].
Qed.

(** A lazy repetition takes the shortest text after which the rest of the
    pattern matches. *)
Lemma rep_lazy_first p k a :
  ∀ s least pos caps,
    rep_lazy p least pos s caps k = Some a →
    ∃ t s', s = t +:+ s' ∧ Str.all p t = true ∧ least ≤ String.length t
            ∧ k (pos + String.length t) s' caps = Some a
            ∧ ∀ t1 t2, t = t1 +:+ t2 → t2 ≠ "" → least ≤ String.length t1 →
                k (pos + String.length t1) (t2 +:+ s') caps = None.
Proof.
  induction s as [|c s IH]; intros least pos caps; cbn [rep_lazy].
  - destruct least as [|least]; cbn [when_zero]; [|discriminate].
    destruct (k pos "" caps) as [a'|] eqn:Hk; [|discriminate].
    intros [= ->]. exists "", "". rewrite Nat.add_0_r.
    repeat split; auto. intros [|? ?] t2 Heq; [|discriminate Heq].
    rewrite app_nil_l in Heq. congruence.
  - destruct (when_zero least (k pos (String c s) caps)) as [a'|] eqn:Hz.
    + intros [= ->]. destruct least as [|least]; [|discriminate Hz].
      cbn [when_zero] in Hz. exists "", (String c s). rewrite Nat.add_0_r.
      repeat split; auto. intros [|? ?] t2 Heq; [|discriminate Heq].
      rewrite app_nil_l in Heq. congruence.
    + destruct (p c) eqn:Hc; [|discriminate].
      intros (t & s' & -> & Ht & Hleast & Hk & Hmin)%IH.
      exists (String c t), s'. rewrite app_cons. cbn [Str.all String.length].
      rewrite Hc, Ht, Nat.add_succ_r. cbn [Nat.add] in Hk.
      split; [reflexivity|]. split; [reflexivity|]. split; [lia|].
      split; [exact Hk|].
      intros [|c1 t1] t2 Heq Hne Hl.
      * rewrite app_nil_l in Heq. subst t2. cbn [String.length] in Hl.
        destruct least; [|lia]. cbn [when_zero] in Hz.
        rewrite Nat.add_0_r, app_cons. exact Hz.
      * rewrite app_cons in Heq. injection Heq as <- ->.
        cbn [String.length] in *. rewrite Nat.add_succ_r.
        apply (Hmin t1 t2 eq_refl Hne). lia.
Qed.
End priority.

(** ** The name [go_pattern] captures *)

Lemma go_pattern_eq :
  go_pattern
  = (Bol ⋅ Lit "Benchmark" ⋅ Grp 1 (plus_lazy Char.nonspace)
       ⋅ Opt (Lit "-" ⋅ plus Char.digit) ⋅ go_fields)%re.
Proof. reflexivity. Qed.

(** What [go_fields] matches starts with white space, and group 1 is not
    one of its groups. *)
Lemma go_fields_shape pos t s' caps caps' :
  matches go_fields pos t s' caps caps' →
  at_space (t +:+ s') ∧ t ≠ "" ∧ caps' !! 1 = caps !! 1.
Proof.
  unfold go_fields. intros Hm. inv_matches.
  all: rewrite ?lookup_insert_ne by done.
  all: split; [|split; [|reflexivity]].
  all: try match goal with
           | |- at_space ((?w +:+ ?x) +:+ ?s) =>
               rewrite (app_assoc w x s); apply at_space_plus; assumption
           end.
  all: match goal with
       | H : 1 ≤ String.length ?w |- ?w +:+ _ ≠ "" =>
           destruct w; [cbn in H; lia|discriminate]
       end.
Qed.

Lemma at_space_not_dash (s : string) :
  at_space s → Str.drop_prefix "-" s = None.
Proof.
  destruct s as [|c s]; [reflexivity|]. cbn [at_space Str.drop_prefix].
  destruct c as [[] [] [] [] [] [] [] []]; vm_compute; congruence.
Qed.

Lemma span_digits_at_space (d s : string) :
  Str.all Char.digit d = true → at_space s →
  span Char.digit (d +:+ s) = (d, s).
Proof.
  intros Hd Hs. induction d as [|c d IH].
  - rewrite app_nil_l. destruct s as [|c s]; [reflexivity|].
    cbn [at_space span] in *.
    destruct (Char.digit c) eqn:Hc; [|reflexivity].
    apply digit_nonspace in Hc. unfold Char.nonspace in Hc.
    rewrite Hs in Hc. discriminate Hc.
  - rewrite app_cons. cbn [Str.all span] in *.
    apply andb_true_iff in Hd as [Hc Hd]. rewrite Hc, (IH Hd). reflexivity.
Qed.

Section go_name.
Context {A : Type}.
Implicit Types (k : @cont A).

(** In front of white space nothing of the suffix is found, and the fields
    are matched at once. *)
Lemma go_suffix_absent pos s caps k :
  at_space s →
  rmatch (Opt (Lit "-" ⋅ plus Char.digit) ⋅ go_fields) pos s caps k
  = rmatch go_fields pos s caps k.
Proof.
  intros Hs. cbn [rmatch]. rewrite (at_space_not_dash s Hs). reflexivity.
Qed.

(** In front of a numeric suffix and white space, the suffix is taken when
    the fields match after it. *)
Lemma go_suffix_present pos d s caps k :
  d ≠ "" → Str.all Char.digit d = true → at_space s → s ≠ "" →
  rmatch (Opt (Lit "-" ⋅ plus Char.digit) ⋅ go_fields) pos
    ("-" +:+ d +:+ s) caps k = None →
  rmatch go_fields (pos + 1 + String.length d) s caps k = None.
Proof.
  intros Hne Hd Hs Hs'. change ("-" +:+ d +:+ s) with (String "-" (d +:+ s)).
  cbn [rmatch Str.drop_prefix]. change (Ascii.eqb "-" "-") with true.
  cbv iota. unfold plus at 1. cbn [rmatch].
  rewrite rep_greedy_span.
  - rewrite (span_digits_at_space d s Hd Hs). cbn [fst snd String.length].
    destruct d as [|c d]; [congruence|]. cbn [String.length Nat.leb].
    destruct (rmatch go_fields _ _ _ _) eqn:Hf; [discriminate|].
    intros _. rewrite <- Hf. reflexivity.
  - intros p c s0 caps0 Hc. unfold go_fields, plus. cbn [rmatch rep_greedy].
    apply digit_nonspace in Hc. unfold Char.nonspace in Hc.
    apply negb_true_iff in Hc. rewrite Hc. reflexivity.
Qed.
End go_name.

Lemma accept_fails_alike : fails_alike accept accept.
Proof. intros pos s caps caps'. discriminate. Qed.

Lemma suffix_shape pos t s' caps caps' :
  matches (Opt (Lit "-" ⋅ plus Char.digit)) pos t s' caps caps' →
  caps' = caps
  ∧ (t = "" ∨ ∃ d, t = "-" +:+ d ∧ d ≠ "" ∧ Str.all Char.digit d = true).
Proof.
  intros Hm. inv_matches; (split; [reflexivity|]); [right|left; reflexivity].
  eexists. split; [reflexivity|]. split; [|assumption].
  apply length_nonempty. assumption.
Qed.

(** The name [go_pattern] captures is the first token after [Benchmark]
    without its numeric suffix, when it has one after some other character,
    and all of it when not. *)
Lemma go_pattern_name_exact (l : string) (m : gmap nat string) :
  re_match go_pattern l = Some m →
  go_name_of (first_token l) ("Benchmark" +:+ text (group m 1)).
Proof.
  unfold re_match. rewrite go_pattern_eq.
  destruct (rmatch _ 0 l ∅ accept) as [f|] eqn:Hm; [|discriminate].
  intros [= <-]. unfold plus_lazy in Hm.
  set (tail := (Opt (Lit "-" ⋅ plus Char.digit) ⋅ go_fields)%re) in Hm.
  cbn [rmatch] in Hm.
  destruct (Str.drop_prefix "Benchmark" l) as [l1|] eqn:Hl1; [|discriminate].
  apply drop_prefix_Some in Hl1 as ->.
  apply rep_lazy_first in Hm as (g & s' & -> & Hg & Hlen & Hk & Hmin).
  replace (0 + String.length "Benchmark" + String.length g
           - (0 + String.length "Benchmark")) with (String.length g) in Hk
    by lia.
  rewrite take_app in Hk.
  assert (g ≠ "") as Hne by (apply length_nonempty, Hlen).
  pose proof Hk as Hsound.
  apply rmatch_sound in Hsound as (t & s'' & caps' & -> & Ht & [= <-]).
  unfold tail in Ht. inversion Ht as [| |r1 r2 ? sfx fields ? ? caps1 ? Hsfx Hfields| | | | | | |];
    subst. clear Ht.
  apply suffix_shape in Hsfx as [-> Hsfx].
  apply go_fields_shape in Hfields as (Hspace & Hfne & Hcaps).
  cbn [groups].
  assert (text (group caps' 1) = g) as ->.
  { unfold group. rewrite Hcaps, lookup_insert_eq. reflexivity. }
  destruct Hsfx as [-> | (d & -> & Hd & Hdigits)].
  - (* no suffix was taken: there was none to take *)
    rewrite !app_nil_l in *.
    exists g, g. split.
    { f_equal. rewrite <- app_assoc. apply first_token_app.
      - rewrite all_app, Hg. reflexivity.
      - exact Hspace. }
    split; [reflexivity|]. right. split; [reflexivity|]. split; [exact Hne|].
    intros (g' & d & Heq & Hg' & Hd & Hdigits).
    assert (1 ≤ String.length g') as Hlen'.
    { destruct g'; [congruence|cbn; lia]. }
    pose proof (Hmin g' ("-" +:+ d) Heq ltac:(discriminate) Hlen') as Hnone.
    cbv beta in Hnone. unfold tail in Hnone, Hk.
    rewrite app_assoc in Hnone.
    apply go_suffix_present in Hnone; [|assumption..|].
    2:{ intros Hempty. destruct fields; [congruence|].
        rewrite app_cons in Hempty. discriminate Hempty. }
    rewrite (go_suffix_absent _ _ _ _ Hspace) in Hk.
    apply (rmatch_fails_alike go_fields accept accept accept_fails_alike
             _ _ _ (<[1 := g]> ∅)) in Hnone.
    replace (0 + String.length "Benchmark" + String.length g' + 1
             + String.length d)
      with (0 + String.length "Benchmark" + String.length g) in Hnone.
    + congruence.
    + rewrite Heq, !length_app. cbn [String.length]. lia.
  - (* the suffix was taken *)
    exists (g +:+ "-" +:+ d), g. split.
    { match goal with
      | |- first_token ?x = _ =>
          replace x
            with (("Benchmark" +:+ g +:+ "-" +:+ d) +:+ fields +:+ s'')
            by (rewrite !app_assoc; reflexivity)
      end.
      apply first_token_app; [|exact Hspace].
      rewrite !all_app, Hg. cbn [andb].
      rewrite (all_impl _ _ d digit_nonspace Hdigits). reflexivity. }
    split; [reflexivity|]. left. exists d. auto.
Qed.

Section provenance.
Context (lines : list string).

Lemma parse_go_line_name results line results' :
  line ∈ lines →
  map_Forall (λ _ r, ∃ line, line ∈ lines
                ∧ go_name_of (first_token (Str.strip line)) (name r))
    results →
  parse_go_line results line = Ok results' →
  map_Forall (λ _ r, ∃ line, line ∈ lines
                ∧ go_name_of (first_token (Str.strip line)) (name r))
    results'.
Proof.
  intros Hline Hres. unfold parse_go_line.
  destruct (re_match go_pattern (Str.strip line)) as [m|] eqn:Hm;
    [|intros [= <-]; exact Hres].
  apply go_pattern_name_exact in Hm.
  intros (ns & _ & (b & _ & (a & _ & [= <-])%bind_Ok)%bind_Ok)%bind_Ok.
  apply map_Forall_insert_2; [|exact Hres].
  exists line. split; [exact Hline|exact Hm].
Qed.

Lemma match_name_from line current_name :
  line ∈ lines →
  (∀ cn, current_name = Some cn →
     ∃ name_line, name_line ∈ lines
       ∧ is_Some (re_match name_pattern (Str.strip name_line))
       ∧ cn = Str.replace "/" "_" (first_token (Str.strip name_line))) →
  ∀ cn, match_name (Str.strip line) current_name = Some cn →
    ∃ name_line, name_line ∈ lines
      ∧ is_Some (re_match name_pattern (Str.strip name_line))
      ∧ cn = Str.replace "/" "_" (first_token (Str.strip name_line)).
Proof.
  intros Hline Hcur cn. unfold match_name.
  destruct (re_match name_pattern (Str.strip line)) as [m|] eqn:Hm;
    [|apply Hcur].
  pose proof Hm as (g & -> & Hne & Htok)%name_pattern_shape.
  rewrite (truthy_nonempty g Hne). intros [= <-].
  exists line. rewrite Hm, Htok. eauto.
Qed.

Lemma parse_rust_line_from st line st' :
  line ∈ lines →
  rust_state_from lines st →
  parse_rust_line st line = Ok st' →
  rust_state_from lines st'.
Proof.
  destruct st as [results current_name]. intros Hline [Hres Hcur].
  unfold parse_rust_line. cbn [fst snd] in *.
  pose proof (match_name_from line current_name Hline Hcur) as Hcur1.
  set (cur1 := match_name (Str.strip line) current_name) in *.
  intros ([results2 cur2] & Htime & Hsimple)%bind_Ok.
  assert (rust_state_from lines (results2, cur2)) as [Hres2 Hcur2].
  { unfold match_time in Htime.
    destruct (re_search time_pattern (Str.strip line)) as [m|] eqn:Hm;
      [|injection Htime as <- <-; split; assumption].
    destruct cur1 as [cn|]; [|injection Htime as <- <-; split; assumption].
    destruct (Str.truthy cn); [|injection Htime as <- <-; split; assumption].
    apply bind_Ok in Htime as (median & Hmedian & [= <- <-]).
    split; [|discriminate]. cbn [fst].
    apply map_Forall_insert_2; [|exact Hres].
    destruct (Hcur1 cn eq_refl) as (name_line & Hname & Hmatch & ->).
    right. exists name_line, line, m, median. auto 10. }
  unfold match_simple in Hsimple. cbn [fst snd] in *.
  destruct (re_match simple_pattern (Str.strip line)) as [m|] eqn:Hm;
    [|injection Hsimple as <-; split; assumption].
  pose proof Hm as (g1 & Hg1 & _ & Htok)%simple_pattern_shape.
  apply bind_Ok in Hsimple as (low & Hlow & [= <-]).
  split; [|exact Hcur2]. cbn [fst].
  apply map_Forall_insert_2; [|exact Hres2].
  left. exists line, m, low. rewrite Htok, Hg1. auto.
Qed.

(** Claim C8, amended.  The name a record carries is a function of the first
    token of a line of its file, and is not always that token.  The Go
    parser stores the token without its numeric suffix [-N], unless the
    suffix is all that follows [Benchmark], in which case it stores the
    whole token.  The Rust parser stores the token as it is written in the
    records of its shorthand branch, which carry the first number of the
    line, and with each slash replaced by an underscore in the records of
    its interval branch, which carry the median. *)
Theorem display_name_of_first_token
    (results : gmap string BenchResult) (key : string) (r : BenchResult) :
  results !! key = Some r →
  (parse_go_bench lines = Ok results →
   ∃ line, line ∈ lines
           ∧ go_name_of (first_token (Str.strip line)) (name r))
  ∧ (parse_rust_bench lines = Ok results →
     rust_shorthand_record lines r ∨ rust_interval_record lines r).
Proof.
  intros Hr. split.
  - intros Hgo. unfold parse_go_bench in Hgo.
    apply (for_each_invariant _
             (map_Forall (λ _ r, ∃ line, line ∈ lines
                ∧ go_name_of (first_token (Str.strip line)) (name r)))
             lines) in Hgo.
    + exact (Hgo key r Hr).
    + intros acc x acc' Hx. apply parse_go_line_name, Hx.
    + apply map_Forall_empty.
  - intros (st & Hloop & [= <-])%bind_Ok.
    apply (for_each_invariant _ (rust_state_from lines) lines) in Hloop.
    + destruct Hloop as [Hres _]. exact (Hres key r Hr).
    + intros acc x acc' Hx. apply parse_rust_line_from, Hx.
    + split; [apply map_Forall_empty|discriminate].
Qed.
End provenance.

(** The last dash of a text in front of digits is where its numeric suffix
    starts. *)
Lemma suffixed_unique (rest g1 g2 : string) :
  suffixed rest g1 → suffixed rest g2 → g1 = g2.
Proof.
  intros (d1 & -> & _ & _ & Hd1) (d2 & Heq & _ & _ & Hd2).
  assert (∀ d, Str.all Char.digit d = true → Str.all (is_not "-") d = true)
    as Hdash.
  { intros d. apply all_impl. intros c Hc. apply (digit_facts c Hc). }
  apply Hdash in Hd1, Hd2. clear Hdash.
  revert g2 Heq. induction g1 as [|c g1 IH]; intros [|c2 g2] Heq.
  - reflexivity.
  - change (String "-" d1 = String c2 (g2 +:+ "-" +:+ d2)) in Heq.
    injection Heq as _ Heq.
    rewrite Heq, !all_app in Hd1.
    apply andb_true_iff in Hd1 as [_ Hd1]. discriminate Hd1.
  - change (String c (g1 +:+ "-" +:+ d1) = String "-" d2) in Heq.
    injection Heq as _ Heq.
    rewrite <- Heq, !all_app in Hd2.
    apply andb_true_iff in Hd2 as [_ Hd2]. discriminate Hd2.
  - change (String c (g1 +:+ "-" +:+ d1) = String c2 (g2 +:+ "-" +:+ d2))
      in Heq.
    injection Heq as -> Heq. f_equal. apply IH, Heq.
Qed.

(** The token fixes the name. *)
Lemma go_name_of_functional (token name1 name2 : string) :
  go_name_of token name1 → go_name_of token name2 → name1 = name2.
Proof.
  intros (rest1 & g1 & -> & -> & H1) (rest2 & g2 & Heq & -> & H2).
  assert (rest2 = rest1) as ->.
  { clear H1 H2.
    assert (Str.drop_prefix "Benchmark" ("Benchmark" +:+ rest1)
            = Str.drop_prefix "Benchmark" ("Benchmark" +:+ rest2)) as Hdrop
      by (rewrite Heq; reflexivity).
    rewrite !drop_prefix_app in Hdrop. congruence. }
  f_equal.
  destruct H1 as [H1|(-> & _ & H1)], H2 as [H2|(-> & _ & H2)].
  - apply (suffixed_unique _ _ _ H1 H2).
  - destruct H2. eauto.
  - destruct H1. eauto.
  - reflexivity.
Qed.

Lemma display_name_of_first_token_witness :
  go_foo !! "foo" = Some (go_record "BenchmarkFoo" f123)
  ∧ parse_go_bench go_file = Ok go_foo
  ∧ (∃ line, line ∈ go_file
       ∧ go_name_of (first_token (Str.strip line)) "BenchmarkFoo")
  ∧ parse_rust_bench rust_file_slash
    = Ok {["renderfoo" := rust_result "render_foo" two]}
  ∧ (rust_shorthand_record rust_file_slash (rust_result "render_foo" two)
     ∨ rust_interval_record rust_file_slash (rust_result "render_foo" two)).
Proof.
  assert (go_foo !! "foo" = Some (go_record "BenchmarkFoo" f123)) as Hr
    by reflexivity.
  assert (parse_go_bench go_file = Ok go_foo) as Hgo
    by (vm_compute; reflexivity).
  assert (parse_rust_bench rust_file_slash
          = Ok {["renderfoo" := rust_result "render_foo" two]}) as Hrust
    by (vm_compute; reflexivity).
  assert (({["renderfoo" := rust_result "render_foo" two]}
             : gmap string BenchResult) !! "renderfoo"
          = Some (rust_result "render_foo" two)) as Hr' by reflexivity.
  do 2 (split; [assumption|]).
  split;
    [exact (proj1 (display_name_of_first_token go_file go_foo "foo" _ Hr)
              Hgo)|].
  split; [exact Hrust|].
  exact (proj2 (display_name_of_first_token rust_file_slash _ "renderfoo" _
                  Hr') Hrust).
Defined.
